(** * CreditCheck dashboard: the normalisation, validation and export core

    A shallow embedding of [deshboard/src/App.tsx] (and of the earlier
    variant of the same component, which carries its own [canonGroup]).

    - A JavaScript string is the list of its UTF-16 code units.
    - A credit is a JavaScript number, kept as a binary64 float.
    - A student's grade, class and number are integers (small ones, which
      a number holds exactly and prints in full).
    - [Map] and [Set] iterate in insertion order, so both are lists.
    - [String.prototype.normalize('NFKC')] and [localeCompare(_, 'ko')] are
      services of the JavaScript host; the code is written against the
      class [Host] that provides them. *)

From Stdlib Require Import ZArith NArith List Bool Lia Floats.
From Stdlib Require Import Sorting.Sorted Sorting.Permutation DecimalPos.
Import ListNotations.

Set Implicit Arguments.

(** ** JavaScript strings *)

Definition jsstring := list N.

Module Js.

Fixpoint str_eqb (a b : jsstring) : bool :=
  match a, b with
  | [], [] => true
  | x :: a', y :: b' => N.eqb x y && str_eqb a' b'
  | _, _ => false
  end.

(** A string is falsy exactly when it is empty. *)
Definition nonEmpty (s : jsstring) : bool :=
  match s with [] => false | _ :: _ => true end.

(** WhiteSpace and LineTerminator of ECMAScript: what [\s] matches and
    what [trim] removes. *)
Definition isWhiteSpace (c : N) : bool :=
  ((9 <=? c) && (c <=? 13) || (c =? 32) || (c =? 160) || (c =? 0x1680)
   || (0x2000 <=? c) && (c <=? 0x200A)
   || (c =? 0x2028) || (c =? 0x2029) || (c =? 0x202F) || (c =? 0x205F)
   || (c =? 0x3000) || (c =? 0xFEFF))%N.

(** What [.] does not match (no [s] flag). *)
Definition isLineTerminator (c : N) : bool :=
  ((c =? 10) || (c =? 13) || (c =? 0x2028) || (c =? 0x2029))%N.

Fixpoint trimStart (s : jsstring) : jsstring :=
  match s with
  | [] => []
  | c :: s' => if isWhiteSpace c then trimStart s' else s
  end.

Definition trimEnd (s : jsstring) : jsstring := rev (trimStart (rev s)).

Definition trim (s : jsstring) : jsstring := trimEnd (trimStart s).

(** [s.replace(/\s+/g, '')] *)
Definition stripWs (s : jsstring) : jsstring :=
  filter (fun c => negb (isWhiteSpace c)) s.

(** [s.replace(/X/g, Y)] for a class [X] of single code units. *)
Definition replaceUnits (X : N -> bool) (y : N) (s : jsstring) : jsstring :=
  map (fun c => if X c then y else c) s.

(** Does the run of white space at the head of [s] end at [sep]? *)
Definition wsThenSep (sep : N) (s : jsstring) : bool :=
  match trimStart s with
  | c :: _ => N.eqb c sep
  | [] => false
  end.

(** [s.replace(/\s*SEP\s*/g, SEP)]: a match starts at the first code unit
    of the white-space run that ends at [sep], and takes the whole run
    after it.  [afterSep] says that the scan is inside the run that
    follows a separator. *)
Fixpoint replaceWsAround (sep : N) (afterSep : bool) (s : jsstring) : jsstring :=
  match s with
  | [] => []
  | c :: s' =>
      if N.eqb c sep then sep :: replaceWsAround sep true s'
      else if isWhiteSpace c then
        if afterSep || wsThenSep sep s'
        then replaceWsAround sep afterSep s'
        else c :: replaceWsAround sep false s'
      else c :: replaceWsAround sep false s'
  end.

Definition lparen : N := 40.
Definition rparen : N := 41.

(** The replacement of every parenthesised span (an opening parenthesis,
    any code units other than a closing one, a closing parenthesis) by
    the same span with its white space removed.  A match opens at an
    opening parenthesis that has a closing one somewhere after it, and
    closes at the first such; [inside] says that the scan is between
    the two. *)
Fixpoint stripWsInParens (inside : bool) (s : jsstring) : jsstring :=
  match s with
  | [] => []
  | c :: s' =>
      if inside then
        if N.eqb c rparen then c :: stripWsInParens false s'
        else if isWhiteSpace c then stripWsInParens true s'
        else c :: stripWsInParens true s'
      else if N.eqb c lparen && existsb (N.eqb rparen) s'
        then c :: stripWsInParens true s'
        else c :: stripWsInParens false s'
  end.

(** [parts.join(sep)] *)
Fixpoint join (sep : jsstring) (parts : list jsstring) : jsstring :=
  match parts with
  | [] => []
  | [p] => p
  | p :: ps => p ++ sep ++ join sep ps
  end.

Fixpoint uintUnits (d : Decimal.uint) : jsstring :=
  match d with
  | Decimal.Nil => []
  | Decimal.D0 d => 48 :: uintUnits d
  | Decimal.D1 d => 49 :: uintUnits d
  | Decimal.D2 d => 50 :: uintUnits d
  | Decimal.D3 d => 51 :: uintUnits d
  | Decimal.D4 d => 52 :: uintUnits d
  | Decimal.D5 d => 53 :: uintUnits d
  | Decimal.D6 d => 54 :: uintUnits d
  | Decimal.D7 d => 55 :: uintUnits d
  | Decimal.D8 d => 56 :: uintUnits d
  | Decimal.D9 d => 57 :: uintUnits d
  end%N.

Definition minus : N := 45.

(** [String(z)] for an integer [z] (one that a number holds exactly and
    prints without an exponent). *)
Definition String_ (z : Z) : jsstring :=
  match z with
  | Z0 => [48%N]
  | Zpos p => uintUnits (Pos.to_uint p)
  | Zneg p => minus :: uintUnits (Pos.to_uint p)
  end.

(** Value of a string of decimal digits read left to right. *)
Fixpoint digitsValue (acc : Z) (s : jsstring) : option Z :=
  match s with
  | [] => Some acc
  | c :: s' =>
      if ((48 <=? c) && (c <=? 57))%N
      then digitsValue (10 * acc + Z.of_N (c - 48)) s'
      else None
  end.

(** [Number(s)] on the strings that reach it here, the pieces of a student
    key cut at [-]: the empty string is [0], a string of digits is its
    value; [None] stands for [NaN]. *)
Definition Number_ (s : jsstring) : option Z := digitsValue 0 s.

(** [s.split(sep)] for a single code unit [sep]. *)
Fixpoint split (sep : N) (cur : jsstring) (s : jsstring) : list jsstring :=
  match s with
  | [] => [cur]
  | c :: s' =>
      if N.eqb c sep then cur :: split sep [] s'
      else split sep (cur ++ [c]) s'
  end.

(** [arr.sort(cmp)]: the sort is stable, and so is this insertion of each
    element, in turn, behind the elements it does not precede. *)
Fixpoint insertBy {A} (cmp : A -> A -> Z) (x : A) (l : list A) : list A :=
  match l with
  | [] => [x]
  | y :: l' => if (cmp x y <? 0)%Z then x :: l else y :: insertBy cmp x l'
  end.

Definition sort {A} (cmp : A -> A -> Z) (l : list A) : list A :=
  fold_left (fun acc x => insertBy cmp x acc) l [].

End Js.

(** ** Insertion-ordered [Map] and [Set] *)

Module JsMap.

Section Defs.
Variable V : Type.

Definition t := list (jsstring * V).

Fixpoint get (k : jsstring) (m : t) : option V :=
  match m with
  | [] => None
  | (k', v) :: m' => if Js.str_eqb k k' then Some v else get k m'
  end.

(** A key keeps the place of its first insertion. *)
Fixpoint set (k : jsstring) (v : V) (m : t) : t :=
  match m with
  | [] => [(k, v)]
  | (k', v') :: m' =>
      if Js.str_eqb k k' then (k', v) :: m' else (k', v') :: set k v m'
  end.

Definition keys (m : t) : list jsstring := map fst m.
End Defs.

End JsMap.

Module JsSet.

Section Defs.
Variable A : Type.
Variable eqb : A -> A -> bool.

Definition has (x : A) (s : list A) : bool := existsb (eqb x) s.

Definition add (x : A) (s : list A) : list A :=
  if has x s then s else s ++ [x].
End Defs.

End JsSet.

(** ** The host

    [NFKC s] is [s.normalize('NFKC')]; [localeCompare_ko a b] is
    [a.localeCompare(b, 'ko')]. *)

Class Host := {
  NFKC : jsstring -> jsstring;
  localeCompare_ko : jsstring -> jsstring -> Z
}.

(** ** String literals of the source *)

Module Lit.

(** "기타" *)
Definition other : jsstring := [0xAE30; 0xD0C0]%N.
(** "・" (U+30FB) and "/" *)
Definition dot : N := 0x30FB.
Definition slash : N := 47.
(** The class of middle dots that are unified: U+00B7, U+22C5, U+2022,
    U+2219, U+30FB, U+318D. *)
Definition isDot (c : N) : bool :=
  ((c =? 0xB7) || (c =? 0x22C5) || (c =? 0x2022) || (c =? 0x2219)
   || (c =? 0x30FB) || (c =? 0x318D))%N.
(** "／" (U+FF0F) *)
Definition isWideSlash (c : N) : bool := (c =? 0xFF0F)%N.
(** "기술・가정/제2외국어/한문/교양" *)
Definition target : jsstring :=
  [0xAE30; 0xC220; 0x30FB; 0xAC00; 0xC815; 47; 0xC81C; 50; 0xC678; 0xAD6D;
   0xC5B4; 47; 0xD55C; 0xBB38; 47; 0xAD50; 0xC591]%N.
(** "교양" *)
Definition liberal : jsstring := [0xAD50; 0xC591]%N.
(** "제2외국어" *)
Definition second_language : jsstring := [0xC81C; 50; 0xC678; 0xAD6D; 0xC5B4]%N.
(** "제2외국어/한문" *)
Definition second_language_hanmun : jsstring :=
  [0xC81C; 50; 0xC678; 0xAD6D; 0xC5B4; 47; 0xD55C; 0xBB38]%N.
(** "한문" *)
Definition hanmun : jsstring := [0xD55C; 0xBB38]%N.
(** "기술・가정" *)
Definition tech_home : jsstring := [0xAE30; 0xC220; 0x30FB; 0xAC00; 0xC815]%N.
(** "기술・가정/정보" *)
Definition tech_home_info : jsstring :=
  [0xAE30; 0xC220; 0x30FB; 0xAC00; 0xC815; 47; 0xC815; 0xBCF4]%N.
(** "국어", "수학", "영어" *)
Definition korean : jsstring := [0xAD6D; 0xC5B4]%N.
Definition maths : jsstring := [0xC218; 0xD559]%N.
Definition english : jsstring := [0xC601; 0xC5B4]%N.
(** "한국사", "한국사1", "한국사2" *)
Definition korean_history : jsstring := [0xD55C; 0xAD6D; 0xC0AC]%N.
Definition korean_history1 : jsstring := [0xD55C; 0xAD6D; 0xC0AC; 49]%N.
Definition korean_history2 : jsstring := [0xD55C; 0xAD6D; 0xC0AC; 50]%N.
(** "I", "V", "X", "s" *)
Definition I : N := 73.
Definition V : N := 86.
Definition X : N := 88.
Definition s : N := 115.
(** ": 누락 " *)
Definition seq_missing : jsstring := [58; 32; 0xB204; 0xB77D; 32]%N.
(** ": 선수 누락 → " *)
Definition prereq_missing : jsstring :=
  [58; 32; 0xC120; 0xC218; 32; 0xB204; 0xB77D; 32; 0x2192; 32]%N.
(** "로마자 위계 위반: " *)
Definition seq_heading : jsstring :=
  [0xB85C; 0xB9C8; 0xC790; 32; 0xC704; 0xACC4; 32; 0xC704; 0xBC18; 58; 32]%N.
(** "기초교과 비율 초과" *)
Definition ratio_exceeded : jsstring :=
  [0xAE30; 0xCD08; 0xAD50; 0xACFC; 32; 0xBE44; 0xC728; 32; 0xCD08; 0xACFC]%N.
(** ", ", "; ", " | " *)
Definition comma : jsstring := [44; 32]%N.
Definition semicolon : jsstring := [59; 32]%N.
Definition bar : jsstring := [32; 124; 32]%N.

End Lit.

(** ** Rows ([types.ts]) *)

Record Row := {
  학년 : option Z;
  반 : option Z;
  번호 : option Z;
  이름 : option jsstring;
  과목학년 : option Z;
  과목학기 : option Z;
  교과 : option jsstring;
  과목명 : option jsstring;
  학점 : option float
}.

(** The result of [parseHierLevel]. *)
Record HierLevel := { base : jsstring; level : Z }.

(** ** Normalisation and parsing *)

Section Normalisation.
Context {host : Host}.

(** The value of [normalized] in [canonGroup], for the trimmed label [s]. *)
Definition normalized (s : jsstring) : jsstring :=
  Js.stripWsInParens false
    (Js.replaceWsAround Lit.slash false
       (Js.replaceWsAround Lit.dot false
          (Js.replaceUnits Lit.isWideSlash Lit.slash
             (Js.replaceUnits Lit.isDot Lit.dot (NFKC s))))).

Definition canonGroup (raw : option jsstring) : jsstring :=
  match raw with
  | None => Lit.other
  | Some raw =>
      let s := Js.trim raw in
      if negb (Js.nonEmpty s) then Lit.other else
      let normalized := normalized s in
      let target := Lit.target in
      let cmp := Js.stripWs normalized in
      if Js.str_eqb cmp target
         || Js.str_eqb cmp Lit.liberal
         || Js.str_eqb cmp Lit.second_language
         || Js.str_eqb cmp Lit.second_language_hanmun
         || Js.str_eqb cmp Lit.hanmun
         || Js.str_eqb cmp Lit.tech_home
         || Js.str_eqb cmp Lit.tech_home_info
      then target
      else normalized
  end.

(** The alternatives of [asciiRoman], in the order of the source, and the
    class [unicodeRoman]. *)
Definition asciiRoman : list jsstring :=
  [ [Lit.V; Lit.I; Lit.I; Lit.I]; [Lit.V; Lit.I; Lit.I]; [Lit.V; Lit.I];
    [Lit.I; Lit.V]; [Lit.I; Lit.X]; [Lit.I; Lit.I; Lit.I]; [Lit.I; Lit.I];
    [Lit.I]; [Lit.X] ].

Definition unicodeRoman (c : N) : bool := ((0x2160 <=? c) && (c <=? 0x2169))%N.

(** The numeral alternation followed by [$]: one code unit of
    [unicodeRoman], or the first alternative of [asciiRoman] that is the
    whole of what is left. *)
Definition numeralToEnd (r : jsstring) : bool :=
  match r with
  | [c] => unicodeRoman c
  | _ => false
  end
  || existsb (Js.str_eqb r) asciiRoman.

(** What follows the first group in [re].  The pattern is written in a
    template literal, where the escape of the letter s is the letter
    itself: the regular expression has [s*] where the source reads as
    white space.  [s*] is greedy and gives back what it took. *)
Fixpoint afterGroup (r : jsstring) : bool :=
  match r with
  | c :: r' => (N.eqb c Lit.s && afterGroup r') || numeralToEnd r
  | [] => numeralToEnd r
  end.

(** [s.match(re)]: the first group is lazy, it grows by one code unit (not a
    line terminator) until the rest of the pattern matches to the end.  The
    value is the first group of the match. *)
Fixpoint matchRe (s : jsstring) : option jsstring :=
  if afterGroup s then Some []
  else match s with
       | [] => None
       | c :: s' =>
           if Js.isLineTerminator c then None
           else option_map (cons c) (matchRe s')
       end.

(** The object [map] of [parseHierLevel] (named [romanMap] here, beside the
    [map] of lists); a key that is absent gives [undefined].  (The keys
    that reach it are runs of the letter s followed by a numeral, none of
    them a property of [Object.prototype].) *)
Definition romanMap : JsMap.t Z :=
  [ ([Lit.I], 1); ([Lit.I; Lit.I], 2); ([Lit.I; Lit.I; Lit.I], 3);
    ([Lit.I; Lit.V], 4); ([Lit.V], 5); ([Lit.V; Lit.I], 6);
    ([Lit.V; Lit.I; Lit.I], 7); ([Lit.V; Lit.I; Lit.I; Lit.I], 8);
    ([Lit.I; Lit.X], 9); ([Lit.X], 10);
    ([0x2160%N], 1); ([0x2161%N], 2); ([0x2162%N], 3); ([0x2163%N], 4);
    ([0x2164%N], 5); ([0x2165%N], 6); ([0x2166%N], 7); ([0x2167%N], 8);
    ([0x2168%N], 9); ([0x2169%N], 10) ]%Z.

Definition parseHierLevel (name : option jsstring) : option HierLevel :=
  match name with
  | None => None
  | Some name =>
      if negb (Js.nonEmpty name) then None else
      let s := NFKC (Js.trim name) in
      match matchRe s with
      | None => None
      | Some m1 =>
          let tail := Js.trim (skipn (length m1) s) in
          let roman := tail in
          let key := roman in
          match JsMap.get key romanMap with
          | None => None
          | Some level =>
              if (level =? 0)%Z then None else
              let base := Js.trim m1 in
              if negb (Js.nonEmpty base) then None
              else Some {| base := base; level := level |}
          end
      end
  end.

Definition normCourseName (name : option jsstring) : option jsstring :=
  match name with
  | None => None
  | Some name =>
      if negb (Js.nonEmpty name) then None
      else Some (Js.stripWsInParens false (NFKC (Js.trim name)))
  end.

Definition isKoreanHistory (name : option jsstring) : bool :=
  match name with
  | None => false
  | Some name =>
      if negb (Js.nonEmpty name) then false else
      let s := NFKC (Js.trim name) in
      Js.str_eqb s Lit.korean_history
      || Js.str_eqb s Lit.korean_history1
      || Js.str_eqb s Lit.korean_history2
  end.

(** [x => Boolean(x)] on the results of [normCourseName]. *)
Definition truthyName (x : option jsstring) : option jsstring :=
  match x with
  | Some s => if Js.nonEmpty s then Some s else None
  | None => None
  end.

(** [PREREQS], from the entries of [prereqs.json] in the order of
    [Object.entries]. *)
Definition loadPrereqs (rawPrereqs : list (jsstring * list jsstring))
  : JsMap.t (list jsstring) :=
  fold_left
    (fun m entry =>
       let '(k, arr) := entry in
       match truthyName (normCourseName (Some k)) with
       | None => m
       | Some nk =>
           let reqs :=
             flat_map
               (fun x => match truthyName (normCourseName (Some x)) with
                         | Some y => [y]
                         | None => []
                         end) arr in
           JsMap.set nk reqs m
       end)
    rawPrereqs [].

End Normalisation.

(** The earlier variant of the component: its [canonGroup]. *)
Module Earlier.
Section Normalisation.
Context {host : Host}.

Definition canonGroup (raw : option jsstring) : jsstring :=
  match raw with
  | None => Lit.other
  | Some raw =>
      let s := Js.trim raw in
      if negb (Js.nonEmpty s) then Lit.other else
      let normalized := normalized s in
      let target := Lit.target in
      let cmp := Js.stripWs normalized in
      if Js.str_eqb cmp target
         || Js.str_eqb cmp Lit.liberal
         || Js.str_eqb cmp Lit.second_language
         || Js.str_eqb cmp Lit.hanmun
         || Js.str_eqb cmp Lit.tech_home
         || Js.str_eqb cmp Lit.tech_home_info
      then target
      else normalized
  end.

End Normalisation.
End Earlier.

(** ** Numbers *)

Module Num.

(** Truthiness of a number: everything but [0], [-0] and [NaN]. *)
Definition truthy (x : float) : bool :=
  negb (PrimFloat.eqb x 0%float) && negb (PrimFloat.is_nan x).

(** [x || 0] *)
Definition orZero (x : float) : float := if truthy x then x else 0%float.

(** [x || 0] for a field that may be [null]. *)
Definition optOrZero (x : option float) : float :=
  match x with
  | Some v => orZero v
  | None => 0%float
  end.

(** [Math.round]: the integer nearest to [x], the greater one of two that
    are equally near; a finite [x] is [n * 2 ^ e], and is an integer as soon
    as [0 <= e]. *)
Definition Math_round (x : float) : float :=
  match Prim2SF x with
  | S754_finite sign m e =>
      if (0 <=? e)%Z then x else
      let n := if sign then Z.neg m else Z.pos m in
      let z := ((2 * n + 2 ^ (- e)) / 2 ^ (1 - e))%Z in
      if (z =? 0)%Z then (if sign then neg_zero else zero)
      else if (0 <? z)%Z then PrimFloat.of_uint63 (Uint63.of_Z z)
      else PrimFloat.opp (PrimFloat.of_uint63 (Uint63.of_Z (- z)))
  | _ => x
  end.

(** A number that may be [NaN] ([None]), for the keys read back by the
    comparator of [exportAll]. *)
Definition sub (a b : option Z) : option Z :=
  match a, b with
  | Some x, Some y => Some (x - y)%Z
  | _, _ => None
  end.

(** [a || b] *)
Definition or (a b : option Z) : option Z :=
  match a with
  | Some x => if (x =? 0)%Z then b else a
  | None => b
  end.

(** What [sort] makes of a comparator's result: [NaN] counts as [0]. *)
Definition sign (v : option Z) : Z :=
  match v with
  | Some x => x
  | None => 0
  end.

End Num.

(** ** The checks of one student *)

(** An element of [list], the argument of [buildChecks] (named [items]
    here, beside the type of lists). *)
Module Item.
Record t := {
  교과 : jsstring;
  과목명 : jsstring;
  학점 : float;
  과목학년 : option Z;
  과목학기 : option Z
}.
End Item.

(** A violation reported by [seq]. *)
Record Violation := { v_base : jsstring; have : list Z; missing : list Z }.

Section Checks.
Context {host : Host}.

(** [byBase] after the first loop: for each base, in the order of first
    appearance, the set of the levels seen. *)
Definition byBaseOf (items : list Item.t) : JsMap.t (list Z) :=
  fold_left
    (fun byBase r =>
       match parseHierLevel (Some (Item.과목명 r)) with
       | None => byBase
       | Some ph =>
           let set :=
             match JsMap.get (base ph) byBase with
             | Some set => set
             | None => []
             end in
           JsMap.set (base ph) (JsSet.add Z.eqb (level ph) set) byBase
       end)
    items [].

(** [Math.max(...levels)]; without a level it is [-Infinity], which bounds
    the loop below as [0] does. *)
Definition Math_max (levels : list Z) : Z :=
  match levels with
  | [] => 0
  | x :: levels' => fold_left Z.max levels' x
  end.

(** The loop [for (let i=1;i<max;i++) if (!set.has(i)) missing.push(i)]. *)
Definition missingBelow (max : Z) (set : list Z) : list Z :=
  filter (fun i => negb (JsSet.has Z.eqb i set))
    (List.map Z.of_nat (seq 1 (Z.to_nat (max - 1)))).

(** [seq], the sequence check of the student panel. *)
Definition seqViolations (items : list Item.t) : list Violation :=
  flat_map
    (fun entry : jsstring * list Z =>
       let '(base, set) := entry in
       let levels := set in
       let max := Math_max levels in
       let missing := missingBelow max set in
       if (0 <? length missing)%nat
       then [{| v_base := base; have := Js.sort Z.sub levels; missing := missing |}]
       else [])
    (byBaseOf items).

(** [seqParts] of [buildChecks]. *)
Definition seqParts (items : list Item.t) : list jsstring :=
  flat_map
    (fun entry : jsstring * list Z =>
       let '(base, set) := entry in
       let levels := set in
       let max := Math_max levels in
       let missing := missingBelow max set in
       if (0 <? length missing)%nat
       then [base ++ Lit.seq_missing ++ Js.join Lit.comma (List.map Js.String_ missing)]
       else [])
    (byBaseOf items).

(** [have], the set of the normalised course names of the student. *)
Definition haveOf (items : list Item.t) : list jsstring :=
  fold_left
    (fun have r =>
       match truthyName (normCourseName (Some (Item.과목명 r))) with
       | Some nm => JsSet.add Js.str_eqb nm have
       | None => have
       end)
    items [].

(** The findings of the second loop, before they are written out:
    a course and the requirements that are missed. *)
Definition explicitFindings (PREREQS : JsMap.t (list jsstring)) (items : list Item.t)
  : list (jsstring * list jsstring) :=
  let have := haveOf items in
  flat_map
    (fun entry : jsstring * list jsstring =>
       let '(course, reqs) := entry in
       if negb (JsSet.has Js.str_eqb course have) then [] else
       let miss := filter (fun r => negb (JsSet.has Js.str_eqb r have)) reqs in
       if (0 <? length miss)%nat then [(course, miss)] else [])
    PREREQS.

(** [explicitParts] of [buildChecks]. *)
Definition explicitParts (PREREQS : JsMap.t (list jsstring)) (items : list Item.t)
  : list jsstring :=
  List.map
    (fun f : jsstring * list jsstring =>
       fst f ++ Lit.prereq_missing ++ Js.join Lit.comma (snd f))
    (explicitFindings PREREQS items).

Definition buildChecks (PREREQS : JsMap.t (list jsstring)) (items : list Item.t)
  : jsstring :=
  let seqParts := seqParts items in
  let explicitParts := explicitParts PREREQS items in
  let parts :=
    (if (0 <? length seqParts)%nat
     then [Lit.seq_heading ++ Js.join Lit.semicolon seqParts] else [])
    ++ (if (0 <? length explicitParts)%nat
        then [Js.join Lit.semicolon explicitParts] else []) in
  Js.join Lit.bar parts.

End Checks.

(** ** The export *)

(** An entry of [byStu]. *)
Module Student.
Record t := {
  학년 : Z;
  반 : Z;
  번호 : Z;
  이름 : option jsstring;
  list : list Row
}.
End Student.

(** A row of the sheet, under the header
    학년, 반, 번호, 이름, the groups, 전체이수학점, 기초교과학점, 한국사학점,
    기초교과+한국사비율(%), 점검. *)
Module Summary.
Record t := {
  학년 : Z;
  반 : Z;
  번호 : Z;
  이름 : jsstring;
  groups : list float;
  전체이수학점 : float;
  기초교과학점 : float;
  한국사학점 : float;
  비율 : float;
  점검 : jsstring
}.
End Summary.

Section ExportAll.
Context {host : Host}.
Variable PREREQS : JsMap.t (list jsstring).

(** The key of a student, grade, class and number joined by [-]. *)
Definition keyOf (g c n : Z) : jsstring :=
  Js.String_ g ++ [Js.minus] ++ Js.String_ c ++ [Js.minus] ++ Js.String_ n.

(** [byStu] after the loop over the rows. *)
Definition byStuOf (rows : list Row) : JsMap.t Student.t :=
  fold_left
    (fun byStu r =>
       match 학년 r, 반 r, 번호 r with
       | Some g, Some c, Some n =>
           let key := keyOf g c n in
           let ent :=
             match JsMap.get key byStu with
             | Some ent => ent
             | None =>
                 {| Student.학년 := g; Student.반 := c; Student.번호 := n;
                    Student.이름 := 이름 r; Student.list := [] |}
             end in
           JsMap.set key
             {| Student.학년 := Student.학년 ent; Student.반 := Student.반 ent;
                Student.번호 := Student.번호 ent; Student.이름 := Student.이름 ent;
                Student.list := Student.list ent ++ [r] |}
             byStu
       | _, _, _ => byStu
       end)
    rows [].

(** [const [ag,ac,an] = a.split('-').map(Number)]; a place that the split
    does not fill is [undefined], which counts as [NaN]. *)
Definition keyNumbers (a : jsstring) : option Z * option Z * option Z :=
  match List.map Js.Number_ (Js.split Js.minus [] a) with
  | ag :: ac :: an :: _ => (ag, ac, an)
  | [ag; ac] => (ag, ac, None)
  | [ag] => (ag, None, None)
  | [] => (None, None, None)
  end.

(** The comparator of the keys. *)
Definition compareKeys (a b : jsstring) : Z :=
  let '(ag, ac, an) := keyNumbers a in
  let '(bg, bc, bn) := keyNumbers b in
  Num.sign (Num.or (Num.or (Num.sub ag bg) (Num.sub ac bc)) (Num.sub an bn)).

(** The columns of the subject groups. *)
Definition groupsOf (rows : list Row) : list jsstring :=
  Js.sort localeCompare_ko
    (fold_left (fun groupSet r => JsSet.add Js.str_eqb (canonGroup (교과 r)) groupSet)
       rows []).

Definition itemOf (r : Row) : Item.t :=
  {| Item.교과 := canonGroup (교과 r);
     Item.과목명 := match 과목명 r with
                    | Some s => if Js.nonEmpty s then s else []
                    | None => []
                    end;
     Item.학점 := Num.optOrZero (학점 r);
     Item.과목학년 := 과목학년 r;
     Item.과목학기 := 과목학기 r |}.

Definition foundation : list jsstring := [Lit.korean; Lit.maths; Lit.english].

Definition grpOf (items : list Item.t) : JsMap.t float :=
  fold_left
    (fun grp r =>
       let prev := match JsMap.get (Item.교과 r) grp with
                   | Some v => Num.orZero v
                   | None => 0%float
                   end in
       JsMap.set (Item.교과 r) (prev + Num.orZero (Item.학점 r))%float grp)
    items [].

Definition totalOf (items : list Item.t) : float :=
  fold_left (fun sum r => (sum + Num.orZero (Item.학점 r))%float) items 0%float.

Definition baseOnlyOf (items : list Item.t) : float :=
  fold_left
    (fun sum r =>
       (sum + (if JsSet.has Js.str_eqb (Item.교과 r) foundation
               then Num.orZero (Item.학점 r) else 0))%float)
    items 0%float.

Definition khOnlyOf (items : list Item.t) : float :=
  fold_left
    (fun sum r =>
       (sum + (if isKoreanHistory (Some (Item.과목명 r))
               then Num.orZero (Item.학점 r) else 0))%float)
    items 0%float.

Definition pctOf (total baseOnly khOnly : float) : float :=
  if (0 <? total)%float
  then (Num.Math_round (((baseOnly + khOnly) / total) * 1000) / 10)%float
  else 0%float.

(** [checkParts] for a student. *)
Definition checkPartsOf (items : list Item.t) (pct : float) : list jsstring :=
  let hierarchyCheck := buildChecks PREREQS items in
  (if Js.nonEmpty hierarchyCheck then [hierarchyCheck] else [])
  ++ (if (50 <? pct)%float then [Lit.ratio_exceeded] else []).

(** The row of the sheet for one entry of [byStu]. *)
Definition summaryOf (groups : list jsstring) (s : Student.t) : Summary.t :=
  let items := List.map itemOf (Student.list s) in
  let grp := grpOf items in
  let total := totalOf items in
  let baseOnly := baseOnlyOf items in
  let khOnly := khOnlyOf items in
  let pct := pctOf total baseOnly khOnly in
  let check := Js.join Lit.bar (checkPartsOf items pct) in
  {| Summary.학년 := Student.학년 s;
     Summary.반 := Student.반 s;
     Summary.번호 := Student.번호 s;
     Summary.이름 := match Student.이름 s with Some nm => nm | None => [] end;
     Summary.groups :=
       List.map (fun g => match JsMap.get g grp with
                          | Some v => Num.orZero v
                          | None => 0%float
                          end) groups;
     Summary.전체이수학점 := total;
     Summary.기초교과학점 := baseOnly;
     Summary.한국사학점 := khOnly;
     Summary.비율 := pct;
     Summary.점검 := check |}.

(** [exportAll]: the group columns and the rows of the sheet below the
    header; nothing is written when there is no row. *)
Definition exportAll (rows : list Row) : option (list jsstring * list Summary.t) :=
  match rows with
  | [] => None
  | _ :: _ =>
      let groups := groupsOf rows in
      let byStu := byStuOf rows in
      let keys := Js.sort compareKeys (JsMap.keys byStu) in
      Some (groups,
            flat_map
              (fun key => match JsMap.get key byStu with
                          | Some s => [summaryOf groups s]
                          | None => []
                          end)
              keys)
  end.

End ExportAll.

(** ** A host for evaluation

    [SampleHost.nfkc] carries the compatibility mappings of the characters
    listed and leaves every other code unit in place.  It is the NFKC form
    of a string made of ASCII characters, precomposed Hangul syllables,
    the middle dots U+00B7 and U+30FB, an isolated U+0301, and the
    characters listed.  [SampleHost.compare] orders strings by code units,
    which is the order of the Korean alphabet on Hangul syllables. *)

Module SampleHost.

Definition romanNumeral (i : N) : jsstring :=
  nth (N.to_nat i)
    [ [Lit.I]; [Lit.I; Lit.I]; [Lit.I; Lit.I; Lit.I]; [Lit.I; Lit.V]; [Lit.V];
      [Lit.V; Lit.I]; [Lit.V; Lit.I; Lit.I]; [Lit.V; Lit.I; Lit.I; Lit.I];
      [Lit.I; Lit.X]; [Lit.X] ] [].

Definition nfkcUnit (c : N) : jsstring :=
  (if (0x2160 <=? c) && (c <=? 0x2169) then romanNumeral (c - 0x2160)
   else if (0xFF01 <=? c) && (c <=? 0xFF5E) then [c - 0xFEE0]
   else if (c =? 0x3000) || (c =? 0xA0) then [32]
   else if c =? 0xB4 then [32; 0x301]
   else if c =? 0xFF65 then [0x30FB]
   else if c =? 0x318D then [0x119E]
   else [c])%N.

Definition nfkc (s : jsstring) : jsstring := flat_map nfkcUnit s.

Fixpoint compare (a b : jsstring) : Z :=
  match a, b with
  | [], [] => 0
  | [], _ :: _ => -1
  | _ :: _, [] => 1
  | x :: a', y :: b' =>
      if (x <? y)%N then -1 else if (y <? x)%N then 1 else compare a' b'
  end.

Definition host : Host := {| NFKC := nfkc; localeCompare_ko := compare |}.

End SampleHost.

(** * The rest of the component

    What follows embeds the other computations of [App.tsx]: the reading
    of the sheet, the figures above the table, the lists of classes and
    students with their keyboard handling, the panel of one student, and
    the overall summary of the earlier variant. *)

(** ** Cells and their coercions

    A cell of the sheet is a string, a number or a boolean, or is empty
    ([null], here [None]).  [numberOfString s] is [Number(s)] and
    [stringOfNumber x] is [String(x)], both of the host. *)

Inductive Cell :=
| CStr (s : jsstring)
| CNum (x : float)
| CBool (b : bool).

Class Coerce := {
  numberOfString : jsstring -> float;
  stringOfNumber : float -> jsstring
}.

Module JsMore.

(** [arr.indexOf(k)] on an array of strings; [None] stands for [-1]. *)
Fixpoint indexOf (k : jsstring) (arr : list jsstring) : option nat :=
  match arr with
  | [] => None
  | x :: arr' =>
      if Js.str_eqb x k then Some 0%nat
      else option_map S (indexOf k arr')
  end.

(** [arr.findIndex(p)]; [None] stands for [-1]. *)
Fixpoint findIndex {A} (p : A -> bool) (arr : list A) : option nat :=
  match arr with
  | [] => None
  | x :: arr' => if p x then Some 0%nat else option_map S (findIndex p arr')
  end.

(** [s.startsWith(q)] and [s.includes(q)]. *)
Fixpoint startsWith (q s : jsstring) : bool :=
  match q, s with
  | [], _ => true
  | x :: q', y :: s' => N.eqb x y && startsWith q' s'
  | _ :: _, [] => false
  end.

Fixpoint includes (s q : jsstring) : bool :=
  startsWith q s
  || match s with
     | [] => false
     | _ :: s' => includes s' q
     end.

(** [s.padStart(n, fill)] for a filler of one code unit. *)
Definition padStart (n : nat) (fill : N) (s : jsstring) : jsstring :=
  repeat fill (n - length s) ++ s.

(** The number of elements of an array, as a number. *)
Definition ofNat (n : nat) : float :=
  PrimFloat.of_uint63 (Uint63.of_Z (Z.of_nat n)).

End JsMore.

Module Label.
(** The labels of the columns: "학년", "반", "번호", "이름", "과목학년",
    "과목학기", "교과", "과목명", "학점". *)
Definition grade : jsstring := [0xD559; 0xB144]%N.
Definition class : jsstring := [0xBC18]%N.
Definition number : jsstring := [0xBC88; 0xD638]%N.
Definition name : jsstring := [0xC774; 0xB984]%N.
Definition courseGrade : jsstring := [0xACFC; 0xBAA9; 0xD559; 0xB144]%N.
Definition courseTerm : jsstring := [0xACFC; 0xBAA9; 0xD559; 0xAE30]%N.
Definition group : jsstring := [0xAD50; 0xACFC]%N.
Definition course : jsstring := [0xACFC; 0xBAA9; 0xBA85]%N.
Definition credit : jsstring := [0xD559; 0xC810]%N.
(** "true", "false", "ArrowDown", "ArrowUp" *)
Definition true_ : jsstring := [116; 114; 117; 101]%N.
Definition false_ : jsstring := [102; 97; 108; 115; 101]%N.
Definition arrowDown : jsstring := [65; 114; 114; 111; 119; 68; 111; 119; 110]%N.
Definition arrowUp : jsstring := [65; 114; 114; 111; 119; 85; 112]%N.
(** "0", " ", ":" *)
Definition zero : N := 48.
Definition space : jsstring := [32%N].
Definition colon : jsstring := [58%N].
End Label.

(** A row as [readRowsFromSheet] fills it: every number is the binary64
    number that [toNum] gives.  (The checks read grade, class and number
    as the integers of [Row].) *)
Module SheetRow.
Record t := {
  학년 : option float;
  반 : option float;
  번호 : option float;
  이름 : option jsstring;
  과목학년 : option float;
  과목학기 : option float;
  교과 : option jsstring;
  과목명 : option jsstring;
  학점 : option float
}.
End SheetRow.

Section Reading.
Context {coerce : Coerce}.

(** [Number(v)] and [String(v)] of a cell. *)
Definition NumberOf (v : Cell) : float :=
  match v with
  | CStr s => numberOfString s
  | CNum x => x
  | CBool b => if b then 1%float else 0%float
  end.

Definition StringOf (v : Cell) : jsstring :=
  match v with
  | CStr s => s
  | CNum x => stringOfNumber x
  | CBool b => if b then Label.true_ else Label.false_
  end.

Definition toNum (v : option Cell) : option float :=
  match v with
  | None => None
  | Some v =>
      let s := match v with
               | CStr s => CStr (Js.trim s)
               | _ => v
               end in
      match s with
      | CStr [] => None
      | _ =>
          let n := NumberOf s in
          if PrimFloat.is_nan n then None else Some n
      end
  end.

Definition toStr (v : option Cell) : option jsstring :=
  match v with
  | None => None
  | Some v =>
      let s := Js.trim (StringOf v) in
      if negb (Js.nonEmpty s) then None else Some s
  end.

(** [r[i]] for the index that [indexOf] gave: a place that the row does
    not have is [undefined]. *)
Definition cellAt (r : list (option Cell)) (i : option nat) : option Cell :=
  match i with
  | Some i => nth i r None
  | None => None
  end.

(** [header], the first row read as strings. *)
Definition headerOf (aoa : list (list (option Cell))) : list jsstring :=
  match aoa with
  | [] => []
  | h :: _ => map (fun h => match h with
                            | None => []
                            | Some c => StringOf c
                            end) h
  end.

Definition readRowsFromSheet (aoa : list (list (option Cell))) : list SheetRow.t :=
  match aoa with
  | [] => []
  | _ :: rest =>
      let header := headerOf aoa in
      let idx k := JsMore.indexOf k header in
      map (fun r =>
             {| SheetRow.학년 := toNum (cellAt r (idx Label.grade));
                SheetRow.반 := toNum (cellAt r (idx Label.class));
                SheetRow.번호 := toNum (cellAt r (idx Label.number));
                SheetRow.이름 := toStr (cellAt r (idx Label.name));
                SheetRow.과목학년 := toNum (cellAt r (idx Label.courseGrade));
                SheetRow.과목학기 := toNum (cellAt r (idx Label.courseTerm));
                SheetRow.교과 := toStr (cellAt r (idx Label.group));
                SheetRow.과목명 := toStr (cellAt r (idx Label.course));
                SheetRow.학점 := toNum (cellAt r (idx Label.credit)) |})
        rest
  end.

End Reading.

(** ** The figures above the table ([Kpis]) *)

Module Kpi.
Record t := {
  total : nat;
  students : nat;
  count : nat;
  avg : float
}.
End Kpi.

(** The set of the keys of the students, as [Kpis] builds it. *)
Definition studentKeys (rows : list Row) : list jsstring :=
  fold_left
    (fun set r =>
       match 학년 r, 반 r, 번호 r with
       | Some g, Some c, Some n => JsSet.add Js.str_eqb (keyOf g c n) set
       | _, _, _ => set
       end)
    rows [].

(** The map of [creditsByStudent]. *)
Definition creditsMap (rows : list Row) : JsMap.t float :=
  fold_left
    (fun m r =>
       match 학년 r, 반 r, 번호 r with
       | Some g, Some c, Some n =>
           let k := keyOf g c n in
           let prev := match JsMap.get k m with
                       | Some v => Num.orZero v
                       | None => 0%float
                       end in
           JsMap.set k (prev + Num.optOrZero (학점 r))%float m
       | _, _, _ => m
       end)
    rows [].

Definition Kpis (rows : list Row) : Kpi.t :=
  let total := length rows in
  let students := length (studentKeys rows) in
  let m := creditsMap rows in
  let vals := map snd m in
  let avg :=
    match vals with
    | [] => 0%float
    | _ :: _ =>
        (fold_left (fun a b => a + b) vals 0 / JsMore.ofNat (length vals))%float
    end in
  {| Kpi.total := total;
     Kpi.students := students;
     Kpi.count := length m;
     Kpi.avg := (Num.Math_round (avg * 100) / 100)%float |}.

(** ** The students of the screen ([byStudent]) *)

Module Entry.
Record t := {
  key : jsstring;
  학년 : Z;
  반 : Z;
  번호 : Z;
  이름 : option jsstring;
  rows : list Row
}.
End Entry.

(** An element of [byStudent.list]: the entry with its two sums. *)
Module Listed.
Record t := {
  entry : Entry.t;
  총학점 : float;
  교과별합 : jsstring
}.
End Listed.

Section ByStudent.
Context {host : Host} {coerce : Coerce}.

(** The map [m] of [byStudent]. *)
Definition byStudentMap (rows : list Row) : JsMap.t Entry.t :=
  fold_left
    (fun m r =>
       match 학년 r, 반 r, 번호 r with
       | Some g, Some c, Some n =>
           let key := keyOf g c n in
           match JsMap.get key m with
           | None =>
               JsMap.set key
                 {| Entry.key := key; Entry.학년 := g; Entry.반 := c;
                    Entry.번호 := n; Entry.이름 := 이름 r; Entry.rows := [r] |}
                 m
           | Some prev =>
               JsMap.set key
                 {| Entry.key := Entry.key prev; Entry.학년 := Entry.학년 prev;
                    Entry.반 := Entry.반 prev; Entry.번호 := Entry.번호 prev;
                    Entry.이름 := Entry.이름 prev;
                    Entry.rows := Entry.rows prev ++ [r] |}
                 m
           end
       | _, _, _ => m
       end)
    rows [].

(** The sums of one entry. *)
Definition listedOf (s : Entry.t) : Listed.t :=
  let total :=
    fold_left (fun sum r => (sum + Num.optOrZero (학점 r))%float)
      (Entry.rows s) 0%float in
  let grp :=
    fold_left
      (fun grp r =>
         let g := canonGroup (교과 r) in
         let prev := match JsMap.get g grp with
                     | Some v => Num.orZero v
                     | None => 0%float
                     end in
         JsMap.set g (prev + Num.optOrZero (학점 r))%float grp)
      (Entry.rows s) [] in
  let subjStr :=
    Js.join Lit.comma
      (map (fun kv : jsstring * float =>
              fst kv ++ Label.colon ++ stringOfNumber (snd kv)) grp) in
  {| Listed.entry := s; Listed.총학점 := total; Listed.교과별합 := subjStr |}.

(** The comparator of [byStudent.list]: the numbers themselves. *)
Definition compareListed (a b : Listed.t) : Z :=
  let a := Listed.entry a in
  let b := Listed.entry b in
  Num.sign
    (Num.or
       (Num.or (Some (Entry.학년 a - Entry.학년 b)%Z)
          (Some (Entry.반 a - Entry.반 b)%Z))
       (Some (Entry.번호 a - Entry.번호 b)%Z)).

(** [byStudent.list] *)
Definition byStudentList (rows : list Row) : list Listed.t :=
  Js.sort compareListed (map (fun kv => listedOf (snd kv)) (byStudentMap rows)).

(** An element of the list of [detail]. *)
Definition detailItem (r : Row) : Item.t :=
  {| Item.교과 := canonGroup (교과 r);
     Item.과목명 := match 과목명 r with
                    | Some s => if Js.nonEmpty s then s else []
                    | None => []
                    end;
     Item.학점 := Num.optOrZero (학점 r);
     Item.과목학년 := match 과목학년 r with
                      | Some y => if (y =? 0)%Z then None else Some y
                      | None => None
                      end;
     Item.과목학기 := match 과목학기 r with
                      | Some t => if (t =? 0)%Z then None else Some t
                      | None => None
                      end |}.

(** [byStudent.detail(key)]: the list and [byGroup]. *)
Definition detail (rows : list Row) (key : jsstring)
  : list Item.t * list (jsstring * float) :=
  match JsMap.get key (byStudentMap rows) with
  | None => ([], [])
  | Some s =>
      let list_ := map detailItem (Entry.rows s) in
      (list_, grpOf list_)
  end.

End ByStudent.

(** ** Classes, students of a class, and the keyboard *)

(** An element of [studentsInClass]. *)
Module Choice.
Record t := { key : jsstring; label : jsstring }.
End Choice.

Section Selection.
Context {host : Host}.

(** [const [ag,ac] = a.split('-').map(Number)] *)
Definition classNumbers (a : jsstring) : option Z * option Z :=
  match map Js.Number_ (Js.split Js.minus [] a) with
  | ag :: ac :: _ => (ag, ac)
  | [ag] => (ag, None)
  | [] => (None, None)
  end.

Definition compareClasses (a b : jsstring) : Z :=
  let '(ag, ac) := classNumbers a in
  let '(bg, bc) := classNumbers b in
  Num.sign (Num.or (Num.sub ag bg) (Num.sub ac bc)).

Definition classKey (g c : Z) : jsstring :=
  Js.String_ g ++ [Js.minus] ++ Js.String_ c.

Definition classes (rows : list Row) : list jsstring :=
  Js.sort compareClasses
    (fold_left
       (fun set r =>
          match 학년 r, 반 r with
          | Some g, Some c => JsSet.add Js.str_eqb (classKey g c) set
          | _, _ => set
          end)
       rows []).

(** [a === b] for a field of a row and a number read from the class. *)
Definition strictEq (a b : option Z) : bool :=
  match a, b with
  | Some x, Some y => (x =? y)%Z
  | _, _ => false
  end.

(** The label of a student: the number on two places, a space, the name. *)
Definition labelOf (n : Z) (name : option jsstring) : jsstring :=
  JsMore.padStart 2 Label.zero (Js.String_ n) ++ Label.space
  ++ match name with Some nm => nm | None => [] end.

(** The map [m] of [studentsInClass] for the numbers [g] and [c] of the
    class. *)
Definition classMap (rows : list Row) (g c : Z) : JsMap.t jsstring :=
  fold_left
    (fun m r =>
       if strictEq (학년 r) (Some g) && strictEq (반 r) (Some c) then
         match 번호 r with
         | Some n => JsMap.set (keyOf g c n) (labelOf n (이름 r)) m
         | None => m
         end
       else m)
    rows [].

Definition compareChoices (a b : Choice.t) : Z :=
  localeCompare_ko (Choice.label a) (Choice.label b).

Definition studentsInClass (rows : list Row) (klass : option jsstring)
  : list Choice.t :=
  match klass with
  | None => []
  | Some klass =>
      if negb (Js.nonEmpty klass) then [] else
      match classNumbers klass with
      | (Some g, Some c) =>
          Js.sort compareChoices
            (map (fun kv => {| Choice.key := fst kv; Choice.label := snd kv |})
               (classMap rows g c))
      | _ => []
      end
  end.

Definition filteredStudents (studentsInClass : list Choice.t) (query : jsstring)
  : list Choice.t :=
  filter (fun s => JsMore.includes (Choice.label s) query) studentsInClass.

(** [s.key === selected] *)
Definition isSelected (selected : option jsstring) (s : Choice.t) : bool :=
  match selected with
  | Some k => Js.str_eqb (Choice.key s) k
  | None => false
  end.

Definition selectedIndex (filteredStudents : list Choice.t)
  (selected : option jsstring) : Z :=
  match JsMore.findIndex (isSelected selected) filteredStudents with
  | Some i => Z.of_nat i
  | None => -1
  end.

(** [filteredStudents[idx]] *)
Definition choiceAt (filteredStudents : list Choice.t) (idx : Z) : option Choice.t :=
  if (idx <? 0)%Z then None else nth_error filteredStudents (Z.to_nat idx).

(** [handleListKey]: the key that it selects, if it selects one. *)
Definition handleListKey (filteredStudents : list Choice.t)
  (selected : option jsstring) (key : jsstring) : option jsstring :=
  match filteredStudents with
  | [] => None
  | _ :: _ =>
      if Js.str_eqb key Label.arrowDown || Js.str_eqb key Label.arrowUp then
        let idx := selectedIndex filteredStudents selected in
        let idx :=
          if Js.str_eqb key Label.arrowDown
          then (if (idx <? 0)%Z then 0
                else Z.min (idx + 1) (Z.of_nat (length filteredStudents) - 1))%Z
          else (if (idx <? 0)%Z then 0 else Z.max (idx - 1) 0)%Z in
        match choiceAt filteredStudents idx with
        | Some next => Some (Choice.key next)
        | None => None
        end
      else None
  end.

(** The order of the courses in the card of a group: year, then term, a
    missing one counting as 9999, then the name. *)
Definition compareCourses (a b : Item.t) : Z :=
  let ay := match Item.과목학년 a with Some y => y | None => 9999%Z end in
  let by_ := match Item.과목학년 b with Some y => y | None => 9999%Z end in
  if negb (ay =? by_)%Z then (ay - by_)%Z else
  let at_ := match Item.과목학기 a with Some t => t | None => 9999%Z end in
  let bt := match Item.과목학기 b with Some t => t | None => 9999%Z end in
  if negb (at_ =? bt)%Z then (at_ - bt)%Z else
  localeCompare_ko (Item.과목명 a) (Item.과목명 b).

(** [groupMap] of the panel. *)
Definition groupMapOf (items : list Item.t) : JsMap.t (list Item.t) :=
  fold_left
    (fun groupMap r =>
       let g := Item.교과 r in
       let arr := match JsMap.get g groupMap with
                  | Some arr => arr
                  | None => []
                  end in
       JsMap.set g (arr ++ [r]) groupMap)
    items [].

(** The cards of the panel: the groups in the order of their names, each
    with its courses in order. *)
Definition groupCards (items : list Item.t) : list (jsstring * list Item.t) :=
  map (fun e : jsstring * list Item.t => (fst e, Js.sort compareCourses (snd e)))
    (Js.sort (fun a b => localeCompare_ko (fst a) (fst b)) (groupMapOf items)).

(** The figures of the panel of a student: the total, the credits of the
    foundation groups, those of Korean history, and the ratio. *)
Definition panelFigures (items : list Item.t) : float * float * float * float :=
  let total :=
    fold_left (fun s r => (s + Num.orZero (Item.학점 r))%float) items 0%float in
  let foundation := [Lit.korean; Lit.maths; Lit.english] in
  let baseOnly :=
    fold_left
      (fun s r =>
         (s + (if JsSet.has Js.str_eqb (Item.교과 r) foundation
               then Num.orZero (Item.학점 r) else 0))%float)
      items 0%float in
  let khOnly :=
    fold_left
      (fun s r =>
         (s + (if isKoreanHistory (Some (Item.과목명 r))
               then Num.orZero (Item.학점 r) else 0))%float)
      items 0%float in
  let combined := (baseOnly + khOnly)%float in
  let pct :=
    if (0 <? total)%float
    then (Num.Math_round ((combined / total) * 1000) / 10)%float
    else 0%float in
  (total, baseOnly, khOnly, pct).

End Selection.

(** ** The overall summary of the earlier variant ([overall]) *)

Module Overall.
Record subject := { credits : float; count : nat }.

Section BySubject.
Context {host : Host}.

Definition bySubject (all : list Row) : JsMap.t subject :=
  fold_left
    (fun bySubject r =>
       let g := Earlier.canonGroup (교과 r) in
       let ent := match JsMap.get g bySubject with
                  | Some ent => ent
                  | None => {| credits := 0%float; count := 0 |}
                  end in
       JsMap.set g
         {| credits := (credits ent + Num.optOrZero (학점 r))%float;
            count := count ent + 1 |}
         bySubject)
    all [].

Definition totalCredits (all : list Row) : float :=
  fold_left (fun s r => (s + Num.optOrZero (학점 r))%float) all 0%float.

End BySubject.

Record row := { 교과 : jsstring; 총학점 : float; 건수 : nat }.

Section Defs.
Context {host : Host}.

Definition overall (all : list Row) : float * list row :=
  (totalCredits all,
   map (fun e : jsstring * subject =>
          {| 교과 := fst e; 총학점 := credits (snd e); 건수 := count (snd e) |})
     (bySubject all)).

End Defs.
End Overall.

(** ** Coercions for evaluation

    [SampleCoerce] stands in for the host where a statement is evaluated
    on a concrete sheet.  It agrees with [Number] on the non-empty strings
    of decimal digits (below 2^53) and with [String] on the numbers that
    are integers, and it is used on those only; the theorems hold for
    every [Coerce]. *)

Module SampleCoerce.

Definition numberOfString (s : jsstring) : float :=
  match s with
  | [] => PrimFloat.nan
  | _ :: _ =>
      match Js.digitsValue 0 s with
      | Some z => PrimFloat.of_uint63 (Uint63.of_Z z)
      | None => PrimFloat.nan
      end
  end.

Definition integerOf (x : float) : option Z :=
  match Prim2SF x with
  | S754_zero _ => Some 0%Z
  | S754_finite sign m e =>
      if (0 <=? e)%Z
      then Some ((if sign then Z.neg m else Z.pos m) * 2 ^ e)%Z
      else if (Z.pos m mod 2 ^ (- e) =? 0)%Z
           then Some ((if sign then Z.neg m else Z.pos m) / 2 ^ (- e))%Z
           else None
  | _ => None
  end.

Definition stringOfNumber (x : float) : jsstring :=
  match integerOf x with
  | Some z => Js.String_ z
  | None => [78; 97; 78]%N
  end.

Definition coerce : Coerce :=
  Build_Coerce numberOfString stringOfNumber.

End SampleCoerce.

(** * The vocabulary of the statements *)

(** The labels that [canonGroup] merges: the target itself, "교양",
    "제2외국어", "제2외국어/한문", "한문", "기술・가정", "기술・가정/정보". *)
Definition aliases : list jsstring :=
  [ Lit.target; Lit.liberal; Lit.second_language; Lit.second_language_hanmun;
    Lit.hanmun; Lit.tech_home; Lit.tech_home_info ].

Module Course.
(** "물리학", "화학", "미적분", "수학" *)
Definition physics : jsstring := [0xBB3C; 0xB9AC; 0xD559]%N.
Definition chemistry : jsstring := [0xD654; 0xD559]%N.
Definition calculus : jsstring := [0xBBF8; 0xC801; 0xBD84]%N.
Definition maths : jsstring := [0xC218; 0xD559]%N.
(** The Roman numerals of Unicode, U+2160 to U+2169. *)
Definition roman (n : N) : jsstring := [0x215F + n]%N.
(** "VIII" *)
Definition numeral8 : jsstring := [Lit.V; Lit.I; Lit.I; Lit.I].
End Course.

(** The requirements of [reqs] that the set [have] lacks. *)
Definition absentFrom (have reqs : list jsstring) : list jsstring :=
  filter (fun r => negb (JsSet.has Js.str_eqb r have)) reqs.

(** A course of the name [name], without credit. *)
Definition mkItem (name : jsstring) : Item.t :=
  {| Item.교과 := Lit.other; Item.과목명 := name; Item.학점 := 0%float;
     Item.과목학년 := None; Item.과목학기 := None |}.

(** The student has a course that parses to level [l] of the base [b]. *)
Definition attained {host : Host} (items : list Item.t) (b : jsstring) (l : Z)
  : Prop :=
  exists r, In r items
            /\ parseHierLevel (Some (Item.과목명 r))
               = Some {| base := b; level := l |}.

(** The levels stored for the base [b], none when [b] is no key. *)
Definition levelsOf (m : JsMap.t (list Z)) (b : jsstring) : list Z :=
  match JsMap.get b m with
  | Some set => set
  | None => []
  end.

(** Every set of levels in [m] has an element. *)
Definition setsNonEmpty (m : JsMap.t (list Z)) : Prop :=
  forall b set, JsMap.get b m = Some set -> set <> [].

(** [DropsWs s t]: [t] is [s] without some of its white space. *)
Inductive DropsWs : jsstring -> jsstring -> Prop :=
| DropsWs_nil : DropsWs [] []
| DropsWs_keep c s t : DropsWs s t -> DropsWs (c :: s) (c :: t)
| DropsWs_drop c s t : Js.isWhiteSpace c = true -> DropsWs s t -> DropsWs (c :: s) t.

(** [s] starts with white space. *)
Definition headIsWs (s : jsstring) : bool :=
  match s with
  | c :: _ => Js.isWhiteSpace c
  | [] => false
  end.

(** No white space stands next to [sep] in [s]. *)
Fixpoint clean (sep : N) (s : jsstring) : bool :=
  match s with
  | [] => true
  | c :: s' =>
      (if N.eqb c sep then negb (headIsWs s')
       else if Js.isWhiteSpace c then negb (Js.wsThenSep sep s')
       else true)
      && clean sep s'
  end.

(** The steps of [normalized] that follow NFKC. *)
Definition afterNFKC (x : jsstring) : jsstring :=
  Js.stripWsInParens false
    (Js.replaceWsAround Lit.slash false
       (Js.replaceWsAround Lit.dot false
          (Js.replaceUnits Lit.isWideSlash Lit.slash
             (Js.replaceUnits Lit.isDot Lit.dot x)))).

(** [replaceUnits X y] leaves the code unit [c] as it is. *)
Definition fixedBy (X : N -> bool) (y : N) (c : N) : Prop :=
  (if X c then y else c) = c.

(** "기술 · 가정 ( a b )" and " (a b) x " *)
Definition sampleLabel : jsstring :=
  [0xAE30; 0xC220; 32; 0xB7; 32; 0xAC00; 0xC815; 32; 40; 32; 97; 32; 98; 32; 41]%N.

Definition sampleName : jsstring := [32; 40; 97; 32; 98; 41; 32; 120; 32]%N.

(** "한국사", "한국사1", "한국사2" *)
Definition koreanHistoryNames : list jsstring :=
  [Lit.korean_history; Lit.korean_history1; Lit.korean_history2].

(** A row of the student 1-1-1. *)
Definition rowOf (group subject : jsstring) (credit : float) : Row :=
  {| 학년 := Some 1%Z; 반 := Some 1%Z; 번호 := Some 1%Z; 이름 := None;
     과목학년 := None; 과목학기 := None;
     교과 := Some group; 과목명 := Some subject; 학점 := Some credit |}.

Module Sample.
Definition music : jsstring := [0xC74C; 0xC545]%N.
Definition literature : jsstring := [0xBB38; 0xD559]%N.
(** "한국사" of 3 credits entered under "국어". *)
Definition rowsTwice : list Row := [ rowOf Lit.korean Lit.korean_history 3 ].
End Sample.

(** Grade, class and number of a row of the sheet. *)
Definition ident (row : Summary.t) : Z * Z * Z :=
  (Summary.학년 row, Summary.반 row, Summary.번호 row).

(** Grade, then class, then number, each ascending. *)
Definition lexLt (a b : Z * Z * Z) : Prop :=
  let '(g1, c1, n1) := a in
  let '(g2, c2, n2) := b in
  (g1 < g2 \/ (g1 = g2 /\ (c1 < c2 \/ (c1 = c2 /\ n1 < n2))))%Z.

(** The row is of the student [(g, c, n)]. *)
Definition rowOfStudent (r : Row) (t : Z * Z * Z) : Prop :=
  let '(g, c, n) := t in 학년 r = Some g /\ 반 r = Some c /\ 번호 r = Some n.

(** The three numbers that the comparator reads back from a key, when it
    reads three. *)
Definition numsOf (a : jsstring) : option (Z * Z * Z) :=
  match keyNumbers a with
  | (Some g, Some c, Some n) => Some (g, c, n)
  | _ => None
  end.

(** The order of the keys by the numbers read back from them. *)
Definition keyLt (a b : jsstring) : Prop :=
  match numsOf a, numsOf b with
  | Some ta, Some tb => lexLt ta tb
  | _, _ => False
  end.

(** Grade, class and number are not negative. *)
Definition nonNegative (t : Z * Z * Z) : Prop :=
  let '(g, c, n) := t in (0 <= g /\ 0 <= c /\ 0 <= n)%Z.

(** A key made of three numbers that are not negative. *)
Definition goodKey (k : jsstring) : Prop :=
  exists g c n, nonNegative (g, c, n) /\ k = keyOf g c n.

(** Grade, class and number of an entry of [byStu]. *)
Definition fieldsOf (s : Student.t) : Z * Z * Z :=
  (Student.학년 s, Student.반 s, Student.번호 s).

(** One turn of the loop that fills [byStu]. *)
Definition byStuStep (byStu : JsMap.t Student.t) (r : Row) : JsMap.t Student.t :=
  match 학년 r, 반 r, 번호 r with
  | Some g, Some c, Some n =>
      let key := keyOf g c n in
      let ent :=
        match JsMap.get key byStu with
        | Some ent => ent
        | None =>
            {| Student.학년 := g; Student.반 := c; Student.번호 := n;
               Student.이름 := 이름 r; Student.list := [] |}
        end in
      JsMap.set key
        {| Student.학년 := Student.학년 ent; Student.반 := Student.반 ent;
           Student.번호 := Student.번호 ent; Student.이름 := Student.이름 ent;
           Student.list := Student.list ent ++ [r] |}
        byStu
  | _, _, _ => byStu
  end.

(** A row with nothing but the numbers of its student. *)
Definition studentRow (g c n : Z) : Row :=
  {| 학년 := Some g; 반 := Some c; 번호 := Some n; 이름 := None;
     과목학년 := None; 과목학기 := None;
     교과 := None; 과목명 := None; 학점 := None |}.

(** What holds of [byStu] after the rows [rows]. *)
Definition byStuInv (rows : list Row) (m : JsMap.t Student.t) : Prop :=
  NoDup (JsMap.keys m)
  /\ (forall k, In k (JsMap.keys m) <->
        exists r g c n, In r rows /\ rowOfStudent r (g, c, n) /\ k = keyOf g c n)
  /\ (forall k s, JsMap.get k m = Some s ->
        (let '(g, c, n) := fieldsOf s in k = keyOf g c n)
        /\ exists r, In r rows /\ rowOfStudent r (fieldsOf s)).

(** Rows of the students 2-1-3, 1-10-2, 1-2-30 and 1-2-4, with a second row
    of 1-2-4 and a row without a number. *)
Definition sampleRows : list Row :=
  [ studentRow 2 1 3; studentRow 1 10 2; studentRow 1 2 30; studentRow 1 2 4;
    {| 학년 := Some 1%Z; 반 := Some 2%Z; 번호 := None; 이름 := None;
       과목학년 := None; 과목학기 := None;
       교과 := None; 과목명 := None; 학점 := None |};
    studentRow 1 2 4 ].

Section Vocabulary.
Context {host : Host}.

(** The key under which an entry is stored, if it is stored. *)
Definition normKey (k : jsstring) : option jsstring :=
  truthyName (normCourseName (Some k)).

(** The requirement list that is stored for the list [arr]. *)
Definition normReqs (arr : list jsstring) : list jsstring :=
  flat_map
    (fun x => match truthyName (normCourseName (Some x)) with
              | Some y => [y]
              | None => []
              end) arr.

(** One turn of the loop that fills [PREREQS]. *)
Definition loadStep (m : JsMap.t (list jsstring))
  (entry : jsstring * list jsstring) : JsMap.t (list jsstring) :=
  match normKey (fst entry) with
  | None => m
  | Some nk => JsMap.set nk (normReqs (snd entry)) m
  end.

(** One turn of the loop that fills [byBase]. *)
Definition byBaseStep (byBase : JsMap.t (list Z)) (r : Item.t) : JsMap.t (list Z) :=
  match parseHierLevel (Some (Item.과목명 r)) with
  | None => byBase
  | Some ph =>
      JsMap.set (base ph) (JsSet.add Z.eqb (level ph) (levelsOf byBase (base ph)))
        byBase
  end.

End Vocabulary.

(** ** The vocabulary of the reading of the sheet *)

(** [s] is white space only. *)
Definition blank (s : jsstring) : bool := forallb Js.isWhiteSpace s.

(** [s] is not empty and has no white space at either end. *)
Definition trimmed (s : jsstring) : bool :=
  match s with
  | [] => false
  | c :: _ => negb (Js.isWhiteSpace c) && negb (Js.isWhiteSpace (last s c))
  end.

(** The labels that [readRowsFromSheet] looks for. *)
Definition columnLabels : list jsstring :=
  [ Label.grade; Label.class; Label.number; Label.name; Label.courseGrade;
    Label.courseTerm; Label.group; Label.course; Label.credit ].

(** How often the label [k] stands in a header. *)
Definition occurrences (k : jsstring) (header : list jsstring) : nat :=
  length (filter (fun x => Js.str_eqb x k) header).

(** The cell under the first label [k] among cells paired with labels. *)
Definition lookupCell (k : jsstring) (l : list (jsstring * option Cell))
  : option Cell :=
  match find (fun p => Js.str_eqb (fst p) k) l with
  | Some p => snd p
  | None => None
  end.

(** How often the label [k] stands among cells paired with labels. *)
Definition countLabel (k : jsstring) (l : list (jsstring * option Cell)) : nat :=
  length (filter (fun p => Js.str_eqb (fst p) k) l).

(** A field of a row that was read, and the fields under their labels. *)
Inductive Field :=
| FNum (x : option float)
| FStr (s : option jsstring).

Definition isNull (f : Field) : bool :=
  match f with
  | FNum None | FStr None => true
  | _ => false
  end.

Definition sheetFields (row : SheetRow.t) : list (jsstring * Field) :=
  [ (Label.grade, FNum (SheetRow.학년 row));
    (Label.class, FNum (SheetRow.반 row));
    (Label.number, FNum (SheetRow.번호 row));
    (Label.name, FStr (SheetRow.이름 row));
    (Label.courseGrade, FNum (SheetRow.과목학년 row));
    (Label.courseTerm, FNum (SheetRow.과목학기 row));
    (Label.group, FStr (SheetRow.교과 row));
    (Label.course, FStr (SheetRow.과목명 row));
    (Label.credit, FNum (SheetRow.학점 row)) ].

Section ReadingVocabulary.
Context {coerce : Coerce}.

(** The cells of a row, each with the label above it. *)
Definition labelled (h r : list (option Cell)) : list (jsstring * option Cell) :=
  combine (headerOf [h]) r.

End ReadingVocabulary.

(** A sheet with the columns 학년 and 학점 and one row, and the same sheet
    with the two columns exchanged. *)
Module SampleSheet.
Definition header : list (option Cell) :=
  [Some (CStr Label.grade); Some (CStr Label.credit)].
Definition row : list (option Cell) :=
  [Some (CNum 1%float); Some (CStr [32; 51; 32]%N)].
Definition header' : list (option Cell) :=
  [Some (CStr Label.credit); Some (CStr Label.grade)].
Definition row' : list (option Cell) :=
  [Some (CStr [32; 51; 32]%N); Some (CNum 1%float)].
End SampleSheet.

(** ** The vocabulary of the students of the screen *)

(** The key of a student given as a triple. *)
Definition keyOfIdent (t : Z * Z * Z) : jsstring :=
  let '(g, c, n) := t in keyOf g c n.

(** The row has grade, class and number [t]. *)
Definition hasIdent (t : Z * Z * Z) (r : Row) : bool :=
  let '(g, c, n) := t in
  match 학년 r, 반 r, 번호 r with
  | Some g', Some c', Some n' => (g' =? g)%Z && (c' =? c)%Z && (n' =? n)%Z
  | _, _, _ => false
  end.

(** The rows of the student [t], in the order of the sheet, and the first
    and the last of them. *)
Definition rowsOf (t : Z * Z * Z) (rows : list Row) : list Row :=
  filter (hasIdent t) rows.

Definition firstRowOf (t : Z * Z * Z) (rows : list Row) : option Row :=
  hd_error (rowsOf t rows).

Definition lastRowOf (t : Z * Z * Z) (rows : list Row) : option Row :=
  hd_error (rev (rowsOf t rows)).

(** Grade, class and number of an entry and of an element of the list. *)
Definition identOfEntry (e : Entry.t) : Z * Z * Z :=
  (Entry.학년 e, Entry.반 e, Entry.번호 e).

Definition identOfListed (l : Listed.t) : Z * Z * Z :=
  identOfEntry (Listed.entry l).

(** The row has no grade, no class or no number. *)
Definition noIdent (r : Row) : bool :=
  match 학년 r, 반 r, 번호 r with
  | Some _, Some _, Some _ => false
  | _, _, _ => true
  end.

(** One turn of the loops of [Kpis] and [byStudent]. *)
Definition studentKeysStep (set : list jsstring) (r : Row) : list jsstring :=
  match 학년 r, 반 r, 번호 r with
  | Some g, Some c, Some n => JsSet.add Js.str_eqb (keyOf g c n) set
  | _, _, _ => set
  end.

Definition creditsStep (m : JsMap.t float) (r : Row) : JsMap.t float :=
  match 학년 r, 반 r, 번호 r with
  | Some g, Some c, Some n =>
      let k := keyOf g c n in
      let prev := match JsMap.get k m with
                  | Some v => Num.orZero v
                  | None => 0%float
                  end in
      JsMap.set k (prev + Num.optOrZero (학점 r))%float m
  | _, _, _ => m
  end.

Definition byStudentStep (m : JsMap.t Entry.t) (r : Row) : JsMap.t Entry.t :=
  match 학년 r, 반 r, 번호 r with
  | Some g, Some c, Some n =>
      let key := keyOf g c n in
      match JsMap.get key m with
      | None =>
          JsMap.set key
            {| Entry.key := key; Entry.학년 := g; Entry.반 := c;
               Entry.번호 := n; Entry.이름 := 이름 r; Entry.rows := [r] |}
            m
      | Some prev =>
          JsMap.set key
            {| Entry.key := Entry.key prev; Entry.학년 := Entry.학년 prev;
               Entry.반 := Entry.반 prev; Entry.번호 := Entry.번호 prev;
               Entry.이름 := Entry.이름 prev;
               Entry.rows := Entry.rows prev ++ [r] |}
            m
      end
  | _, _, _ => m
  end.

(** The entry of the student [t] whose rows are [r0 :: rs]. *)
Definition entryOf (t : Z * Z * Z) (r0 : Row) (rs : list Row) : Entry.t :=
  let '(g, c, n) := t in
  {| Entry.key := keyOf g c n; Entry.학년 := g; Entry.반 := c; Entry.번호 := n;
     Entry.이름 := 이름 r0; Entry.rows := r0 :: rs |}.

(** One turn of the loop of [studentsInClass]. *)
Definition classMapStep (g c : Z) (m : JsMap.t jsstring) (r : Row)
  : JsMap.t jsstring :=
  if strictEq (학년 r) (Some g) && strictEq (반 r) (Some c) then
    match 번호 r with
    | Some n => JsMap.set (keyOf g c n) (labelOf n (이름 r)) m
    | None => m
    end
  else m.

(** Rows for evaluation: two rows of the student 1-2-3 under different
    names, and a row without a number. *)
Module SampleClass.
Definition nameA : jsstring := [0xAC00]%N.
Definition nameB : jsstring := [0xB098]%N.
Definition rows : list Row :=
  [ {| 학년 := Some 1%Z; 반 := Some 2%Z; 번호 := Some 3%Z; 이름 := Some nameA;
       과목학년 := None; 과목학기 := None; 교과 := None; 과목명 := None;
       학점 := Some 3%float |};
    {| 학년 := Some 1%Z; 반 := Some 2%Z; 번호 := Some 3%Z; 이름 := Some nameB;
       과목학년 := None; 과목학기 := None; 교과 := None; 과목명 := None;
       학점 := Some 2%float |};
    {| 학년 := Some 1%Z; 반 := Some 2%Z; 번호 := None; 이름 := Some nameB;
       과목학년 := None; 과목학기 := None; 교과 := None; 과목명 := None;
       학점 := Some 2%float |} ].
Definition unnumbered : list Row :=
  [ {| 학년 := Some 1%Z; 반 := Some 2%Z; 번호 := None; 이름 := Some nameB;
       과목학년 := None; 과목학기 := None; 교과 := None; 과목명 := None;
       학점 := Some 2%float |} ].
Definition choices : list Choice.t :=
  [ {| Choice.key := [49]%N; Choice.label := nameA |};
    {| Choice.key := [50]%N; Choice.label := nameB |};
    {| Choice.key := [51]%N; Choice.label := nameA |} ].
End SampleClass.

(** ** The vocabulary of the sums and of the panel *)

(** The course is of the group [g]. *)
Definition inGroup (g : jsstring) (r : Item.t) : bool :=
  Js.str_eqb (Item.교과 r) g.

(** The sum of a group as the loop over the courses builds it: the
    credits of the courses of the group alone, added in their order. *)
Definition groupSum (g : jsstring) (items : list Item.t) : float :=
  Num.orZero
    (fold_left (fun v r => (Num.orZero v + Num.orZero (Item.학점 r))%float)
       (filter (inGroup g) items) 0%float).

(** Year and term of a course as the cards order them. *)
Definition yearOf (a : Item.t) : Z :=
  match Item.과목학년 a with Some y => y | None => 9999%Z end.

Definition termOf (a : Item.t) : Z :=
  match Item.과목학기 a with Some t => t | None => 9999%Z end.

Definition yearTermLe (a b : Item.t) : Prop :=
  (yearOf a < yearOf b \/ (yearOf a = yearOf b /\ termOf a <= termOf b))%Z.

(** ** The vocabulary of the list of classes *)

(** Grade, then class number, each ascending. *)
Definition pairLt (a b : Z * Z) : Prop :=
  (fst a < fst b \/ (fst a = fst b /\ snd a < snd b))%Z.

(** The key of a class given as a pair. *)
Definition classKeyOf (t : Z * Z) : jsstring := classKey (fst t) (snd t).

(** The row is of the class [(g, c)]. *)
Definition rowOfClass (r : Row) (t : Z * Z) : Prop :=
  학년 r = Some (fst t) /\ 반 r = Some (snd t).

(** One turn of the loop of [classes]. *)
Definition classesStep (set : list jsstring) (r : Row) : list jsstring :=
  match 학년 r, 반 r with
  | Some g, Some c => JsSet.add Js.str_eqb (classKey g c) set
  | _, _ => set
  end.

(** A key of a class whose two numbers are not negative. *)
Definition goodClass (k : jsstring) : Prop :=
  exists t, (0 <= fst t)%Z /\ (0 <= snd t)%Z /\ k = classKeyOf t.

Section ClassVocabulary.
Context {host : Host}.

(** The two numbers that the comparator reads back from a key. *)
Definition pairOf (k : jsstring) : Z * Z :=
  match classNumbers k with
  | (Some g, Some c) => (g, c)
  | _ => (0, 0)%Z
  end.

End ClassVocabulary.

(** Rows of the classes 1-10, 1-2 and 2-1, with a second row of 1-2. *)
Module SampleClasses.
Definition row (g c : Z) : Row :=
  {| 학년 := Some g; 반 := Some c; 번호 := Some 1%Z; 이름 := None;
     과목학년 := None; 과목학기 := None; 교과 := None; 과목명 := None;
     학점 := None |}.
Definition rows : list Row := [row 1 10; row 2 1; row 1 2; row 1 2].
End SampleClasses.

(** The entry of [byStu] of the student [t] whose rows are [r0 :: rs]. *)
Definition studentOf (t : Z * Z * Z) (r0 : Row) (rs : list Row) : Student.t :=
  let '(g, c, n) := t in
  {| Student.학년 := g; Student.반 := c; Student.번호 := n;
     Student.이름 := 이름 r0; Student.list := r0 :: rs |}.

(** ** The vocabulary of the rounding *)




(** Rows of two students for the columns: 1-1-1 with 3 credits of "국어"
    and 2 of "수학", and 1-1-2 with 4 credits of "국어". *)
Module SampleColumns.
Definition row (n : Z) (group : jsstring) (credit : float) : Row :=
  {| 학년 := Some 1%Z; 반 := Some 1%Z; 번호 := Some n; 이름 := None;
     과목학년 := None; 과목학기 := None;
     교과 := Some group; 과목명 := Some Course.physics; 학점 := Some credit |}.
Definition rows : list Row :=
  [ row 1 Lit.korean 3; row 2 Lit.korean 4; row 1 Lit.maths 2 ].
End SampleColumns.

(** * Properties *)

(** ** Strings, maps and sets *)

Module JsFacts.

Lemma str_eqb_spec (a b : jsstring) : reflect (a = b) (Js.str_eqb a b).
Proof.
  revert b; induction a as [|x a IH]; intros [|y b]; simpl;
    try (constructor; congruence).
  destruct (N.eqb_spec x y) as [->|Hxy]; simpl.
  - destruct (IH b) as [->|Hab]; constructor; congruence.
  - constructor; congruence.
Qed.

Lemma str_eqb_eq (a b : jsstring) : Js.str_eqb a b = true <-> a = b.
Proof. destruct (str_eqb_spec a b); split; congruence. Qed.

Lemma str_eqb_refl (a : jsstring) : Js.str_eqb a a = true.
Proof. now apply str_eqb_eq. Qed.

Lemma str_eqb_neq (a b : jsstring) : Js.str_eqb a b = false <-> a <> b.
Proof. destruct (str_eqb_spec a b); split; congruence. Qed.

Lemma nonEmpty_false (s : jsstring) : Js.nonEmpty s = false <-> s = [].
Proof. destruct s; simpl; split; congruence. Qed.

Lemma nonEmpty_true (s : jsstring) : Js.nonEmpty s = true <-> s <> [].
Proof. destruct s; simpl; split; congruence. Qed.

Lemma trimStart_all_ws (s : jsstring) :
  forallb Js.isWhiteSpace s = true -> Js.trimStart s = [].
Proof.
  induction s as [|c s IH]; simpl; [reflexivity|].
  intros H; apply andb_true_iff in H as [Hc Hs]. now rewrite Hc; apply IH.
Qed.

Lemma trim_all_ws (s : jsstring) :
  forallb Js.isWhiteSpace s = true -> Js.trim s = [].
Proof. intros H. unfold Js.trim. now rewrite (trimStart_all_ws s H). Qed.

Section MapFacts.
Variable V : Type.
Implicit Types (m : JsMap.t V) (k : jsstring) (v : V).

Lemma get_set_eq m k v : JsMap.get k (JsMap.set k v m) = Some v.
Proof.
  induction m as [|[k' v'] m IH]; simpl.
  - now rewrite str_eqb_refl.
  - destruct (Js.str_eqb k k') eqn:E; simpl; rewrite E; [reflexivity|exact IH].
Qed.

Lemma get_set_ne m k k' v :
  k' <> k -> JsMap.get k' (JsMap.set k v m) = JsMap.get k' m.
Proof.
  intros Hne. induction m as [|[k0 v0] m IH]; simpl.
  - now apply str_eqb_neq in Hne as ->.
  - destruct (str_eqb_spec k k0) as [->|Hk]; simpl.
    + now apply str_eqb_neq in Hne as ->.
    + now rewrite IH.
Qed.

Lemma get_set m k k' v :
  JsMap.get k' (JsMap.set k v m)
  = if Js.str_eqb k' k then Some v else JsMap.get k' m.
Proof.
  destruct (str_eqb_spec k' k) as [->|Hne].
  - apply get_set_eq.
  - now apply get_set_ne.
Qed.

Lemma get_None_keys m k : JsMap.get k m = None <-> ~ In k (JsMap.keys m).
Proof.
  induction m as [|[k' v'] m IH]; simpl; [tauto|].
  destruct (str_eqb_spec k k') as [->|Hne].
  - split; [discriminate|tauto].
  - rewrite IH. split; [intros H [E|I]; [congruence|tauto] | tauto].
Qed.

Lemma get_Some_In m k v : JsMap.get k m = Some v -> In (k, v) m.
Proof.
  induction m as [|[k' v'] m IH]; simpl; [discriminate|].
  destruct (str_eqb_spec k k') as [->|Hne].
  - intros [= ->]. now left.
  - intros H. right. now apply IH.
Qed.

Lemma In_get_Some m k v :
  NoDup (JsMap.keys m) -> In (k, v) m -> JsMap.get k m = Some v.
Proof.
  induction m as [|[k' v'] m IH]; simpl; [tauto|].
  intros Hnd [E|I].
  - injection E as -> ->. now rewrite str_eqb_refl.
  - inversion Hnd as [|? ? Hni Hnd']; subst.
    destruct (str_eqb_spec k k') as [->|Hne].
    + exfalso. apply Hni. change (In (fst (k', v)) (map fst m)). now apply in_map.
    + now apply IH.
Qed.

Lemma keys_set m k v :
  JsMap.keys (JsMap.set k v m)
  = if existsb (Js.str_eqb k) (JsMap.keys m) then JsMap.keys m
    else JsMap.keys m ++ [k].
Proof.
  induction m as [|[k' v'] m IH]; simpl; [reflexivity|].
  destruct (Js.str_eqb k k') eqn:E; simpl; [reflexivity|].
  unfold JsMap.keys in *. rewrite IH.
  now destruct (existsb (Js.str_eqb k) (map fst m)).
Qed.

Lemma existsb_str_eqb k (l : list jsstring) :
  existsb (Js.str_eqb k) l = true <-> In k l.
Proof.
  rewrite existsb_exists. split.
  - intros [x [Hx E]]. apply str_eqb_eq in E. now subst.
  - intros H. exists k. split; [assumption|apply str_eqb_refl].
Qed.

Lemma In_keys_set m k k' v :
  In k' (JsMap.keys (JsMap.set k v m)) <-> k' = k \/ In k' (JsMap.keys m).
Proof.
  rewrite keys_set.
  destruct (existsb (Js.str_eqb k) (JsMap.keys m)) eqn:E.
  - apply existsb_str_eqb in E. split; [tauto|]. intros [->|H]; assumption.
  - rewrite in_app_iff. simpl. split; [intros [H|[H|[]]]; auto|].
    intros [->|H]; auto.
Qed.

Lemma NoDup_keys_set m k v :
  NoDup (JsMap.keys m) -> NoDup (JsMap.keys (JsMap.set k v m)).
Proof.
  intros Hnd. rewrite keys_set.
  destruct (existsb (Js.str_eqb k) (JsMap.keys m)) eqn:E; [assumption|].
  apply NoDup_rev in Hnd. rewrite <- (rev_involutive (_ ++ _)).
  apply NoDup_rev. rewrite rev_app_distr. simpl. constructor; [|assumption].
  rewrite <- in_rev. intros H. apply existsb_str_eqb in H. congruence.
Qed.

End MapFacts.

Lemma has_In (x : jsstring) (s : list jsstring) :
  JsSet.has Js.str_eqb x s = true <-> In x s.
Proof. apply existsb_str_eqb. Qed.

Lemma hasZ_In (x : Z) (s : list Z) : JsSet.has Z.eqb x s = true <-> In x s.
Proof.
  unfold JsSet.has. rewrite existsb_exists. split.
  - intros [y [Hy E]]. apply Z.eqb_eq in E. now subst.
  - intros H. exists x. split; [assumption|apply Z.eqb_refl].
Qed.

Lemma In_add (x y : jsstring) (s : list jsstring) :
  In y (JsSet.add Js.str_eqb x s) <-> y = x \/ In y s.
Proof.
  unfold JsSet.add. destruct (JsSet.has Js.str_eqb x s) eqn:E.
  - apply has_In in E. split; [tauto|]. intros [->|H]; assumption.
  - rewrite in_app_iff. simpl. split; [intros [H|[H|[]]]; auto|].
    intros [->|H]; auto.
Qed.

Lemma In_addZ (x y : Z) (s : list Z) :
  In y (JsSet.add Z.eqb x s) <-> y = x \/ In y s.
Proof.
  unfold JsSet.add. destruct (JsSet.has Z.eqb x s) eqn:E.
  - apply hasZ_In in E. split; [tauto|]. intros [->|H]; assumption.
  - rewrite in_app_iff. simpl. split; [intros [H|[H|[]]]; auto|].
    intros [->|H]; auto.
Qed.

End JsFacts.

(** ** The group canonicaliser *)

Section CanonGroup.
Context {host : Host}.

Lemma canonGroup_unfold (s : jsstring) :
  Js.trim s <> [] ->
  canonGroup (Some s)
  = if existsb (Js.str_eqb (Js.stripWs (normalized (Js.trim s)))) aliases
    then Lit.target else normalized (Js.trim s).
Proof.
  intros H. unfold canonGroup.
  apply JsFacts.nonEmpty_true in H. rewrite H. simpl negb. cbv iota.
  unfold aliases, existsb. cbv zeta.
  now rewrite !orb_false_r, !orb_assoc.
Qed.




Lemma earlier_canonGroup_unfold (s : jsstring) :
  Js.trim s <> [] ->
  Earlier.canonGroup (Some s)
  = if existsb (Js.str_eqb (Js.stripWs (normalized (Js.trim s))))
         [ Lit.target; Lit.liberal; Lit.second_language; Lit.hanmun;
           Lit.tech_home; Lit.tech_home_info ]
    then Lit.target else normalized (Js.trim s).
Proof.
  intros H. unfold Earlier.canonGroup.
  apply JsFacts.nonEmpty_true in H. rewrite H. simpl negb. cbv iota.
  unfold existsb. cbv zeta.
  now rewrite !orb_false_r, !orb_assoc.
Qed.

(** The two variants of [canonGroup] part only on the labels whose normal
    form, white space removed, is "제2외국어/한문". *)
Lemma canonGroup_variants_agree_elsewhere (raw : option jsstring) :
  (forall s, raw = Some s ->
     Js.stripWs (normalized (Js.trim s)) <> Lit.second_language_hanmun) ->
  Earlier.canonGroup raw = canonGroup raw.
Proof.
  destruct raw as [s|]; [|reflexivity].
  intros H. specialize (H s eq_refl).
  destruct (Js.trim s) eqn:Et.
  - unfold Earlier.canonGroup, canonGroup. now rewrite Et.
  - assert (Hne : Js.trim s <> []) by (rewrite Et; discriminate).
    rewrite earlier_canonGroup_unfold, canonGroup_unfold by exact Hne.
    rewrite Et in *. unfold aliases, existsb.
    apply JsFacts.str_eqb_neq in H. rewrite H. now rewrite !orb_false_r.
Qed.

End CanonGroup.

(** C9 fails on the code: on "제2외국어/한문" the later [canonGroup] gives the
    merged label and the earlier one gives the label back. *)
Theorem canonGroup_variants_differ :
  @canonGroup SampleHost.host (Some Lit.second_language_hanmun) = Lit.target
  /\ @Earlier.canonGroup SampleHost.host (Some Lit.second_language_hanmun)
     = Lit.second_language_hanmun
  /\ @Earlier.canonGroup SampleHost.host (Some Lit.second_language_hanmun)
     <> @canonGroup SampleHost.host (Some Lit.second_language_hanmun).
Proof. repeat split; [vm_compute; reflexivity ..| vm_compute; discriminate]. Qed.

(** ** The hierarchy parser *)

(** The three evaluations that the specification gives: "물리학Ⅰ" is level 1
    of "물리학", "물리학VIII" is level 8, and "물리학" has no level. *)
Lemma parseHierLevel_examples :
  @parseHierLevel SampleHost.host (Some (Course.physics ++ Course.roman 1))
  = Some {| base := Course.physics; level := 1 |}
  /\ @parseHierLevel SampleHost.host
       (Some (Course.physics ++ [Lit.V; Lit.I; Lit.I; Lit.I]))
     = Some {| base := Course.physics; level := 8 |}
  /\ @parseHierLevel SampleHost.host (Some Course.physics) = None.
Proof. repeat split; vm_compute; reflexivity. Qed.

(** C1 fails on the code at level 5: the table [map] gives 5 for "V" and for
    "Ⅴ", but the alternation [asciiRoman] has no "V", so neither "물리학V" nor
    "물리학Ⅴ" (which NFKC turns into "물리학V") has a level. *)
Theorem parseHierLevel_level_five_lost :
  JsMap.get [Lit.V] romanMap = Some 5%Z
  /\ JsMap.get (Course.roman 5) romanMap = Some 5%Z
  /\ @parseHierLevel SampleHost.host (Some (Course.physics ++ [Lit.V])) = None
  /\ @parseHierLevel SampleHost.host (Some (Course.physics ++ Course.roman 5))
     = None.
Proof. repeat split; vm_compute; reflexivity. Qed.

(** ** The prerequisite table *)

Section Prereqs.
Context {host : Host}.

Lemma truthyName_Some (x : option jsstring) (y : jsstring) :
  truthyName x = Some y <-> x = Some y /\ y <> [].
Proof.
  destruct x as [[|c s]|]; simpl; split; try intros [H1 H2]; try congruence.
  intros [= <-]. split; [reflexivity|discriminate].
Qed.

Lemma normKey_Some (k nk : jsstring) :
  normKey k = Some nk <-> normCourseName (Some k) = Some nk /\ nk <> [].
Proof. apply truthyName_Some. Qed.

Lemma loadPrereqs_fold (raw : list (jsstring * list jsstring)) :
  loadPrereqs raw = fold_left loadStep raw [].
Proof.
  unfold loadPrereqs. generalize (@nil (jsstring * list jsstring)) as m.
  induction raw as [|[k arr] raw IH]; intros m; simpl; [reflexivity|].
  rewrite IH. reflexivity.
Qed.

Lemma NoDup_keys_fold_loadStep raw (m : JsMap.t (list jsstring)) :
  NoDup (JsMap.keys m) -> NoDup (JsMap.keys (fold_left loadStep raw m)).
Proof.
  revert m. induction raw as [|e raw IH]; intros m Hm; simpl; [assumption|].
  apply IH. unfold loadStep. destruct (normKey (fst e)); [|assumption].
  now apply JsFacts.NoDup_keys_set.
Qed.

Lemma get_fold_loadStep_other raw (m : JsMap.t (list jsstring)) nk :
  (forall k arr, In (k, arr) raw -> normCourseName (Some k) <> Some nk) ->
  JsMap.get nk (fold_left loadStep raw m) = JsMap.get nk m.
Proof.
  revert m. induction raw as [|[k arr] raw IH]; intros m H; simpl; [reflexivity|].
  rewrite IH by (intros k' arr' Hin; apply (H k' arr'); now right).
  unfold loadStep. simpl. destruct (normKey k) as [nk0|] eqn:E; [|reflexivity].
  apply JsFacts.get_set_ne. intros ->.
  apply normKey_Some in E as [E _]. exact (H k arr (or_introl eq_refl) E).
Qed.

Lemma In_normReqs (arr : list jsstring) (v : jsstring) :
  In v (normReqs arr)
  <-> v <> [] /\ exists x, In x arr /\ normCourseName (Some x) = Some v.
Proof.
  unfold normReqs. rewrite in_flat_map. split.
  - intros [x [Hx Hv]].
    destruct (truthyName (normCourseName (Some x))) as [y|] eqn:E; [|destruct Hv].
    destruct Hv as [<-|[]]. apply truthyName_Some in E as [E Hy].
    split; [assumption|]. now exists x.
  - intros [Hv [x [Hx E]]]. exists x. split; [assumption|].
    assert (T : truthyName (normCourseName (Some x)) = Some v)
      by now apply truthyName_Some.
    rewrite T. now left.
Qed.

Lemma NoDup_keys_loadPrereqs (raw : list (jsstring * list jsstring)) :
  NoDup (JsMap.keys (loadPrereqs raw)).
Proof.
  rewrite loadPrereqs_fold. apply NoDup_keys_fold_loadStep. constructor.
Qed.

(** C8.  The table has one entry for each key that normalises to a
    non-empty name; the entry holds the normalised, non-empty requirements
    of the last raw entry with that normalised key. *)
Theorem loadPrereqs_last_write_wins (raw : list (jsstring * list jsstring)) :
  NoDup (JsMap.keys (loadPrereqs raw))
  /\ (forall nk reqs,
        JsMap.get nk (loadPrereqs raw) = Some reqs <->
        exists pre k arr post,
          raw = pre ++ (k, arr) :: post
          /\ normCourseName (Some k) = Some nk /\ nk <> []
          /\ reqs = normReqs arr
          /\ forall k' arr', In (k', arr') post ->
               normCourseName (Some k') <> Some nk)
  /\ (forall arr v,
        In v (normReqs arr) <->
        v <> [] /\ exists x, In x arr /\ normCourseName (Some x) = Some v).
Proof.
  split; [apply NoDup_keys_loadPrereqs|split; [|exact In_normReqs]].
  intros nk reqs. rewrite loadPrereqs_fold. split.
  - revert reqs. induction raw as [|[k arr] raw IH] using rev_ind;
      intros reqs; [discriminate|].
    rewrite fold_left_app. simpl. unfold loadStep at 1. simpl.
    destruct (normKey k) as [nk0|] eqn:E.
    + rewrite JsFacts.get_set. destruct (JsFacts.str_eqb_spec nk nk0) as [->|Hne].
      * intros [= <-]. apply normKey_Some in E as [E Hnk].
        exists raw, k, arr, []. do 4 (split; [first [reflexivity|assumption]|]). intros ? ? [].
      * intros H. destruct (IH _ H) as (pre & k1 & arr1 & post & -> & E1 & Hnk & -> & Hpost).
        exists pre, k1, arr1, (post ++ [(k, arr)]).
        rewrite <- app_assoc. do 4 (split; [first [reflexivity|assumption]|]).
        intros k' arr' Hin E'. apply in_app_or in Hin as [Hin|[Heq|[]]].
        -- exact (Hpost k' arr' Hin E').
        -- injection Heq as <- <-. apply normKey_Some in E as [E _].
           change (normCourseName (Some k) = Some nk) in E'. congruence.
    + intros H. destruct (IH _ H) as (pre & k1 & arr1 & post & -> & E1 & Hnk & -> & Hpost).
      exists pre, k1, arr1, (post ++ [(k, arr)]).
      rewrite <- app_assoc. do 4 (split; [first [reflexivity|assumption]|]).
      intros k' arr' Hin E'. apply in_app_or in Hin as [Hin|[Heq|[]]].
      * exact (Hpost k' arr' Hin E').
      * injection Heq as <- <-.
        change (normCourseName (Some k) = Some nk) in E'.
        assert (T : normKey k = Some nk) by now apply normKey_Some.
        congruence.
  - intros (pre & k & arr & post & -> & E & Hnk & -> & Hpost).
    rewrite fold_left_app. simpl.
    rewrite get_fold_loadStep_other by exact Hpost.
    unfold loadStep. simpl.
    assert (T : normKey k = Some nk) by now apply normKey_Some.
    rewrite T. apply JsFacts.get_set_eq.
Qed.

End Prereqs.

(** ** The explicit-prerequisite check *)

Section ExplicitCheck.
Context {host : Host}.

Lemma In_haveOf_from (items : list Item.t) (have0 : list jsstring) (c : jsstring) :
  In c (fold_left
          (fun have r =>
             match truthyName (normCourseName (Some (Item.과목명 r))) with
             | Some nm => JsSet.add Js.str_eqb nm have
             | None => have
             end) items have0)
  <-> In c have0
      \/ (c <> [] /\ exists r, In r items
                     /\ normCourseName (Some (Item.과목명 r)) = Some c).
Proof.
  revert have0. induction items as [|r items IH]; intros have0; cbn [fold_left].
  - split; [tauto|]. intros [H|[_ [r [[] _]]]]. exact H.
  - rewrite IH. clear IH. cbn [In].
    destruct (truthyName (normCourseName (Some (Item.과목명 r)))) as [nm|] eqn:E.
    + apply truthyName_Some in E as [E Hnm]. rewrite JsFacts.In_add. split.
      * intros [[->|H]|[Hc [r' [Hr' E']]]]; [right|tauto|right].
        -- split; [assumption|]. exists r. tauto.
        -- split; [assumption|]. exists r'. tauto.
      * intros [H|[Hc [r' [[<-|Hr'] E']]]]; [tauto| |].
        -- left. left. congruence.
        -- right. split; [assumption|]. now exists r'.
    + split.
      * intros [H|[Hc [r' [Hr' E']]]]; [tauto|right].
        split; [assumption|]. exists r'. tauto.
      * intros [H|[Hc [r' [[<-|Hr'] E']]]]; [tauto| |].
        -- exfalso.
           assert (T : truthyName (normCourseName (Some (Item.과목명 r))) = Some c)
             by now apply truthyName_Some.
           congruence.
        -- right. split; [assumption|]. now exists r'.
Qed.

Lemma In_haveOf (items : list Item.t) (c : jsstring) :
  In c (haveOf items)
  <-> c <> [] /\ exists r, In r items
                 /\ normCourseName (Some (Item.과목명 r)) = Some c.
Proof.
  unfold haveOf. rewrite In_haveOf_from. simpl. tauto.
Qed.

Lemma In_absentFrom (have reqs : list jsstring) (v : jsstring) :
  In v (absentFrom have reqs) <-> In v reqs /\ ~ In v have.
Proof.
  unfold absentFrom. rewrite filter_In, negb_true_iff.
  pose proof (JsFacts.has_In v have) as Hh.
  destruct (JsSet.has Js.str_eqb v have).
  - split; [intros [_ H]; discriminate|intros [_ H]; exfalso; tauto].
  - split; [intros [H _]; split; [exact H|]|tauto].
    intros Hin. apply Hh in Hin. discriminate.
Qed.

Lemma In_explicitFindings (PREREQS : JsMap.t (list jsstring))
  (items : list Item.t) (course : jsstring) (miss : list jsstring) :
  NoDup (JsMap.keys PREREQS) ->
  In (course, miss) (explicitFindings PREREQS items)
  <-> In course (haveOf items)
      /\ exists reqs, JsMap.get course PREREQS = Some reqs
                      /\ miss = absentFrom (haveOf items) reqs
                      /\ miss <> [].
Proof.
  intros Hnd. unfold explicitFindings. cbv zeta. rewrite in_flat_map. split.
  - intros [[c reqs] [Hin H]].
    destruct (JsSet.has Js.str_eqb c (haveOf items)) eqn:Ehas; simpl in H;
      [|destruct H].
    fold (absentFrom (haveOf items) reqs) in H.
    destruct (absentFrom (haveOf items) reqs) as [|m ms] eqn:Em; simpl in H;
      [destruct H|].
    destruct H as [[= <- <-]|[]].
    split; [now apply JsFacts.has_In|].
    exists reqs. split; [now apply JsFacts.In_get_Some|].
    split; [now rewrite Em|discriminate].
  - intros [Hhave [reqs [Hget [-> Hne]]]].
    exists (course, reqs). split; [now apply JsFacts.get_Some_In|].
    apply JsFacts.has_In in Hhave. rewrite Hhave. simpl.
    fold (absentFrom (haveOf items) reqs).
    destruct (absentFrom (haveOf items) reqs); [congruence|]. now left.
Qed.

(** C4.  The set [have] holds the non-empty normalised names of the
    student's courses; a finding is a course of [have] that is a key of the
    table, with the requirements of its entry that [have] lacks, when there
    are any; each finding is written as the course, ": 선수 누락 → " and the
    missing names.  With the table of "미적분" requiring "수학Ⅰ" and "수학Ⅱ",
    a student who has "미적분" and "수학Ⅰ" is told that "미적분" misses the
    second (in its normal form, "수학II"). *)
Theorem explicit_prerequisite_check
  (rawPrereqs : list (jsstring * list jsstring)) (items : list Item.t) :
  let PREREQS := loadPrereqs rawPrereqs in
  (forall c, In c (haveOf items) <->
     c <> [] /\ exists r, In r items
                /\ normCourseName (Some (Item.과목명 r)) = Some c)
  /\ (forall course miss,
        In (course, miss) (explicitFindings PREREQS items) <->
        In course (haveOf items)
        /\ exists reqs, JsMap.get course PREREQS = Some reqs
                        /\ miss = absentFrom (haveOf items) reqs
                        /\ miss <> [])
  /\ (forall reqs v,
        In v (absentFrom (haveOf items) reqs) <->
        In v reqs /\ ~ In v (haveOf items))
  /\ explicitParts PREREQS items
     = map (fun f => fst f ++ Lit.prereq_missing ++ Js.join Lit.comma (snd f))
         (explicitFindings PREREQS items)
  /\ (let table :=
        @loadPrereqs SampleHost.host
          [ (Course.calculus,
             [Course.maths ++ Course.roman 1; Course.maths ++ Course.roman 2]) ] in
      let student :=
        [ mkItem Course.calculus; mkItem (Course.maths ++ Course.roman 1) ] in
      @explicitFindings SampleHost.host table student
      = [ (Course.calculus, [Course.maths ++ [Lit.I; Lit.I]]) ]
      /\ @buildChecks SampleHost.host table student
         = Course.calculus ++ Lit.prereq_missing ++ Course.maths ++ [Lit.I; Lit.I]).
Proof.
  intros PREREQS.
  split; [exact (In_haveOf items)|].
  split.
  { intros course miss. apply In_explicitFindings.
    apply NoDup_keys_loadPrereqs. }
  split; [exact (In_absentFrom (haveOf items))|].
  split; [reflexivity|].
  split; vm_compute; reflexivity.
Qed.

End ExplicitCheck.

(** C4 as it is stated fails in its example: with the table of "미적분"
    requiring "수학Ⅰ" and "수학Ⅱ", the student who has "미적분" and "수학Ⅰ"
    is not told the name "수학Ⅱ" of the table, written with the numeral
    U+2161; the names of the report are the normal forms. *)
Lemma explicit_report_is_not_the_raw_name :
  ~ (let table :=
       @loadPrereqs SampleHost.host
         [ (Course.calculus,
            [Course.maths ++ Course.roman 1; Course.maths ++ Course.roman 2]) ] in
     let student :=
       [ mkItem Course.calculus; mkItem (Course.maths ++ Course.roman 1) ] in
     @explicitFindings SampleHost.host table student
     = [ (Course.calculus, [Course.maths ++ Course.roman 2]) ]
     \/ @buildChecks SampleHost.host table student
        = Course.calculus ++ Lit.prereq_missing ++ Course.maths ++ Course.roman 2).
Proof. vm_compute. intros [H|H]; discriminate. Qed.

(** ** The sequence check *)

(** Lists that are sorted for a strict order are determined by their
    elements. *)
Section SortedUnique.
Variable A : Type.
Variable lt : A -> A -> Prop.
Hypothesis lt_irrefl : forall x, ~ lt x x.
Hypothesis lt_trans : forall x y z, lt x y -> lt y z -> lt x z.

Lemma StronglySorted_head_not_in (x : A) (l : list A) :
  StronglySorted lt (x :: l) -> ~ In x l.
Proof.
  intros H Hin. apply StronglySorted_inv in H as [_ H].
  rewrite Forall_forall in H. exact (lt_irrefl (H x Hin)).
Qed.

Lemma StronglySorted_NoDup (l : list A) : StronglySorted lt l -> NoDup l.
Proof.
  induction l as [|x l IH]; intros H; constructor.
  - now apply StronglySorted_head_not_in.
  - apply IH. now apply StronglySorted_inv in H.
Qed.

Lemma StronglySorted_unique (l1 l2 : list A) :
  StronglySorted lt l1 -> StronglySorted lt l2 ->
  (forall x, In x l1 <-> In x l2) -> l1 = l2.
Proof.
  revert l2. induction l1 as [|x1 l1 IH]; intros [|x2 l2] H1 H2 Heq.
  - reflexivity.
  - exfalso. apply (proj2 (Heq x2)). now left.
  - exfalso. apply (proj1 (Heq x1)). now left.
  - pose proof (StronglySorted_head_not_in H1) as N1.
    pose proof (StronglySorted_head_not_in H2) as N2.
    apply StronglySorted_inv in H1 as [S1 F1].
    apply StronglySorted_inv in H2 as [S2 F2].
    rewrite Forall_forall in F1, F2.
    assert (E : x1 = x2).
    { destruct (proj1 (Heq x1) (or_introl eq_refl)) as [E|I1]; [now symmetry|].
      destruct (proj2 (Heq x2) (or_introl eq_refl)) as [E|I2]; [assumption|].
      exfalso. exact (lt_irrefl (lt_trans (F1 _ I2) (F2 _ I1))). }
    subst x2. f_equal. apply IH; try assumption.
    intros x. split; intros Hx.
    + destruct (proj1 (Heq x) (or_intror Hx)) as [E|I]; [|exact I].
      subst x. contradiction.
    + destruct (proj2 (Heq x) (or_intror Hx)) as [E|I]; [|exact I].
      subst x. contradiction.
Qed.

Lemma StronglySorted_filter (f : A -> bool) (l : list A) :
  StronglySorted lt l -> StronglySorted lt (filter f l).
Proof.
  induction l as [|x l IH]; intros H; simpl; [constructor|].
  apply StronglySorted_inv in H as [S F].
  destruct (f x); [|now apply IH].
  constructor; [now apply IH|].
  rewrite Forall_forall in *. intros y Hy. apply filter_In in Hy as [Hy _].
  now apply F.
Qed.

End SortedUnique.

Section SequenceCheck.
Context {host : Host}.

Lemma byBaseOf_fold (items : list Item.t) :
  byBaseOf items = fold_left byBaseStep items [].
Proof. reflexivity. Qed.

Lemma byBaseStep_levels (m : JsMap.t (list Z)) (r : Item.t) (b : jsstring) (l : Z) :
  In l (levelsOf (byBaseStep m r) b)
  <-> In l (levelsOf m b)
      \/ parseHierLevel (Some (Item.과목명 r)) = Some {| base := b; level := l |}.
Proof.
  unfold byBaseStep.
  destruct (parseHierLevel (Some (Item.과목명 r))) as [[b0 l0]|]; simpl.
  - unfold levelsOf at 1. rewrite JsFacts.get_set.
    destruct (JsFacts.str_eqb_spec b b0) as [->|Hne].
    + rewrite JsFacts.In_addZ. split.
      * intros [->|H]; [now right|now left].
      * intros [H|[= ->]]; [now right|now left].
    + fold (levelsOf m b). split; [tauto|]. intros [H|[= E _]]; [exact H|].
      congruence.
  - split; [tauto|]. intros [H|H]; [exact H|discriminate].
Qed.

Lemma byBaseStep_nonEmpty (m : JsMap.t (list Z)) (r : Item.t) :
  setsNonEmpty m -> setsNonEmpty (byBaseStep m r).
Proof.
  intros Hm b set. unfold byBaseStep.
  destruct (parseHierLevel (Some (Item.과목명 r))) as [[b0 l0]|]; simpl;
    [|apply Hm].
  rewrite JsFacts.get_set. destruct (Js.str_eqb b b0); [|apply Hm].
  intros [= <-] E.
  assert (H : In l0 (JsSet.add Z.eqb l0 (levelsOf m b0)))
    by (apply JsFacts.In_addZ; now left).
  rewrite E in H. destruct H.
Qed.

Lemma byBaseStep_NoDup (m : JsMap.t (list Z)) (r : Item.t) :
  NoDup (JsMap.keys m) -> NoDup (JsMap.keys (byBaseStep m r)).
Proof.
  intros H. unfold byBaseStep.
  destruct (parseHierLevel (Some (Item.과목명 r))); [|exact H].
  now apply JsFacts.NoDup_keys_set.
Qed.

Lemma byBase_fold_invariant (items : list Item.t) (m : JsMap.t (list Z)) :
  setsNonEmpty m -> NoDup (JsMap.keys m) ->
  setsNonEmpty (fold_left byBaseStep items m)
  /\ NoDup (JsMap.keys (fold_left byBaseStep items m))
  /\ forall b l, In l (levelsOf (fold_left byBaseStep items m) b)
                 <-> In l (levelsOf m b) \/ attained items b l.
Proof.
  revert m. induction items as [|r items IH]; intros m Hne Hnd; simpl.
  - repeat split; try assumption; [tauto|].
    intros [H|[r [[] _]]]. exact H.
  - destruct (IH (byBaseStep m r)) as (H1 & H2 & H3);
      [now apply byBaseStep_nonEmpty|now apply byBaseStep_NoDup|].
    repeat split; try assumption.
    + intros H. apply H3 in H. rewrite byBaseStep_levels in H.
      destruct H as [[H|H]|[r' [Hr' E]]]; [now left| |].
      * right. exists r. split; [now left|assumption].
      * right. exists r'. split; [now right|assumption].
    + intros H. apply H3. rewrite byBaseStep_levels.
      destruct H as [H|[r' [[<-|Hr'] E]]]; [tauto|tauto|].
      right. now exists r'.
Qed.

Lemma byBaseOf_spec (items : list Item.t) :
  NoDup (JsMap.keys (byBaseOf items))
  /\ forall b set, JsMap.get b (byBaseOf items) = Some set ->
                   set <> [] /\ forall l, In l set <-> attained items b l.
Proof.
  rewrite byBaseOf_fold.
  destruct (byBase_fold_invariant items (m := [])) as (H1 & H2 & H3).
  { intros b set. discriminate. }
  { constructor. }
  split; [assumption|]. intros b set Hget. split; [now apply (H1 b)|].
  intros l. specialize (H3 b l). unfold levelsOf in H3. rewrite Hget in H3.
  simpl in H3. tauto.
Qed.

Lemma byBaseOf_attained (items : list Item.t) (b : jsstring) (l : Z) :
  attained items b l -> exists set, JsMap.get b (byBaseOf items) = Some set.
Proof.
  intros H. rewrite byBaseOf_fold.
  destruct (byBase_fold_invariant items (m := [])) as (_ & _ & H3).
  { intros b' set. discriminate. }
  { constructor. }
  assert (Hin : In l (levelsOf (fold_left byBaseStep items []) b))
    by (apply H3; now right).
  unfold levelsOf in Hin.
  destruct (JsMap.get b (fold_left byBaseStep items [])) as [set|];
    [now exists set|destruct Hin].
Qed.

Lemma fold_max_spec (l : list Z) (x : Z) :
  (fold_left Z.max l x = x \/ In (fold_left Z.max l x) l)
  /\ (x <= fold_left Z.max l x)%Z
  /\ forall y, In y l -> (y <= fold_left Z.max l x)%Z.
Proof.
  revert x. induction l as [|a l IH]; intros x; simpl.
  - split; [now left|]. split; [lia|]. intros y [].
  - destruct (IH (Z.max x a)) as (H1 & H2 & H3).
    split; [|split].
    + destruct H1 as [H1|H1]; [|tauto]. rewrite H1.
      destruct (Z.max_spec x a) as [[_ ->]|[_ ->]]; tauto.
    + lia.
    + intros y [<-|Hy]; [lia|now apply H3].
Qed.

Lemma Math_max_spec (set : list Z) :
  set <> [] ->
  In (Math_max set) set /\ forall y, In y set -> (y <= Math_max set)%Z.
Proof.
  destruct set as [|x l]; [congruence|]. intros _. simpl.
  destruct (fold_max_spec l x) as (H1 & H2 & H3). split.
  - destruct H1 as [->|H1]; tauto.
  - intros y [<-|Hy]; [assumption|now apply H3].
Qed.

Lemma In_upTo (a n : nat) (i : Z) :
  In i (map Z.of_nat (seq a n)) <-> (Z.of_nat a <= i < Z.of_nat a + Z.of_nat n)%Z.
Proof.
  rewrite in_map_iff. split.
  - intros [k [<- Hk]]. apply in_seq in Hk. lia.
  - intros H. exists (Z.to_nat i). split; [lia|]. apply in_seq. lia.
Qed.

Lemma upTo_sorted (a n : nat) : StronglySorted Z.lt (map Z.of_nat (seq a n)).
Proof.
  revert a. induction n as [|n IH]; intros a; simpl; constructor.
  - apply IH.
  - rewrite Forall_forall. intros i Hi. apply In_upTo in Hi. lia.
Qed.

Lemma In_missingBelow (max : Z) (set : list Z) (i : Z) :
  In i (missingBelow max set) <-> (1 <= i < max)%Z /\ ~ In i set.
Proof.
  unfold missingBelow. rewrite filter_In, In_upTo, negb_true_iff.
  pose proof (JsFacts.hasZ_In i set) as Hh.
  destruct (JsSet.has Z.eqb i set).
  - split; [intros [_ H]; discriminate|intros [_ H]; exfalso; tauto].
  - split.
    + intros [H _]. split; [lia|]. intros Hin. apply Hh in Hin. discriminate.
    + intros [H _]. split; [lia|reflexivity].
Qed.

Lemma missingBelow_sorted (max : Z) (set : list Z) :
  StronglySorted Z.lt (missingBelow max set).
Proof. apply StronglySorted_filter, upTo_sorted. Qed.

Lemma In_seqViolations (items : list Item.t) (v : Violation) :
  In v (seqViolations items)
  <-> exists set, JsMap.get (v_base v) (byBaseOf items) = Some set
                  /\ missing v = missingBelow (Math_max set) set
                  /\ missing v <> []
                  /\ have v = Js.sort Z.sub set.
Proof.
  destruct (byBaseOf_spec items) as [Hnd _].
  unfold seqViolations. rewrite in_flat_map. split.
  - intros [[b set] [Hin H]]. cbv zeta in H.
    destruct (missingBelow (Math_max set) set) as [|m ms] eqn:Em; simpl in H;
      [destruct H|].
    destruct H as [<-|[]]. simpl. exists set.
    split; [now apply JsFacts.In_get_Some|].
    split; [now rewrite Em|]. split; [discriminate|reflexivity].
  - intros [set (Hget & Hm & Hne & Hh)]. exists (v_base v, set).
    split; [now apply JsFacts.get_Some_In|]. cbv zeta.
    rewrite <- Hm, <- Hh.
    destruct v as [b h [|m ms]]; simpl in *; [congruence|now left].
Qed.

Lemma seqViolations_bases (m : JsMap.t (list Z)) (g : jsstring * list Z -> list Violation) :
  (forall e v, In v (g e) -> v_base v = fst e) ->
  (forall e, (length (g e) <= 1)%nat) ->
  NoDup (JsMap.keys m) -> NoDup (map v_base (flat_map g m)).
Proof.
  intros Hb Hl. induction m as [|e m IH]; intros Hnd; simpl; [constructor|].
  inversion Hnd as [|? ? Hni Hnd']; subst.
  rewrite map_app.
  destruct (g e) as [|v [|v' vs]] eqn:Eg; simpl.
  - now apply IH.
  - constructor; [|now apply IH].
    rewrite (Hb e v) by (rewrite Eg; now left).
    intros Hin. apply in_map_iff in Hin as [w [Ew Hw]].
    apply in_flat_map in Hw as [e' [He' Hw]].
    apply Hni. rewrite <- Ew, (Hb e' w Hw). now apply in_map.
  - specialize (Hl e). rewrite Eg in Hl. simpl in Hl. lia.
Qed.

Lemma seqViolations_NoDup (items : list Item.t) :
  NoDup (map v_base (seqViolations items)).
Proof.
  apply seqViolations_bases.
  - intros [b set] v. cbv zeta. destruct (0 <? _)%nat; simpl; [|tauto].
    intros [<-|[]]. reflexivity.
  - intros [b set]. cbv zeta. destruct (0 <? _)%nat; simpl; lia.
  - apply byBaseOf_spec.
Qed.

Lemma seqParts_render (items : list Item.t) :
  seqParts items
  = map (fun v => v_base v ++ Lit.seq_missing
                  ++ Js.join Lit.comma (map Js.String_ (missing v)))
      (seqViolations items).
Proof.
  unfold seqParts, seqViolations. generalize (byBaseOf items) as m.
  induction m as [|[b set] m IH]; [reflexivity|].
  cbn [flat_map]. rewrite map_app, <- IH. f_equal.
  cbv zeta. destruct (0 <? _)%nat; reflexivity.
Qed.

End SequenceCheck.

Section SequenceCheckTheorems.
Context {host : Host}.

Lemma seqViolations_iff (items : list Item.t) (b : jsstring) (miss : list Z) :
  (exists h, In {| v_base := b; have := h; missing := miss |} (seqViolations items))
  <-> exists M, attained items b M
        /\ (forall l, attained items b l -> (l <= M)%Z)
        /\ miss <> []
        /\ StronglySorted Z.lt miss
        /\ forall i, In i miss <-> (1 <= i < M)%Z /\ ~ attained items b i.
Proof.
  destruct (byBaseOf_spec items) as [_ Hspec]. split.
  - intros [h Hin]. apply In_seqViolations in Hin as [set (Hget & Hm & Hne & _)].
    simpl in *. destruct (Hspec b set Hget) as [Hset Hel].
    destruct (Math_max_spec Hset) as [Hmax Hub].
    exists (Math_max set). split; [now apply Hel|].
    split; [intros l Hl; now apply Hub, Hel|].
    split; [assumption|]. subst miss.
    split; [apply missingBelow_sorted|].
    intros i. rewrite In_missingBelow, Hel. tauto.
  - intros [M (HM & Hub & Hne & Hsorted & Hel)].
    destruct (byBaseOf_attained HM) as [set Hget].
    destruct (Hspec b set Hget) as [Hset Hin].
    destruct (Math_max_spec Hset) as [Hmax Hub'].
    assert (EM : Math_max set = M).
    { apply Z.le_antisymm; [now apply Hub, Hin|now apply Hub', Hin]. }
    exists (Js.sort Z.sub set). apply In_seqViolations. simpl.
    exists set. split; [assumption|]. split; [|split; [assumption|reflexivity]].
    apply StronglySorted_unique with (lt := Z.lt);
      [exact Z.lt_irrefl|exact Z.lt_trans|assumption|apply missingBelow_sorted|].
    intros i. rewrite In_missingBelow, Hel, EM, Hin. tauto.
Qed.

Lemma In_bases_seqViolations (items : list Item.t) (b : jsstring) :
  In b (map v_base (seqViolations items))
  <-> exists h miss,
        In {| v_base := b; have := h; missing := miss |} (seqViolations items).
Proof.
  rewrite in_map_iff. split.
  - intros [[b' h miss] [E Hin]]. simpl in E. subst b'. now exists h, miss.
  - intros [h [miss Hin]]. now exists {| v_base := b; have := h; missing := miss |}.
Qed.

(** C3, as the code has it.  A base is reported when some level below its
    highest attained level [M] is not attained, with exactly those levels,
    in ascending order, and once; each report is written as the base,
    ": 누락 " and the levels.  A base of which only level 1 is attained is
    not reported; a base of which only one level [L], above 1, is attained
    is reported with every level below [L].  A student with "화학Ⅰ" and
    "화학Ⅲ" gets the one report of level 2 for "화학"; with "화학Ⅱ" as well,
    none. *)
Theorem sequence_check (items : list Item.t) :
  (forall b miss,
     (exists h, In {| v_base := b; have := h; missing := miss |}
                  (seqViolations items)) <->
     exists M, attained items b M
       /\ (forall l, attained items b l -> (l <= M)%Z)
       /\ miss <> []
       /\ StronglySorted Z.lt miss
       /\ forall i, In i miss <-> (1 <= i < M)%Z /\ ~ attained items b i)
  /\ NoDup (map v_base (seqViolations items))
  /\ seqParts items
     = map (fun v => v_base v ++ Lit.seq_missing
                     ++ Js.join Lit.comma (map Js.String_ (missing v)))
         (seqViolations items)
  /\ (forall b, (forall l, attained items b l -> l = 1%Z) ->
        ~ In b (map v_base (seqViolations items)))
  /\ (forall b L, attained items b L ->
        (forall l, attained items b l -> l = L) -> (1 < L)%Z ->
        exists h miss,
          In {| v_base := b; have := h; missing := miss |} (seqViolations items)
          /\ forall i, In i miss <-> (1 <= i < L)%Z)
  /\ (let chem n := mkItem (Course.chemistry ++ Course.roman n) in
      @seqViolations SampleHost.host [chem 1; chem 3]%N
      = [ {| v_base := Course.chemistry; have := [1; 3]%Z; missing := [2]%Z |} ]
      /\ @seqParts SampleHost.host [chem 1; chem 3]%N
         = [ Course.chemistry ++ Lit.seq_missing ++ [50%N] ]
      /\ @seqViolations SampleHost.host [chem 1; chem 2; chem 3]%N = []).
Proof.
  split; [exact (seqViolations_iff items)|].
  split; [exact (seqViolations_NoDup items)|].
  split; [exact (seqParts_render items)|].
  split; [|split].
  - intros b Hone Hin. apply In_bases_seqViolations in Hin as [h [miss Hin]].
    destruct (proj1 (seqViolations_iff items b miss) (ex_intro _ h Hin))
      as [M (HM & _ & Hne & _ & Hel)].
    apply Hone in HM. subst M. destruct miss as [|i miss]; [congruence|].
    destruct (proj1 (Hel i) (or_introl eq_refl)) as [Hi _]. lia.
  - intros b L HL Honly HL1.
    set (miss := missingBelow L []).
    assert (Hmiss : forall i, In i miss <-> (1 <= i < L)%Z).
    { intros i. unfold miss. rewrite In_missingBelow. simpl. tauto. }
    destruct (proj2 (seqViolations_iff items b miss)) as [h Hin].
    + exists L. split; [assumption|].
      split; [intros l Hl; apply Honly in Hl; lia|].
      split.
      { intros E. assert (H1 : In 1%Z miss) by (apply Hmiss; lia).
        rewrite E in H1. destruct H1. }
      split; [apply missingBelow_sorted|].
      intros i. rewrite Hmiss. split; [|tauto].
      intros Hi. split; [assumption|]. intros Ha. apply Honly in Ha. lia.
    + now exists h, miss.
  - split; [|split]; vm_compute; reflexivity.
Qed.

End SequenceCheckTheorems.

(** C3 as it is stated fails: a student whose only course of the base "화학"
    is "화학Ⅱ" has attained one level of it, and level 1 is reported
    missing. *)
Lemma single_level_is_reported :
  ~ (forall (items : list Item.t) (b : jsstring) (l : Z),
       (forall l', @attained SampleHost.host items b l' <-> l' = l) ->
       ~ In b (map v_base (@seqViolations SampleHost.host items))).
Proof.
  intros H.
  apply (H [mkItem (Course.chemistry ++ Course.roman 2)] Course.chemistry 2%Z).
  - intros l'. split.
    + intros [r [[<-|[]] E]]. vm_compute in E. congruence.
    + intros ->. eexists. split; [now left|]. vm_compute. reflexivity.
  - vm_compute. now left.
Qed.

(** ** The text normaliser *)

Module NormFacts.

Lemma DropsWs_refl (s : jsstring) : DropsWs s s.
Proof. induction s; constructor; assumption. Qed.

Lemma DropsWs_trans (s t u : jsstring) : DropsWs s t -> DropsWs t u -> DropsWs s u.
Proof.
  intros H; revert u. induction H as [|c s t H IH|c s t Hc H IH]; intros u Hu.
  - assumption.
  - inversion Hu; subst.
    + apply DropsWs_keep. now apply IH.
    + apply DropsWs_drop; [assumption|]. now apply IH.
  - apply DropsWs_drop; [assumption|]. now apply IH.
Qed.

Lemma DropsWs_Forall (P : N -> Prop) (s t : jsstring) :
  DropsWs s t -> Forall P s -> Forall P t.
Proof.
  induction 1 as [|c s t H IH|c s t Hc H IH]; intros F.
  - constructor.
  - inversion F; subst. constructor; [assumption|now apply IH].
  - inversion F; subst. now apply IH.
Qed.

Lemma DropsWs_existsb (c0 : N) (s t : jsstring) :
  Js.isWhiteSpace c0 = false -> DropsWs s t ->
  existsb (N.eqb c0) t = existsb (N.eqb c0) s.
Proof.
  intros H0. induction 1 as [|c s t H IH|c s t Hc H IH]; simpl.
  - reflexivity.
  - now rewrite IH.
  - rewrite IH. destruct (N.eqb_spec c0 c) as [->|]; [congruence|reflexivity].
Qed.

Lemma DropsWs_trimStart (s t : jsstring) :
  DropsWs s t -> DropsWs (Js.trimStart s) (Js.trimStart t).
Proof.
  induction 1 as [|c s t H IH|c s t Hc H IH]; simpl.
  - constructor.
  - destruct (Js.isWhiteSpace c); [assumption|now constructor].
  - now rewrite Hc.
Qed.

Lemma trimStart_head (s : jsstring) : headIsWs (Js.trimStart s) = false.
Proof.
  induction s as [|c s IH]; simpl; [reflexivity|].
  destruct (Js.isWhiteSpace c) eqn:E; [assumption|exact E].
Qed.

Lemma DropsWs_head (s t : jsstring) :
  DropsWs s t -> headIsWs s = false ->
  match s, t with
  | [], [] => True
  | c :: _, d :: _ => c = d
  | _, _ => False
  end.
Proof.
  destruct 1 as [|c s t H|c s t Hc H]; simpl; intros E.
  - exact I.
  - reflexivity.
  - congruence.
Qed.

Lemma DropsWs_headIsWs (s t : jsstring) :
  DropsWs s t -> headIsWs s = false -> headIsWs t = false.
Proof.
  intros H E. pose proof (DropsWs_head H E) as Hh.
  destruct s, t; try contradiction; [reflexivity|]. now subst.
Qed.

Lemma DropsWs_wsThenSep (sep : N) (s t : jsstring) :
  DropsWs s t -> Js.wsThenSep sep t = Js.wsThenSep sep s.
Proof.
  intros H. apply DropsWs_trimStart in H. unfold Js.wsThenSep.
  pose proof (DropsWs_head H (trimStart_head s)) as Hh.
  destruct (Js.trimStart s), (Js.trimStart t); try contradiction;
    [reflexivity|]. now subst.
Qed.

Lemma DropsWs_clean (sep : N) (s t : jsstring) :
  DropsWs s t -> clean sep s = true -> clean sep t = true.
Proof.
  induction 1 as [|c s t H IH|c s t Hc H IH]; simpl; intros E.
  - reflexivity.
  - apply andb_true_iff in E as [E1 E2]. rewrite (IH E2), andb_true_r.
    destruct (N.eqb c sep).
    + apply negb_true_iff in E1. now rewrite (DropsWs_headIsWs H E1).
    + destruct (Js.isWhiteSpace c); [|reflexivity].
      now rewrite (DropsWs_wsThenSep sep H).
  - apply andb_true_iff in E as [_ E2]. now apply IH.
Qed.

Lemma replaceWsAround_drops (sep : N) (b : bool) (s : jsstring) :
  DropsWs s (Js.replaceWsAround sep b s).
Proof.
  revert b. induction s as [|c s IH]; intros b; simpl; [constructor|].
  destruct (N.eqb_spec c sep) as [->|Hne]; [now constructor|].
  destruct (Js.isWhiteSpace c) eqn:Ec; [|now constructor].
  destruct (b || Js.wsThenSep sep s); now constructor.
Qed.

Lemma stripWsInParens_drops (b : bool) (s : jsstring) :
  DropsWs s (Js.stripWsInParens b s).
Proof.
  revert b. induction s as [|c s IH]; intros b; simpl; [constructor|].
  destruct b.
  - destruct (N.eqb c Js.rparen); [now constructor|].
    destruct (Js.isWhiteSpace c) eqn:Ec; now constructor.
  - destruct (N.eqb c Js.lparen && existsb (N.eqb Js.rparen) s); now constructor.
Qed.

Lemma replaceWsAround_clean (sep : N) (b : bool) (s : jsstring) :
  Js.isWhiteSpace sep = false ->
  clean sep (Js.replaceWsAround sep b s) = true
  /\ (b = true -> headIsWs (Js.replaceWsAround sep b s) = false).
Proof.
  intros Hsep. revert b. induction s as [|c s IH]; intros b; simpl.
  - split; reflexivity.
  - destruct (N.eqb_spec c sep) as [->|Hne].
    + destruct (IH true) as [IH1 IH2]. simpl. rewrite N.eqb_refl.
      rewrite (IH2 eq_refl), IH1. split; [reflexivity|now intros _].
    + destruct (Js.isWhiteSpace c) eqn:Ec.
      * destruct b; simpl.
        -- exact (IH true).
        -- destruct (Js.wsThenSep sep s) eqn:Ew.
           ++ split; [apply IH|discriminate].
           ++ simpl. apply N.eqb_neq in Hne. rewrite Hne, Ec.
              rewrite (DropsWs_wsThenSep sep (replaceWsAround_drops sep false s)), Ew.
              split; [apply IH|discriminate].
      * simpl. apply N.eqb_neq in Hne. rewrite Hne, Ec.
        split; [apply IH|now intros _].
Qed.

Lemma replaceWsAround_fixed (sep : N) (b : bool) (s : jsstring) :
  clean sep s = true -> (b = true -> headIsWs s = false) ->
  Js.replaceWsAround sep b s = s.
Proof.
  revert b. induction s as [|c s IH]; intros b Hc Hb; simpl; [reflexivity|].
  simpl in Hc. apply andb_true_iff in Hc as [Hc1 Hc2].
  destruct (N.eqb_spec c sep) as [->|Hne].
  - f_equal. apply IH; [assumption|]. intros _. now apply negb_true_iff.
  - destruct (Js.isWhiteSpace c) eqn:Ec.
    + assert (Eb : b = false).
      { destruct b; [|reflexivity]. specialize (Hb eq_refl). simpl in Hb. congruence. }
      subst b. apply negb_true_iff in Hc1. rewrite Hc1. simpl.
      f_equal. apply IH; [assumption|discriminate].
    + f_equal. apply IH; [assumption|discriminate].
Qed.

Lemma stripWsInParens_idem (b : bool) (s : jsstring) :
  Js.stripWsInParens b (Js.stripWsInParens b s) = Js.stripWsInParens b s.
Proof.
  revert b. induction s as [|c s IH]; intros b; simpl; [reflexivity|].
  destruct b.
  - destruct (N.eqb c Js.rparen) eqn:Er; simpl.
    + now rewrite Er, IH.
    + destruct (Js.isWhiteSpace c) eqn:Ec; [apply IH|].
      simpl. now rewrite Er, Ec, IH.
  - destruct (N.eqb c Js.lparen && existsb (N.eqb Js.rparen) s) eqn:E; simpl.
    + rewrite (@DropsWs_existsb Js.rparen _ _ eq_refl (stripWsInParens_drops true s)).
      now rewrite E, IH.
    + rewrite (@DropsWs_existsb Js.rparen _ _ eq_refl (stripWsInParens_drops false s)).
      now rewrite E, IH.
Qed.

Lemma replaceUnits_fixed (X : N -> bool) (y : N) (s : jsstring) :
  Forall (fixedBy X y) s -> Js.replaceUnits X y s = s.
Proof.
  induction 1 as [|c s Hc H IH]; simpl; [reflexivity|]. now rewrite Hc, IH.
Qed.

Lemma replaceUnits_Forall (X : N -> bool) (y : N) (P : N -> Prop) (s : jsstring) :
  P y -> Forall P s -> Forall P (Js.replaceUnits X y s).
Proof.
  intros Hy. induction 1 as [|c s Hc H IH]; simpl; constructor; try assumption.
  now destruct (X c).
Qed.

Lemma replaceUnits_Forall_fixed (X : N -> bool) (y : N) (s : jsstring) :
  X y = true -> Forall (fixedBy X y) (Js.replaceUnits X y s).
Proof.
  intros Hy. induction s as [|c s IH]; simpl; constructor; [|assumption].
  unfold fixedBy. destruct (X c) eqn:E; [now rewrite Hy|now rewrite E].
Qed.

Lemma replaceUnits_wideSlash_Forall_fixed (s : jsstring) :
  Forall (fixedBy Lit.isWideSlash Lit.slash)
    (Js.replaceUnits Lit.isWideSlash Lit.slash s).
Proof.
  induction s as [|c s IH]; simpl; constructor; [|assumption].
  unfold fixedBy. destruct (Lit.isWideSlash c) eqn:E; [reflexivity|now rewrite E].
Qed.

Lemma afterNFKC_idem (x : jsstring) : afterNFKC (afterNFKC x) = afterNFKC x.
Proof.
  unfold afterNFKC at 2 3.
  set (d := Js.replaceUnits Lit.isDot Lit.dot x).
  set (w := Js.replaceUnits Lit.isWideSlash Lit.slash d).
  set (rd := Js.replaceWsAround Lit.dot false w).
  set (rs := Js.replaceWsAround Lit.slash false rd).
  set (y := Js.stripWsInParens false rs).
  assert (Dw_rd : DropsWs w rd) by apply replaceWsAround_drops.
  assert (Drd_rs : DropsWs rd rs) by apply replaceWsAround_drops.
  assert (Drs_y : DropsWs rs y) by apply stripWsInParens_drops.
  assert (Dw_y : DropsWs w y)
    by (eapply DropsWs_trans; [exact Dw_rd|]; eapply DropsWs_trans; eassumption).
  assert (Fd : Forall (fixedBy Lit.isDot Lit.dot) y).
  { apply (DropsWs_Forall Dw_y). apply replaceUnits_Forall; [reflexivity|].
    apply replaceUnits_Forall_fixed. reflexivity. }
  assert (Fw : Forall (fixedBy Lit.isWideSlash Lit.slash) y).
  { apply (DropsWs_Forall Dw_y). apply replaceUnits_wideSlash_Forall_fixed. }
  assert (Cd : clean Lit.dot y = true).
  { apply (DropsWs_clean Lit.dot (DropsWs_trans Drd_rs Drs_y)).
    now apply replaceWsAround_clean. }
  assert (Cs : clean Lit.slash y = true).
  { apply (DropsWs_clean Lit.slash Drs_y). now apply replaceWsAround_clean. }
  unfold afterNFKC.
  rewrite (replaceUnits_fixed Fd), (replaceUnits_fixed Fw).
  rewrite (@replaceWsAround_fixed Lit.dot false y Cd) by discriminate.
  rewrite (@replaceWsAround_fixed Lit.slash false y Cs) by discriminate.
  apply stripWsInParens_idem.
Qed.

End NormFacts.

Section Idempotence.
Context {host : Host}.

Lemma normalized_afterNFKC (s : jsstring) : normalized s = afterNFKC (NFKC s).
Proof. reflexivity. Qed.

(** C7, as the code has it.  Both normalisations are total functions.  The
    steps that follow NFKC are idempotent; so the chain of [canonGroup]
    gives the same again on any of its results that NFKC leaves as it is,
    and [normCourseName] gives the same again on any of its results that is
    not empty and that trimming and NFKC leave as they are. *)
Theorem normalisation_idempotent_when_stable (s : jsstring) :
  (forall x, afterNFKC (afterNFKC x) = afterNFKC x)
  /\ (NFKC (normalized s) = normalized s ->
      normalized (normalized s) = normalized s)
  /\ (forall r, normCourseName (Some s) = Some r ->
        r <> [] -> Js.trim r = r -> NFKC r = r ->
        normCourseName (Some r) = Some r).
Proof.
  split; [exact NormFacts.afterNFKC_idem|]. split.
  - intros H. rewrite (normalized_afterNFKC (normalized s)), H.
    rewrite normalized_afterNFKC. apply NormFacts.afterNFKC_idem.
  - intros r Hr Hne Htrim Hfix. unfold normCourseName in *.
    destruct (Js.nonEmpty s); simpl in Hr; [|discriminate].
    apply JsFacts.nonEmpty_true in Hne. rewrite Hne. simpl.
    rewrite Htrim, Hfix. injection Hr as <-.
    now rewrite NormFacts.stripWsInParens_idem.
Qed.

End Idempotence.

Lemma normalisation_idempotent_sample :
  @normalized SampleHost.host (@normalized SampleHost.host sampleLabel)
  = @normalized SampleHost.host sampleLabel
  /\ @normCourseName SampleHost.host (Some [40; 97; 98; 41; 32; 120]%N)
     = Some [40; 97; 98; 41; 32; 120]%N.
Proof.
  split.
  - apply (proj1 (proj2 (@normalisation_idempotent_when_stable
                           SampleHost.host sampleLabel))).
    vm_compute. reflexivity.
  - apply (proj2 (proj2 (@normalisation_idempotent_when_stable
                           SampleHost.host sampleName))).
    + vm_compute. reflexivity.
    + discriminate.
    + vm_compute. reflexivity.
    + vm_compute. reflexivity.
Defined.

(** C7 as it is stated fails: [normCourseName] turns the acute accent U+00B4
    into a space and U+0301, and turns that into U+0301 alone. *)
Lemma normCourseName_not_idempotent :
  ~ (forall s : jsstring,
       @normCourseName SampleHost.host (@normCourseName SampleHost.host (Some s))
       = @normCourseName SampleHost.host (Some s)).
Proof. intros H. specialize (H [0xB4%N]). vm_compute in H. discriminate. Qed.

(** ** The rounding of numbers *)

Module RoundFacts.








End RoundFacts.

(** ** The sums, the ratio and its flag *)

Section Aggregation.
Context {host : Host}.





End Aggregation.


Section KoreanHistory.
Context {host : Host}.

Lemma isKoreanHistory_names (name : jsstring) :
  name <> [] ->
  (isKoreanHistory (Some name) = true
   <-> In (NFKC (Js.trim name)) koreanHistoryNames).
Proof.
  intros Hne. unfold isKoreanHistory.
  apply JsFacts.nonEmpty_true in Hne. rewrite Hne. cbv zeta. simpl negb. cbv iota.
  rewrite !orb_true_iff, !JsFacts.str_eqb_eq. unfold koreanHistoryNames. simpl.
  intuition congruence.
Qed.

Lemma khOnly_from (items items' : list Item.t) (a : float) :
  map (fun i => (Item.과목명 i, Item.학점 i)) items
  = map (fun i => (Item.과목명 i, Item.학점 i)) items' ->
  fold_left
    (fun sum r =>
       (sum + (if isKoreanHistory (Some (Item.과목명 r))
               then Num.orZero (Item.학점 r) else 0))%float) items a
  = fold_left
      (fun sum r =>
         (sum + (if isKoreanHistory (Some (Item.과목명 r))
                 then Num.orZero (Item.학점 r) else 0))%float) items' a.
Proof.
  revert items' a. induction items as [|r items IH]; intros [|r' items'] a E;
    try discriminate; [reflexivity|].
  simpl in E. injection E as En Ec E. cbn [fold_left].
  rewrite En, Ec. now apply IH.
Qed.

(** C10.  The sum of the Korean-history credits reads the course names and
    the credits only, whatever the groups are.  A row that is named as one
    of the three variants and sits in a foundation group adds its credit
    to the total, to the foundation sum and to the Korean-history sum; so
    a student with 3 credits of "한국사" entered under "국어" has the total 3,
    both sums 3, and the ratio 200. *)
Theorem korean_history_counted_twice (items : list Item.t) (r : Item.t) :
  (forall items',
     map (fun i => (Item.과목명 i, Item.학점 i)) items
     = map (fun i => (Item.과목명 i, Item.학점 i)) items' ->
     khOnlyOf items = khOnlyOf items')
  /\ (Item.과목명 r <> [] ->
      In (NFKC (Js.trim (Item.과목명 r))) koreanHistoryNames ->
      In (Item.교과 r) foundation ->
      totalOf (items ++ [r]) = (totalOf items + Num.orZero (Item.학점 r))%float
      /\ baseOnlyOf (items ++ [r])
         = (baseOnlyOf items + Num.orZero (Item.학점 r))%float
      /\ khOnlyOf (items ++ [r])
         = (khOnlyOf items + Num.orZero (Item.학점 r))%float)
  /\ (exists row,
        @exportAll SampleHost.host [] Sample.rowsTwice = Some ([Lit.korean], [row])
        /\ Summary.전체이수학점 row = 3%float
        /\ Summary.기초교과학점 row = 3%float
        /\ Summary.한국사학점 row = 3%float
        /\ Summary.비율 row = 200%float
        /\ (Summary.전체이수학점 row
            <? Summary.기초교과학점 row + Summary.한국사학점 row)%float = true
        /\ (100 <? Summary.비율 row)%float = true).
Proof.
  split; [|split].
  - intros items' E. unfold khOnlyOf. now apply khOnly_from.
  - intros Hne Hkh Hf.
    apply (isKoreanHistory_names Hne) in Hkh. apply JsFacts.has_In in Hf.
    unfold totalOf, baseOnlyOf, khOnlyOf. rewrite !fold_left_app.
    cbn [fold_left]. now rewrite Hkh, Hf.
  - eexists. split; [vm_compute; reflexivity|].
    repeat split; vm_compute; reflexivity.
Qed.

End KoreanHistory.

Lemma korean_history_counted_twice_sample :
  let r := @itemOf SampleHost.host (rowOf Lit.korean Lit.korean_history 3) in
  @khOnlyOf SampleHost.host ([] ++ [r]) = 3%float
  /\ @baseOnlyOf ([] ++ [r]) = 3%float.
Proof.
  cbv zeta.
  destruct (proj1 (proj2 (@korean_history_counted_twice SampleHost.host []
              (@itemOf SampleHost.host (rowOf Lit.korean Lit.korean_history 3)))))
    as (_ & Hb & Hk).
  - discriminate.
  - vm_compute. now left.
  - vm_compute. now left.
  - split; [rewrite Hk|rewrite Hb]; vm_compute; reflexivity.
Defined.

(** ** The order of the export *)

Module KeyFacts.

Lemma lexLt_irrefl (a : Z * Z * Z) : ~ lexLt a a.
Proof. destruct a as [[g c] n]. simpl. lia. Qed.

Lemma lexLt_trans (a b c : Z * Z * Z) : lexLt a b -> lexLt b c -> lexLt a c.
Proof.
  destruct a as [[g1 c1] n1], b as [[g2 c2] n2], c as [[g3 c3] n3]. simpl. lia.
Qed.

Lemma lexLt_total (a b : Z * Z * Z) : a <> b -> lexLt a b \/ lexLt b a.
Proof.
  destruct a as [[g1 c1] n1], b as [[g2 c2] n2]. simpl. intros H.
  destruct (Z.eq_dec g1 g2) as [->|]; [|lia].
  destruct (Z.eq_dec c1 c2) as [->|]; [|lia].
  destruct (Z.eq_dec n1 n2) as [->|]; [congruence|lia].
Qed.

Lemma digitsValue_pos (d : Decimal.uint) (acc : positive) :
  Js.digitsValue (Zpos acc) (Js.uintUnits d)
  = Some (Zpos (Pos.of_uint_acc d acc)).
Proof.
  revert acc. induction d as [|d IH|d IH|d IH|d IH|d IH|d IH|d IH|d IH|d IH|d IH];
    intros acc; cbn [Js.uintUnits Js.digitsValue Pos.of_uint_acc];
    [reflexivity|..];
    match goal with
    | |- context [Js.digitsValue ?v _] =>
        match goal with
        | |- _ = Some (Zpos (Pos.of_uint_acc _ ?a)) =>
            replace v with (Zpos a)
              by (match goal with
                  | |- context [Z.of_N ?e] =>
                      let e' := eval vm_compute in (Z.of_N e) in
                      change (Z.of_N e) with e'
                  end; lia)
        end
    end; apply IH.
Qed.

Lemma digitsValue_zero (d : Decimal.uint) :
  Js.digitsValue 0 (Js.uintUnits d) = Some (Z.of_N (Pos.of_uint d)).
Proof.
  induction d as [|d IH|d IH|d IH|d IH|d IH|d IH|d IH|d IH|d IH|d IH];
    cbn [Js.uintUnits Js.digitsValue Pos.of_uint];
    [reflexivity|exact IH|..]; apply digitsValue_pos.
Qed.

Lemma Number_String (z : Z) : (0 <= z)%Z -> Js.Number_ (Js.String_ z) = Some z.
Proof.
  destruct z as [|p|p]; intros H; [reflexivity| |lia].
  unfold Js.Number_, Js.String_. rewrite digitsValue_zero.
  now rewrite DecimalPos.Unsigned.of_to.
Qed.

Lemma uintUnits_digits (d : Decimal.uint) :
  Forall (fun c => c <> Js.minus) (Js.uintUnits d).
Proof. induction d; simpl; constructor; try assumption; discriminate. Qed.

Lemma String_no_minus (z : Z) : (0 <= z)%Z -> ~ In Js.minus (Js.String_ z).
Proof.
  destruct z as [|p|p]; intros H; [|  |lia].
  - intros [E|[]]. discriminate.
  - intros Hin. pose proof (uintUnits_digits (Pos.to_uint p)) as F.
    rewrite Forall_forall in F. now apply (F _ Hin).
Qed.

Lemma split_no_sep (sep : N) (cur s : jsstring) :
  ~ In sep s -> Js.split sep cur s = [cur ++ s].
Proof.
  revert cur. induction s as [|c s IH]; intros cur H; simpl.
  - now rewrite app_nil_r.
  - destruct (N.eqb_spec c sep) as [->|Hne]; [exfalso; apply H; now left|].
    rewrite IH by (intros Hin; apply H; now right).
    now rewrite <- app_assoc.
Qed.

Lemma split_at (sep : N) (cur s rest : jsstring) :
  ~ In sep s ->
  Js.split sep cur (s ++ sep :: rest) = (cur ++ s) :: Js.split sep [] rest.
Proof.
  revert cur. induction s as [|c s IH]; intros cur H; simpl.
  - now rewrite N.eqb_refl, app_nil_r.
  - destruct (N.eqb_spec c sep) as [->|Hne]; [exfalso; apply H; now left|].
    rewrite IH by (intros Hin; apply H; now right).
    now rewrite <- app_assoc.
Qed.

Lemma keyNumbers_keyOf (g c n : Z) :
  (0 <= g)%Z -> (0 <= c)%Z -> (0 <= n)%Z ->
  keyNumbers (keyOf g c n) = (Some g, Some c, Some n).
Proof.
  intros Hg Hc Hn. unfold keyNumbers, keyOf. simpl app.
  rewrite split_at by now apply String_no_minus.
  rewrite split_at by now apply String_no_minus.
  rewrite split_no_sep by now apply String_no_minus.
  simpl. now rewrite !Number_String.
Qed.

Lemma numsOf_keyOf (g c n : Z) :
  (0 <= g)%Z -> (0 <= c)%Z -> (0 <= n)%Z ->
  numsOf (keyOf g c n) = Some (g, c, n).
Proof. intros Hg Hc Hn. unfold numsOf. now rewrite keyNumbers_keyOf. Qed.

Lemma compareKeys_keyLt (a b : jsstring) (ta tb : Z * Z * Z) :
  numsOf a = Some ta -> numsOf b = Some tb ->
  ((compareKeys a b < 0)%Z <-> lexLt ta tb).
Proof.
  unfold numsOf, compareKeys. 
  destruct (keyNumbers a) as [[[g1|] [c1|]] [n1|]]; try discriminate.
  destruct (keyNumbers b) as [[[g2|] [c2|]] [n2|]]; try discriminate.
  intros [= <-] [= <-]. simpl.
  destruct (Z.eqb_spec (g1 - g2) 0) as [Eg|Eg]; simpl.
  - destruct (Z.eqb_spec (c1 - c2) 0) as [Ec|Ec]; simpl; lia.
  - destruct (Z.eqb_spec (g1 - g2) 0); simpl; lia.
Qed.

End KeyFacts.

Section SortFacts.
Variable A : Type.
Variable cmp : A -> A -> Z.
Variable lt : A -> A -> Prop.
Variable good : A -> Prop.
Hypothesis cmp_lt : forall x y, good x -> good y -> ((cmp x y < 0)%Z <-> lt x y).
Hypothesis lt_trans : forall x y z, lt x y -> lt y z -> lt x z.
Hypothesis lt_total : forall x y, good x -> good y -> x <> y -> lt x y \/ lt y x.

Lemma insertBy_perm (x : A) (l : list A) :
  Permutation (Js.insertBy cmp x l) (x :: l).
Proof.
  induction l as [|y l IH]; simpl; [reflexivity|].
  destruct (cmp x y <? 0)%Z; [reflexivity|].
  rewrite IH. apply perm_swap.
Qed.

Lemma insertBy_sorted (x : A) (l : list A) :
  good x -> Forall good l -> ~ In x l ->
  StronglySorted lt l -> StronglySorted lt (Js.insertBy cmp x l).
Proof.
  intros Hx. induction l as [|y l IH]; intros Hg Hni Hs; simpl.
  - repeat constructor.
  - inversion Hg as [|? ? Hy Hg']; subst.
    apply StronglySorted_inv in Hs as [Hs Hall].
    destruct (Z.ltb_spec (cmp x y) 0) as [Hlt|Hge].
    + apply (cmp_lt Hx Hy) in Hlt.
      constructor; [now constructor|]. constructor; [assumption|].
      rewrite Forall_forall in *. intros z Hz. eapply lt_trans; eauto.
    + assert (Hyx : lt y x).
      { destruct (@lt_total x y Hx Hy) as [H|H]; [|exfalso|exact H].
        - intros ->. apply Hni. now left.
        - apply (cmp_lt Hx Hy) in H. lia. }
      constructor.
      * apply IH; [assumption| |assumption]. intros Hin. apply Hni. now right.
      * rewrite Forall_forall in *. intros z Hz.
        apply (Permutation_in _ (insertBy_perm x l)) in Hz.
        destruct Hz as [<-|Hz]; [assumption|now apply Hall].
Qed.

Lemma sort_from_perm (l acc : list A) :
  Permutation (fold_left (fun acc x => Js.insertBy cmp x acc) l acc) (acc ++ l).
Proof.
  revert acc. induction l as [|x l IH]; intros acc; simpl.
  - now rewrite app_nil_r.
  - rewrite IH, insertBy_perm. apply Permutation_middle.
Qed.

Lemma sort_perm (l : list A) : Permutation (Js.sort cmp l) l.
Proof. unfold Js.sort. now rewrite sort_from_perm. Qed.

Lemma sort_from_sorted (l acc : list A) :
  Forall good acc -> Forall good l -> NoDup (acc ++ l) ->
  StronglySorted lt acc ->
  StronglySorted lt (fold_left (fun acc x => Js.insertBy cmp x acc) l acc).
Proof.
  revert acc. induction l as [|x l IH]; intros acc Ga Gl Hnd Hs; simpl;
    [assumption|].
  inversion Gl as [|? ? Gx Gl']; subst.
  assert (Hni : ~ In x acc).
  { apply NoDup_remove_2 in Hnd. intros Hin. apply Hnd.
    apply in_or_app. now left. }
  apply IH.
  - rewrite Forall_forall in *. intros z Hz.
    apply (Permutation_in _ (insertBy_perm x acc)) in Hz.
    destruct Hz as [<-|Hz]; [assumption|now apply Ga].
  - assumption.
  - apply (Permutation_NoDup (l := acc ++ x :: l)); [|assumption].
    rewrite insertBy_perm. symmetry. apply Permutation_middle.
  - now apply insertBy_sorted.
Qed.

Lemma sort_sorted (l : list A) :
  Forall good l -> NoDup l -> StronglySorted lt (Js.sort cmp l).
Proof.
  intros Hg Hnd. unfold Js.sort. apply sort_from_sorted; try assumption;
    constructor.
Qed.

End SortFacts.

Module ExportFacts.

Lemma byStuOf_fold (rows : list Row) : byStuOf rows = fold_left byStuStep rows [].
Proof. reflexivity. Qed.

Lemma byStuOf_snoc (rows : list Row) (r : Row) :
  byStuOf (rows ++ [r]) = byStuStep (byStuOf rows) r.
Proof. rewrite !byStuOf_fold. now rewrite fold_left_app. Qed.

Lemma byStuStep_skip (m : JsMap.t Student.t) (r : Row) :
  (forall t, ~ rowOfStudent r t) -> byStuStep m r = m.
Proof.
  intros H. unfold byStuStep.
  destruct (학년 r) as [g|] eqn:Eg; [|reflexivity].
  destruct (반 r) as [c|] eqn:Ec; [|reflexivity].
  destruct (번호 r) as [n|] eqn:En; [|reflexivity].
  exfalso. apply (H (g, c, n)). simpl. auto.
Qed.

Lemma rowOfStudent_dec (r : Row) :
  (exists t, rowOfStudent r t) \/ (forall t, ~ rowOfStudent r t).
Proof.
  destruct (학년 r) as [g|] eqn:Eg;
    [|right; intros [[g c] n] (H & _); simpl in H; congruence].
  destruct (반 r) as [c|] eqn:Ec;
    [|right; intros [[g' c] n] (_ & H & _); simpl in H; congruence].
  destruct (번호 r) as [n|] eqn:En;
    [|right; intros [[g' c'] n] (_ & _ & H); simpl in H; congruence].
  left. exists (g, c, n). simpl. auto.
Qed.

Lemma byStuStep_take (m : JsMap.t Student.t) (r : Row) (g c n : Z) :
  rowOfStudent r (g, c, n) ->
  exists s, byStuStep m r = JsMap.set (keyOf g c n) s m
            /\ fieldsOf s
               = match JsMap.get (keyOf g c n) m with
                 | Some ent => fieldsOf ent
                 | None => (g, c, n)
                 end.
Proof.
  intros (Eg & Ec & En). unfold byStuStep. rewrite Eg, Ec, En. cbv zeta.
  eexists. split; [reflexivity|].
  destruct (JsMap.get (keyOf g c n) m); reflexivity.
Qed.

Lemma byStuOf_inv (rows : list Row) : byStuInv rows (byStuOf rows).
Proof.
  induction rows as [|r rows IH] using rev_ind.
  - split; [constructor|]. split.
    + intros k. split; [intros []|]. intros (r & g & c & n & [] & _).
    + intros k s. discriminate.
  - rewrite byStuOf_snoc. destruct IH as (Hnd & Hkeys & Hent).
    destruct (rowOfStudent_dec r) as [[[[g c] n] Hr]|Hno].
    + destruct (@byStuStep_take (byStuOf rows) r g c n Hr) as [s [-> Hs]].
      split; [now apply JsFacts.NoDup_keys_set|]. split.
      * intros k. rewrite JsFacts.In_keys_set, Hkeys. split.
        -- intros [->|(r' & g' & c' & n' & Hin & Hr' & ->)].
           ++ exists r, g, c, n. split; [apply in_or_app; right; now left|auto].
           ++ exists r', g', c', n'. split; [apply in_or_app; now left|auto].
        -- intros (r' & g' & c' & n' & Hin & Hr' & ->).
           apply in_app_or in Hin as [Hin|[<-|[]]].
           ++ right. now exists r', g', c', n'.
           ++ left. destruct Hr as (E1 & E2 & E3), Hr' as (E1' & E2' & E3').
              congruence.
      * intros k s'. rewrite JsFacts.get_set.
        destruct (JsFacts.str_eqb_spec k (keyOf g c n)) as [->|Hne].
        -- intros [= <-].
           destruct (JsMap.get (keyOf g c n) (byStuOf rows)) as [ent|] eqn:Eget.
           ++ destruct (Hent _ _ Eget) as [Hk [r' [Hin Hr']]].
              rewrite Hs. split; [exact Hk|].
              exists r'. split; [apply in_or_app; now left|assumption].
           ++ rewrite Hs. split; [reflexivity|].
              exists r. split; [apply in_or_app; right; now left|assumption].
        -- intros Hget. destruct (Hent _ _ Hget) as [Hk [r' [Hin Hr']]].
           split; [exact Hk|]. exists r'.
           split; [apply in_or_app; now left|assumption].
    + rewrite (@byStuStep_skip (byStuOf rows) r Hno). split; [assumption|]. split.
      * intros k. rewrite Hkeys. split.
        -- intros (r' & g & c & n & Hin & Hr' & ->).
           exists r', g, c, n. split; [apply in_or_app; now left|auto].
        -- intros (r' & g & c & n & Hin & Hr' & ->).
           apply in_app_or in Hin as [Hin|[<-|[]]];
             [now exists r', g, c, n|].
           exfalso. exact (Hno _ Hr').
      * intros k s Hget. destruct (Hent _ _ Hget) as [Hk [r' [Hin Hr']]].
        split; [exact Hk|]. exists r'.
        split; [apply in_or_app; now left|assumption].
Qed.

Lemma keyLt_trans (a b c : jsstring) : keyLt a b -> keyLt b c -> keyLt a c.
Proof.
  unfold keyLt. destruct (numsOf a), (numsOf b), (numsOf c); try tauto.
  apply KeyFacts.lexLt_trans.
Qed.

Lemma goodKey_numsOf (k : jsstring) :
  goodKey k -> exists t, numsOf k = Some t /\ nonNegative t
                         /\ (let '(g, c, n) := t in k = keyOf g c n).
Proof.
  intros (g & c & n & Hnn & ->). exists (g, c, n).
  destruct Hnn as (Hg & Hc & Hn).
  split; [now apply KeyFacts.numsOf_keyOf|]. split; [simpl; auto|reflexivity].
Qed.

Lemma compareKeys_good (a b : jsstring) :
  goodKey a -> goodKey b -> ((compareKeys a b < 0)%Z <-> keyLt a b).
Proof.
  intros Ha Hb.
  destruct (@goodKey_numsOf _ Ha) as [ta [Ea _]].
  destruct (@goodKey_numsOf _ Hb) as [tb [Eb _]].
  unfold keyLt. rewrite Ea, Eb. now apply KeyFacts.compareKeys_keyLt.
Qed.

Lemma keyLt_total (a b : jsstring) :
  goodKey a -> goodKey b -> a <> b -> keyLt a b \/ keyLt b a.
Proof.
  intros Ha Hb Hne.
  destruct (@goodKey_numsOf _ Ha) as [[[g1 c1] n1] (Ea & _ & Ka)].
  destruct (@goodKey_numsOf _ Hb) as [[[g2 c2] n2] (Eb & _ & Kb)].
  unfold keyLt. rewrite Ea, Eb. apply KeyFacts.lexLt_total. congruence.
Qed.

Lemma sorted_idents (ks : list jsstring) (l : list (Z * Z * Z)) :
  map Some l = map numsOf ks ->
  StronglySorted keyLt ks -> StronglySorted lexLt l.
Proof.
  revert l. induction ks as [|k ks IH]; intros [|t l] E Hs; try discriminate;
    [constructor|].
  simpl in E. injection E as Ek E.
  apply StronglySorted_inv in Hs as [Hs Hall].
  constructor; [now apply IH|].
  rewrite Forall_forall in *. intros t' Ht'.
  assert (Hin : In (Some t') (map numsOf ks))
    by (rewrite <- E; now apply in_map).
  apply in_map_iff in Hin as [k' [Ek' Hk']].
  specialize (Hall k' Hk'). unfold keyLt in Hall.
  now rewrite <- Ek, Ek' in Hall.
Qed.

End ExportFacts.

Section ExportOrder.
Context {host : Host}.
Variable PREREQS : JsMap.t (list jsstring).

Lemma idents_of_keys (groups : list jsstring) (byStu : JsMap.t Student.t)
  (ks : list jsstring) :
  (forall k, In k ks ->
     exists s, JsMap.get k byStu = Some s /\ numsOf k = Some (fieldsOf s)) ->
  map Some
    (map ident
       (flat_map (fun key => match JsMap.get key byStu with
                             | Some s => [summaryOf PREREQS groups s]
                             | None => []
                             end) ks))
  = map numsOf ks.
Proof.
  induction ks as [|k ks IH]; intros H; [reflexivity|].
  cbn [flat_map]. destruct (H k (or_introl eq_refl)) as [s [Hget Hn]].
  rewrite Hget. cbn [app map]. rewrite IH by (intros k' Hk'; apply H; now right).
  now rewrite Hn.
Qed.

Lemma export_sorted_and_complete (rows : list Row) (groups : list jsstring)
  (out : list Summary.t) :
  (forall r t, In r rows -> rowOfStudent r t -> nonNegative t) ->
  exportAll PREREQS rows = Some (groups, out) ->
  StronglySorted lexLt (map ident out)
  /\ forall t, In t (map ident out) <-> exists r, In r rows /\ rowOfStudent r t.
Proof.
  intros Hnn Hexp.
  destruct (ExportFacts.byStuOf_inv rows) as (Hnd & Hkeys & Hent).
  set (byStu := byStuOf rows) in *.
  set (ks := Js.sort compareKeys (JsMap.keys byStu)).
  assert (Hout : out = flat_map (fun key => match JsMap.get key byStu with
                                            | Some s => [summaryOf PREREQS groups s]
                                            | None => []
                                            end) ks).
  { unfold exportAll in Hexp. destruct rows as [|r0 rows0]; [discriminate|].
    now injection Hexp as <- <-. }
  assert (Hperm : Permutation ks (JsMap.keys byStu)) by apply sort_perm.
  assert (Hgood : Forall goodKey (JsMap.keys byStu)).
  { rewrite Forall_forall. intros k Hk.
    apply Hkeys in Hk as (r & g & c & n & Hin & Hr & ->).
    exists g, c, n. split; [exact (Hnn r (g, c, n) Hin Hr)|reflexivity]. }
  assert (Hsorted : StronglySorted keyLt ks).
  { apply sort_sorted with (good := goodKey); try assumption.
    - exact ExportFacts.compareKeys_good.
    - exact ExportFacts.keyLt_trans.
    - exact ExportFacts.keyLt_total. }
  assert (Hks : forall k, In k ks ->
            exists s, JsMap.get k byStu = Some s /\ numsOf k = Some (fieldsOf s)).
  { intros k Hk. apply (Permutation_in _ Hperm) in Hk.
    destruct (JsMap.get k byStu) as [s|] eqn:Hget;
      [|now apply JsFacts.get_None_keys in Hget].
    exists s. split; [reflexivity|].
    destruct (Hent k s Hget) as [Hkey [r [Hin Hr]]].
    pose proof (Hnn r _ Hin Hr) as Hs.
    destruct (fieldsOf s) as [[g c] n]. subst k.
    destruct Hs as (Hg & Hc & Hn). now apply KeyFacts.numsOf_keyOf. }
  pose proof (idents_of_keys groups byStu ks Hks) as Hmap.
  rewrite <- Hout in Hmap.
  split; [exact (ExportFacts.sorted_idents _ Hmap Hsorted)|].
  intros t. split.
  - intros Ht. apply (in_map Some) in Ht. rewrite Hmap in Ht.
    apply in_map_iff in Ht as [k [Hn Hk]].
    apply (Permutation_in _ Hperm) in Hk.
    apply Hkeys in Hk as (r & g & c & n & Hin & Hr & ->).
    destruct (Hnn r _ Hin Hr) as (Hg & Hc & Hn').
    rewrite KeyFacts.numsOf_keyOf in Hn by assumption.
    injection Hn as <-. now exists r.
  - intros [r [Hin Hr]]. destruct t as [[g c] n].
    assert (Hk : In (keyOf g c n) ks).
    { apply (Permutation_in _ (Permutation_sym Hperm)). apply Hkeys.
      now exists r, g, c, n. }
    destruct (Hnn r _ Hin Hr) as (Hg & Hc & Hn').
    assert (Ht : In (Some (g, c, n)) (map Some (map ident out))).
    { rewrite Hmap. apply in_map_iff. exists (keyOf g c n).
      split; [now apply KeyFacts.numsOf_keyOf|assumption]. }
    apply in_map_iff in Ht as [t' [[= ->] Ht']]. exact Ht'.
Qed.

(** The order of the export where it holds.  When the grade, class and
    number of every row that has all three are not negative, the sheet
    has one row for each such triple, and no other; the rows stand in the
    strict order of grade, then class, then number; and the input rows in
    another order give the same students in the same order. *)
Theorem export_order (rows : list Row) (groups : list jsstring)
  (out : list Summary.t) :
  (forall r t, In r rows -> rowOfStudent r t -> nonNegative t) ->
  exportAll PREREQS rows = Some (groups, out) ->
  StronglySorted lexLt (map ident out)
  /\ NoDup (map ident out)
  /\ (forall t, In t (map ident out) <-> exists r, In r rows /\ rowOfStudent r t)
  /\ (forall rows' groups' out',
        Permutation rows rows' ->
        exportAll PREREQS rows' = Some (groups', out') ->
        map ident out' = map ident out).
Proof.
  intros Hnn Hexp.
  destruct (export_sorted_and_complete rows Hnn Hexp) as [Hs Hin].
  split; [assumption|]. split.
  { apply StronglySorted_NoDup with (lt := lexLt); [|assumption].
    exact KeyFacts.lexLt_irrefl. }
  split; [assumption|].
  intros rows' groups' out' Hperm Hexp'.
  assert (Hnn' : forall r t, In r rows' -> rowOfStudent r t -> nonNegative t).
  { intros r t Hr. apply Hnn. now apply (Permutation_in _ (Permutation_sym Hperm)). }
  destruct (export_sorted_and_complete rows' Hnn' Hexp') as [Hs' Hin'].
  apply StronglySorted_unique with (lt := lexLt); try assumption.
  - exact KeyFacts.lexLt_irrefl.
  - exact KeyFacts.lexLt_trans.
  - intros t. rewrite Hin, Hin'. split; intros [r [Hr Ht]]; exists r; split;
      try assumption.
    + now apply (Permutation_in _ (Permutation_sym Hperm)).
    + now apply (Permutation_in _ Hperm).
Qed.

End ExportOrder.

Lemma export_order_sample :
  exists groups out,
    @exportAll SampleHost.host [] sampleRows = Some (groups, out)
    /\ map ident out = [(1, 2, 4); (1, 2, 30); (1, 10, 2); (2, 1, 3)]%Z
    /\ StronglySorted lexLt (map ident out)
    /\ NoDup (map ident out).
Proof.
  eexists. eexists. split; [vm_compute; reflexivity|].
  split; [vm_compute; reflexivity|].
  match goal with
  | |- StronglySorted _ (map ident ?o) /\ _ =>
      destruct (@export_order SampleHost.host [] sampleRows [Lit.other] o)
        as (Hs & Hnd & _)
  end.
  - intros r [[g c] n] Hin (Eg & Ec & En).
    repeat (destruct Hin as [<-|Hin];
            [simpl in Eg, Ec, En; try discriminate;
             injection Eg as <-; injection Ec as <-; injection En as <-;
             simpl; lia|]).
    destruct Hin.
  - vm_compute. reflexivity.
  - split; assumption.
Defined.

(** C6 as it is stated fails: the key of the student -1-5-5 is read back as
    0, 1, 5 and the key of -2-0-0 as 0, 2, 0, so the first comes first. *)
Lemma export_order_fails_below_zero :
  ~ (forall rows groups out,
       @exportAll SampleHost.host [] rows = Some (groups, out) ->
       StronglySorted lexLt (map ident out)).
Proof.
  intros H.
  assert (E : exists out,
             @exportAll SampleHost.host []
               [studentRow (-2) 0 0; studentRow (-1) 5 5] = Some ([Lit.other], out)
             /\ map ident out = [(-1, 5, 5); (-2, 0, 0)]%Z).
  { eexists. split; vm_compute; reflexivity. }
  destruct E as [out [Hexp Hid]].
  apply H in Hexp. rewrite Hid in Hexp.
  apply StronglySorted_inv in Hexp as [_ Hall].
  inversion Hall as [|? ? Hlt _]; subst. simpl in Hlt. lia.
Qed.

(** ** More on the hierarchy parser *)

Section LongestNumeral.
Context {host : Host}.

Lemma numeralToEnd_length (r : jsstring) :
  numeralToEnd r = true -> (length r <= 4)%nat.
Proof.
  unfold numeralToEnd. intros H. apply orb_true_iff in H as [H|H].
  - destruct r as [|c [|c' r]]; try discriminate. simpl. lia.
  - apply JsFacts.existsb_str_eqb in H. unfold asciiRoman in H.
    repeat (destruct H as [<-|H]; [simpl; lia|]). destruct H.
Qed.

Lemma numeralToEnd_long (c : N) (q : jsstring) :
  numeralToEnd (c :: q ++ Course.numeral8) = false.
Proof.
  destruct (numeralToEnd (c :: q ++ Course.numeral8)) eqn:E; [|reflexivity].
  apply numeralToEnd_length in E. simpl in E. rewrite length_app in E.
  simpl in E. lia.
Qed.

Lemma afterGroup_before_VIII (q : jsstring) :
  afterGroup (q ++ Course.numeral8) = forallb (N.eqb Lit.s) q.
Proof.
  induction q as [|c q IH]; [reflexivity|].
  cbn [app afterGroup forallb]. rewrite numeralToEnd_long, orb_false_r, IH.
  now rewrite N.eqb_sym.
Qed.

Lemma matchRe_before_VIII (p m1 : jsstring) :
  matchRe (p ++ Course.numeral8) = Some m1 ->
  exists q, p = m1 ++ q /\ forallb (N.eqb Lit.s) q = true.
Proof.
  revert m1. induction p as [|c p IH]; intros m1.
  - vm_compute. intros [= <-]. now exists [].
  - change ((c :: p) ++ Course.numeral8) with (c :: (p ++ Course.numeral8)).
    cbn [matchRe]. change (c :: (p ++ Course.numeral8)) with ((c :: p) ++ Course.numeral8).
    rewrite afterGroup_before_VIII.
    destruct (forallb (N.eqb Lit.s) (c :: p)) eqn:E.
    + intros [= <-]. now exists (c :: p).
    + destruct (Js.isLineTerminator c); [discriminate|].
      destruct (matchRe (p ++ Course.numeral8)) as [m|] eqn:Em; [|discriminate].
      intros [= <-]. destruct (IH m eq_refl) as [q [-> Hq]]. now exists q.
Qed.

Lemma matchRe_exact_VIII (p : jsstring) :
  forallb (fun c => negb (Js.isLineTerminator c)) p = true ->
  (forall q, p = q ++ [Lit.s] -> False) ->
  matchRe (p ++ Course.numeral8) = Some p.
Proof.
  induction p as [|c p IH]; intros Hlt Hs; [reflexivity|].
  change ((c :: p) ++ Course.numeral8) with (c :: (p ++ Course.numeral8)).
  cbn [matchRe]. change (c :: (p ++ Course.numeral8)) with ((c :: p) ++ Course.numeral8).
  rewrite afterGroup_before_VIII.
  cbn [forallb] in Hlt. apply andb_true_iff in Hlt as [Hc Hlt].
  apply negb_true_iff in Hc.
  destruct (forallb (N.eqb Lit.s) (c :: p)) eqn:E.
  - exfalso. destruct (@exists_last _ (c :: p)) as [q [d Eq]]; [discriminate|].
    apply (Hs q). rewrite Eq. f_equal. f_equal.
    rewrite Eq, forallb_app in E. apply andb_true_iff in E as [_ E].
    cbn [forallb] in E. rewrite andb_true_r in E. apply N.eqb_eq in E.
    now symmetry.
  - rewrite Hc, IH; [reflexivity|assumption|].
    intros q ->. now apply (Hs (c :: q)).
Qed.

Lemma skipn_length_app (A : Type) (a b : list A) : skipn (length a) (a ++ b) = b.
Proof. induction a; simpl; [reflexivity|assumption]. Qed.

Lemma trim_after_VIII (q : jsstring) :
  forallb (N.eqb Lit.s) q = true ->
  Js.trim (q ++ Course.numeral8) = q ++ Course.numeral8.
Proof.
  intros Hq. unfold Js.trim, Js.trimEnd.
  assert (E1 : Js.trimStart (q ++ Course.numeral8) = q ++ Course.numeral8).
  { destruct q as [|c q]; [reflexivity|]. cbn [forallb] in Hq.
    apply andb_true_iff in Hq as [Hc _]. apply N.eqb_eq in Hc. now subst c. }
  rewrite E1, rev_app_distr.
  change (rev Course.numeral8) with [Lit.I; Lit.I; Lit.I; Lit.V].
  cbn [app Js.trimStart]. change (Js.isWhiteSpace Lit.I) with false. cbv iota.
  cbn [rev]. now rewrite rev_involutive, <- !app_assoc.
Qed.

(** A name whose normal form ends in "VIII" is level 8 of what stands
    before, trimmed, and never another level; it is that whenever what
    stands before has no line terminator, does not end in the letter s and
    is more than white space. *)
Theorem parseHierLevel_VIII (name p : jsstring) :
  name <> [] -> NFKC (Js.trim name) = p ++ [Lit.V; Lit.I; Lit.I; Lit.I] ->
  (forall r, parseHierLevel (Some name) = Some r ->
     level r = 8%Z /\ base r = Js.trim p)
  /\ (forallb (fun c => negb (Js.isLineTerminator c)) p = true ->
      (forall q, p = q ++ [Lit.s] -> False) ->
      Js.trim p <> [] ->
      parseHierLevel (Some name) = Some {| base := Js.trim p; level := 8 |}).
Proof.
  intros Hne Hs. change [Lit.V; Lit.I; Lit.I; Lit.I] with Course.numeral8 in *.
  apply JsFacts.nonEmpty_true in Hne.
  unfold parseHierLevel. rewrite Hne, Hs. cbv zeta. simpl negb. cbv iota.
  split.
  - intros r. destruct (matchRe (p ++ Course.numeral8)) as [m1|] eqn:Em; [|discriminate].
    destruct (@matchRe_before_VIII p m1 Em) as [q [-> Hq]].
    rewrite <- app_assoc, skipn_length_app, (@trim_after_VIII q Hq).
    destruct q as [|c q].
    + rewrite app_nil_r. cbn [app]. change (JsMap.get Course.numeral8 romanMap) with (Some 8%Z).
      cbv iota. simpl Z.eqb. cbv iota.
      destruct (Js.nonEmpty (Js.trim m1)); simpl; [|discriminate].
      intros [= <-]. split; reflexivity.
    + cbn [forallb] in Hq. apply andb_true_iff in Hq as [Hc _]. apply N.eqb_eq in Hc.
      subst c. discriminate.
  - intros Hlt Hnos Hbase. rewrite (@matchRe_exact_VIII p Hlt Hnos).
    rewrite skipn_length_app.
    change (Js.trim Course.numeral8) with Course.numeral8.
    change (JsMap.get Course.numeral8 romanMap) with (Some 8%Z). cbv iota.
    simpl Z.eqb. cbv iota.
    apply JsFacts.nonEmpty_true in Hbase. now rewrite Hbase.
Qed.

End LongestNumeral.

Lemma parseHierLevel_VIII_sample :
  @parseHierLevel SampleHost.host
    (Some (Course.physics ++ [32%N] ++ Course.roman 8))
  = Some {| base := Course.physics; level := 8 |}.
Proof.
  apply (proj2 (@parseHierLevel_VIII SampleHost.host
                  (Course.physics ++ [32%N] ++ Course.roman 8)
                  (Course.physics ++ [32%N])
                  ltac:(vm_compute; discriminate)
                  ltac:(vm_compute; reflexivity))).
  - reflexivity.
  - intros q E. apply (f_equal (@rev N)) in E.
    rewrite (rev_app_distr q) in E. vm_compute in E. discriminate.
  - vm_compute. discriminate.
Defined.

(** ** More on the validator and the export *)

Lemma canonGroup_variants_agree_sample :
  @Earlier.canonGroup SampleHost.host (Some Lit.hanmun)
  = @canonGroup SampleHost.host (Some Lit.hanmun).
Proof.
  apply (@canonGroup_variants_agree_elsewhere SampleHost.host (Some Lit.hanmun)).
  intros s [= <-]. vm_compute. discriminate.
Defined.

Section Validator.
Context {host : Host}.

Lemma explicitFindings_nil (PREREQS : JsMap.t (list jsstring)) :
  explicitFindings PREREQS [] = [].
Proof.
  unfold explicitFindings. cbv zeta.
  induction PREREQS as [|[course reqs] m IH]; [reflexivity|].
  cbn [flat_map]. now rewrite IH.
Qed.

(** A student without courses has the empty check, whatever the table. *)
Theorem buildChecks_nil (PREREQS : JsMap.t (list jsstring)) :
  buildChecks PREREQS [] = [].
Proof.
  unfold buildChecks, explicitParts. now rewrite explicitFindings_nil.
Qed.

End Validator.

(** The rows (A, 3), (A, 2), (B, 4) of one student give the total 9, and 5
    and 4 under the columns A and B. *)
Theorem aggregation_example :
  exists row,
    @exportAll SampleHost.host []
      [ rowOf [65%N] Sample.music 3; rowOf [65%N] Sample.literature 2;
        rowOf [66%N] Sample.music 4 ]
    = Some ([[65%N]; [66%N]], [row])
    /\ Summary.전체이수학점 row = 9%float
    /\ Summary.groups row = [5%float; 4%float].
Proof. eexists. repeat split; vm_compute; reflexivity. Qed.

(** The ratio is rounded as binary64 numbers are: 201 of 400 is 50.25 per
    cent, the quotient times 1000 falls short of 502.5, and the ratio is
    502 / 10. *)
Theorem ratio_tie_example :
  (((201 / 400) * 1000 <? 502.5) = true
   /\ pctOf 400 201 0 = 502 / 10
   /\ (pctOf 400 201 0 <? 50.25) = true)%float.
Proof. repeat split; vm_compute; reflexivity. Qed.

Module NameFacts.

Lemma byStuStep_keeps (m : JsMap.t Student.t) (r : Row) (k : jsstring)
  (s : Student.t) :
  JsMap.get k m = Some s ->
  exists s', JsMap.get k (byStuStep m r) = Some s'
             /\ Student.이름 s' = Student.이름 s /\ fieldsOf s' = fieldsOf s.
Proof.
  intros Hget. unfold byStuStep.
  destruct (학년 r) as [g|]; [|now exists s].
  destruct (반 r) as [c|]; [|now exists s].
  destruct (번호 r) as [n|]; [|now exists s].
  cbv zeta. rewrite JsFacts.get_set.
  destruct (JsFacts.str_eqb_spec k (keyOf g c n)) as [->|Hne]; [|now exists s].
  rewrite Hget. eexists. split; [reflexivity|]. split; reflexivity.
Qed.

Lemma fold_byStuStep_keeps (rows : list Row) (m : JsMap.t Student.t)
  (k : jsstring) (s : Student.t) :
  JsMap.get k m = Some s ->
  exists s', JsMap.get k (fold_left byStuStep rows m) = Some s'
             /\ Student.이름 s' = Student.이름 s /\ fieldsOf s' = fieldsOf s.
Proof.
  revert m s. induction rows as [|r rows IH]; intros m s Hget; simpl.
  - now exists s.
  - destruct (byStuStep_keeps m r k Hget) as [s1 (H1 & Hn1 & Hf1)].
    destruct (IH _ _ H1) as [s2 (H2 & Hn2 & Hf2)].
    exists s2. split; [assumption|]. split; congruence.
Qed.

End NameFacts.

(** The name of a student is the name of the first row with the student's
    key, whatever the later rows of the student say. *)
Theorem first_seen_name (pre post : list Row) (r : Row) (g c n : Z) :
  rowOfStudent r (g, c, n) ->
  (forall r' g' c' n', In r' pre -> rowOfStudent r' (g', c', n') ->
     keyOf g' c' n' <> keyOf g c n) ->
  exists s, JsMap.get (keyOf g c n) (byStuOf (pre ++ r :: post)) = Some s
            /\ Student.이름 s = 이름 r /\ fieldsOf s = (g, c, n).
Proof.
  intros Hr Hpre. rewrite ExportFacts.byStuOf_fold, fold_left_app.
  cbn [fold_left]. rewrite <- ExportFacts.byStuOf_fold.
  destruct (ExportFacts.byStuOf_inv pre) as (_ & Hkeys & _).
  assert (Hnone : JsMap.get (keyOf g c n) (byStuOf pre) = None).
  { apply JsFacts.get_None_keys. intros Hin.
    apply Hkeys in Hin as (r' & g' & c' & n' & Hin & Hr' & E).
    exact (Hpre r' g' c' n' Hin Hr' (eq_sym E)). }
  assert (Hnew : exists s0,
             JsMap.get (keyOf g c n) (byStuStep (byStuOf pre) r) = Some s0
             /\ Student.이름 s0 = 이름 r /\ fieldsOf s0 = (g, c, n)).
  { destruct Hr as (Eg & Ec & En). unfold byStuStep. rewrite Eg, Ec, En.
    cbv zeta. rewrite Hnone, JsFacts.get_set_eq.
    eexists. split; [reflexivity|]. split; reflexivity. }
  destruct Hnew as [s0 (H0 & Hn0 & Hf0)].
  destruct (NameFacts.fold_byStuStep_keeps post _ _ H0) as [s (H & Hn & Hf)].
  exists s. split; [assumption|]. split; congruence.
Qed.

Lemma first_seen_name_sample :
  exists s,
    JsMap.get (keyOf 1 1 1)
      (byStuOf ([] ++ {| 학년 := Some 1%Z; 반 := Some 1%Z; 번호 := Some 1%Z;
                         이름 := Some Sample.music;
                         과목학년 := None; 과목학기 := None;
                         교과 := None; 과목명 := None; 학점 := None |}
                   :: [rowOf Lit.korean Sample.literature 3]))
    = Some s
    /\ Student.이름 s = Some Sample.music /\ fieldsOf s = (1, 1, 1)%Z.
Proof.
  apply (@first_seen_name [] [rowOf Lit.korean Sample.literature 3]
           {| 학년 := Some 1%Z; 반 := Some 1%Z; 번호 := Some 1%Z;
              이름 := Some Sample.music;
              과목학년 := None; 과목학기 := None;
              교과 := None; 과목명 := None; 학점 := None |} 1 1 1).
  - simpl. auto.
  - intros r' g' c' n' [].
Defined.

(** ** The numeral that the pattern leaves out *)

Section LoneV.
Context {host : Host}.

Lemma numeralToEnd_last (r : jsstring) :
  numeralToEnd r = true ->
  exists q c, r = q ++ [c] /\ (c <> Lit.V \/ exists q', q = q' ++ [Lit.I]).
Proof.
  unfold numeralToEnd. intros H. apply orb_true_iff in H as [H|H].
  - destruct r as [|c [|c' r]]; try discriminate.
    exists [], c. split; [reflexivity|]. left. unfold unicodeRoman in H.
    apply andb_true_iff in H as [H _]. apply N.leb_le in H.
    unfold Lit.V. lia.
  - apply JsFacts.existsb_str_eqb in H. unfold asciiRoman in H.
    destruct H as [H|[H|[H|[H|[H|[H|[H|[H|[H|[]]]]]]]]]];
      try (exists (removelast r), (last r 0%N); subst r;
           split; [reflexivity|left; vm_compute; discriminate]).
    exists [Lit.I], Lit.V. subst r. split; [reflexivity|].
    right. now exists [].
Qed.

Lemma afterGroup_last (r : jsstring) :
  afterGroup r = true ->
  exists q c, r = q ++ [c] /\ (c <> Lit.V \/ exists q', q = q' ++ [Lit.I]).
Proof.
  induction r as [|c0 r IH]; cbn [afterGroup]; intros H.
  - now apply numeralToEnd_last.
  - apply orb_true_iff in H as [H|H]; [|now apply numeralToEnd_last].
    apply andb_true_iff in H as [_ H].
    destruct (IH H) as (q & c & -> & [Hc|[q' ->]]).
    + exists (c0 :: q), c. split; [reflexivity|now left].
    + exists (c0 :: q' ++ [Lit.I]), c. split; [reflexivity|].
      right. now exists (c0 :: q').
Qed.

Lemma matchRe_last (s m1 : jsstring) :
  matchRe s = Some m1 ->
  exists q c, s = q ++ [c] /\ (c <> Lit.V \/ exists q', q = q' ++ [Lit.I]).
Proof.
  revert m1. induction s as [|c0 s IH]; intros m1; cbn [matchRe].
  - destruct (afterGroup []) eqn:E; [|discriminate].
    intros _. now apply afterGroup_last.
  - destruct (afterGroup (c0 :: s)) eqn:E; [intros _; now apply afterGroup_last|].
    destruct (Js.isLineTerminator c0); [discriminate|].
    destruct (matchRe s) as [m|]; [|discriminate]. intros _.
    destruct (IH m eq_refl) as (q & c & -> & [Hc|[q' ->]]).
    + exists (c0 :: q), c. split; [reflexivity|now left].
    + exists (c0 :: q' ++ [Lit.I]), c. split; [reflexivity|].
      right. now exists (c0 :: q').
Qed.

(** A name whose normal form ends in the letter V, and not in "IV", has no
    level: level 5 is never parsed from an ASCII numeral. *)
Theorem parseHierLevel_V_absent (name p : jsstring) :
  NFKC (Js.trim name) = p ++ [Lit.V] ->
  (forall q, p <> q ++ [Lit.I]) ->
  parseHierLevel (Some name) = None.
Proof.
  intros Hs Hp. unfold parseHierLevel.
  destruct (Js.nonEmpty name); [|reflexivity]. simpl negb. cbv iota zeta.
  rewrite Hs. destruct (matchRe (p ++ [Lit.V])) as [m1|] eqn:Em; [|reflexivity].
  destruct (matchRe_last _ Em) as (q & c & E & Hc).
  apply app_inj_tail in E as [Eq Ec]. subst q c.
  destruct Hc as [Hc|[q' Hq']]; [congruence|]. now apply Hp in Hq'.
Qed.

End LoneV.

Lemma parseHierLevel_V_absent_sample :
  @parseHierLevel SampleHost.host (Some (Course.physics ++ Course.roman 5)) = None.
Proof.
  apply (@parseHierLevel_V_absent SampleHost.host
           (Course.physics ++ Course.roman 5) Course.physics).
  - vm_compute. reflexivity.
  - intros q E. apply (f_equal (@rev N)) in E. rewrite (rev_app_distr q) in E.
    vm_compute in E. discriminate.
Defined.

(** ** The reading of the sheet *)

Module ReadFacts.

Lemma blank_app (l r : jsstring) :
  blank (l ++ r) = true <-> blank l = true /\ blank r = true.
Proof. unfold blank. rewrite forallb_app. apply andb_true_iff. Qed.

Lemma blank_rev (s : jsstring) : blank (rev s) = blank s.
Proof.
  unfold blank. induction s as [|c s IH]; simpl; [reflexivity|].
  rewrite forallb_app, IH. simpl. rewrite andb_true_r. apply andb_comm.
Qed.

Lemma trimStart_split (s : jsstring) :
  exists l, s = l ++ Js.trimStart s /\ blank l = true.
Proof.
  induction s as [|c s (l & E & B)]; simpl.
  - now exists [].
  - destruct (Js.isWhiteSpace c) eqn:Ec.
    + exists (c :: l). split; [now rewrite E at 1|]. simpl. now rewrite Ec.
    + now exists [].
Qed.

Lemma trimStart_blank_app (l s : jsstring) :
  blank l = true -> Js.trimStart (l ++ s) = Js.trimStart s.
Proof.
  induction l as [|c l IH]; simpl; [reflexivity|].
  intros H. apply andb_true_iff in H as [Hc Hl]. rewrite Hc. now apply IH.
Qed.

Lemma trimStart_app (s r : jsstring) :
  Js.trimStart (s ++ r)
  = match Js.trimStart s with
    | [] => Js.trimStart r
    | _ :: _ => Js.trimStart s ++ r
    end.
Proof.
  induction s as [|c s IH]; simpl; [reflexivity|].
  destruct (Js.isWhiteSpace c); [assumption|reflexivity].
Qed.

Lemma trimStart_fixed (s : jsstring) : headIsWs s = false -> Js.trimStart s = s.
Proof. destruct s as [|c s]; simpl; [reflexivity|]. now intros ->. Qed.

Lemma trimEnd_app_blank (s r : jsstring) :
  blank r = true -> Js.trimEnd (s ++ r) = Js.trimEnd s.
Proof.
  intros H. unfold Js.trimEnd. rewrite rev_app_distr.
  rewrite trimStart_blank_app; [reflexivity|]. now rewrite blank_rev.
Qed.

Lemma trimEnd_split (s : jsstring) :
  exists r, s = Js.trimEnd s ++ r /\ blank r = true.
Proof.
  unfold Js.trimEnd. destruct (trimStart_split (rev s)) as (l & E & B).
  exists (rev l). split; [|now rewrite blank_rev].
  rewrite <- rev_app_distr, <- E. now rewrite rev_involutive.
Qed.

Lemma trim_split (s : jsstring) :
  exists l r, s = l ++ Js.trim s ++ r /\ blank l = true /\ blank r = true.
Proof.
  destruct (trimStart_split s) as (l & El & Bl).
  destruct (trimEnd_split (Js.trimStart s)) as (r & Er & Br).
  exists l, r. unfold Js.trim. now rewrite <- Er.
Qed.

Lemma trim_nil_blank (s : jsstring) : Js.trim s = [] <-> blank s = true.
Proof.
  split; [|apply JsFacts.trim_all_ws].
  intros E. destruct (trim_split s) as (l & r & Es & Bl & Br).
  rewrite E in Es. rewrite Es. simpl. now apply blank_app.
Qed.

Lemma trim_pad (l s r : jsstring) :
  blank l = true -> blank r = true -> Js.trim (l ++ s ++ r) = Js.trim s.
Proof.
  intros Bl Br. unfold Js.trim. rewrite trimStart_blank_app by assumption.
  rewrite trimStart_app. destruct (Js.trimStart s) as [|c t] eqn:E.
  - now rewrite JsFacts.trimStart_all_ws.
  - now rewrite trimEnd_app_blank.
Qed.

Lemma rev_head_last (c d : N) (s : jsstring) :
  exists t, rev (c :: s) = last (c :: s) d :: t.
Proof.
  revert c. induction s as [|x s IH]; intros c.
  - now exists [].
  - destruct (IH x) as (t & E). exists (t ++ [c]).
    change (rev (c :: x :: s)) with (rev (x :: s) ++ [c]). rewrite E.
    reflexivity.
Qed.

Lemma trim_trimmed (s : jsstring) : trimmed s = true -> Js.trim s = s.
Proof.
  destruct s as [|c s]; [discriminate|]. unfold trimmed.
  intros H. apply andb_true_iff in H as [Hc Hl].
  apply negb_true_iff in Hc, Hl.
  unfold Js.trim. rewrite trimStart_fixed by exact Hc.
  unfold Js.trimEnd. destruct (rev_head_last c c s) as (t & E).
  rewrite trimStart_fixed; [apply rev_involutive|].
  rewrite E. exact Hl.
Qed.

Lemma last_app_one (s : jsstring) (x d : N) : last (s ++ [x]) d = x.
Proof. apply last_last. Qed.

Lemma trim_result (s : jsstring) : Js.trim s = [] \/ trimmed (Js.trim s) = true.
Proof.
  unfold Js.trim, Js.trimEnd.
  pose proof (NormFacts.trimStart_head s) as Hh.
  set (t := Js.trimStart s) in *.
  pose proof (NormFacts.trimStart_head (rev t)) as Hu.
  destruct (trimStart_split (rev t)) as (l & E & B).
  set (u := Js.trimStart (rev t)) in *.
  destruct u as [|x u'] eqn:Eu; [now left|right].
  assert (Et : t = rev (x :: u') ++ rev l).
  { rewrite <- rev_app_distr, <- E. now rewrite rev_involutive. }
  simpl in Hu.
  destruct (rev (x :: u')) as [|y w] eqn:Er.
  { apply (f_equal (@length N)) in Er. rewrite length_rev in Er. discriminate. }
  assert (El : last (y :: w) y = x).
  { rewrite <- Er. simpl rev. apply last_app_one. }
  unfold trimmed. rewrite El, Hu. rewrite Et in Hh. simpl in Hh.
  now rewrite Hh.
Qed.

(** [header.indexOf(k)] finds no place exactly when [k] is not in the
    header. *)
Lemma indexOf_None (k : jsstring) (header : list jsstring) :
  JsMore.indexOf k header = None <-> ~ In k header.
Proof.
  induction header as [|x header IH]; simpl; [tauto|].
  destruct (JsFacts.str_eqb_spec x k) as [->|Hne].
  - split; [discriminate|]. intros H. exfalso. apply H. now left.
  - destruct (JsMore.indexOf k header); simpl.
    + split; [discriminate|]. intros H. exfalso.
      destruct IH as [_ IH]. 
      assert (Hn : ~ In k header) by (intros Hin; apply H; now right).
      specialize (IH Hn). discriminate.
    + split; [|reflexivity]. intros _ [E|Hin]; [congruence|].
      now apply IH.
Qed.

Section Lookup.
Context {coerce : Coerce}.

Lemma cellAt_lookup (k : jsstring) (header : list jsstring)
  (r : list (option Cell)) :
  cellAt r (JsMore.indexOf k header) = lookupCell k (combine header r).
Proof.
  revert r. induction header as [|x header IH]; intros r; simpl.
  - reflexivity.
  - destruct r as [|c r].
    + destruct (Js.str_eqb x k); [reflexivity|].
      destruct (JsMore.indexOf k header) as [[|i]|]; reflexivity.
    + unfold lookupCell. simpl find. simpl fst.
      destruct (Js.str_eqb x k); [reflexivity|].
      specialize (IH r). unfold lookupCell in IH. rewrite <- IH.
      destruct (JsMore.indexOf k header); reflexivity.
Qed.

Lemma countLabel_combine (k : jsstring) (header : list jsstring)
  (r : list (option Cell)) :
  (countLabel k (combine header r) <= occurrences k header)%nat.
Proof.
  unfold occurrences, countLabel.
  revert r. induction header as [|x header IH]; intros r; simpl; [lia|].
  destruct r as [|c r]; simpl; [lia|].
  specialize (IH r). destruct (Js.str_eqb x k); simpl; lia.
Qed.

Lemma countLabel_perm (k : jsstring) (l l' : list (jsstring * option Cell)) :
  Permutation l l' -> countLabel k l = countLabel k l'.
Proof.
  intros H. unfold countLabel. apply Permutation_length.
  induction H as [|x l l' H IH|x y l|l l' l'' H1 IH1 H2 IH2]; simpl.
  - constructor.
  - destruct (Js.str_eqb (fst x) k); [now constructor|assumption].
  - destruct (Js.str_eqb (fst x) k), (Js.str_eqb (fst y) k);
      try reflexivity. apply perm_swap.
  - now transitivity (filter (fun p => Js.str_eqb (fst p) k) l').
Qed.

Lemma lookupCell_perm (k : jsstring) (l l' : list (jsstring * option Cell)) :
  Permutation l l' -> (countLabel k l <= 1)%nat ->
  lookupCell k l = lookupCell k l'.
Proof.
  unfold lookupCell.
  induction 1 as [|x l l' H IH|x y l|l l' l'' H1 IH1 H2 IH2]; intros Hc.
  - reflexivity.
  - unfold countLabel in *. simpl in *.
    destruct (Js.str_eqb (fst x) k); [reflexivity|]. now apply IH.
  - unfold countLabel in *. simpl in *.
    destruct (Js.str_eqb (fst x) k), (Js.str_eqb (fst y) k);
      try reflexivity. simpl in Hc. lia.
  - rewrite IH1 by assumption. apply IH2.
    now rewrite <- (countLabel_perm k H1).
Qed.

Lemma cellAt_by_label (k : jsstring) (h h' r r' : list (option Cell)) :
  (occurrences k (headerOf [h]) <= 1)%nat ->
  Permutation (labelled h r) (labelled h' r') ->
  cellAt r (JsMore.indexOf k (headerOf [h]))
  = cellAt r' (JsMore.indexOf k (headerOf [h'])).
Proof.
  intros Ho Hp. rewrite !cellAt_lookup. apply lookupCell_perm; [exact Hp|].
  pose proof (countLabel_combine k (headerOf [h]) r). unfold labelled. lia.
Qed.

End Lookup.

End ReadFacts.

Section ReadingTheorems.
Context {coerce : Coerce}.

(** [toStr] gives [null] for an empty cell and for a cell whose text is
    white space only.  Every other result is the text of the cell without
    the white space at its two ends: it is not empty, has no white space
    at either end, and [toStr] gives it back unchanged. *)
Theorem toStr_spec (v : option Cell) :
  match toStr v with
  | None => v = None \/ exists c, v = Some c /\ blank (StringOf c) = true
  | Some s =>
      trimmed s = true
      /\ toStr (Some (CStr s)) = Some s
      /\ exists c l r, v = Some c /\ StringOf c = l ++ s ++ r
                       /\ blank l = true /\ blank r = true
  end.
Proof.
  destruct v as [c|]; [|now left]. unfold toStr.
  destruct (Js.nonEmpty (Js.trim (StringOf c))) eqn:E; simpl.
  - apply JsFacts.nonEmpty_true in E.
    destruct (ReadFacts.trim_result (StringOf c)) as [H|H]; [contradiction|].
    split; [exact H|]. split.
    + simpl StringOf. rewrite (ReadFacts.trim_trimmed _ H).
      destruct (Js.trim (StringOf c)); [contradiction|reflexivity].
    + destruct (ReadFacts.trim_split (StringOf c)) as (l & r & Es & Bl & Br).
      now exists c, l, r.
  - right. exists c. split; [reflexivity|].
    apply JsFacts.nonEmpty_false in E. now apply ReadFacts.trim_nil_blank.
Qed.

(** White space around the text of a cell does not change what [toNum]
    and [toStr] read; a cell of white space only is [null]; and a number
    that [toNum] gives is never [NaN]. *)
Theorem toNum_padding (l s r : jsstring) :
  blank l = true -> blank r = true ->
  toNum (Some (CStr (l ++ s ++ r))) = toNum (Some (CStr s))
  /\ toStr (Some (CStr (l ++ s ++ r))) = toStr (Some (CStr s))
  /\ toNum (Some (CStr (l ++ r))) = None
  /\ forall n, toNum (Some (CStr (l ++ s ++ r))) = Some n ->
               n = numberOfString (Js.trim s) /\ PrimFloat.is_nan n = false.
Proof.
  intros Bl Br.
  assert (E : Js.trim (l ++ s ++ r) = Js.trim s) by now apply ReadFacts.trim_pad.
  split; [|split; [|split]].
  - unfold toNum. now rewrite E.
  - unfold toStr. simpl StringOf. now rewrite E.
  - unfold toNum. replace (Js.trim (l ++ r)) with (@nil N); [reflexivity|].
    symmetry. apply ReadFacts.trim_nil_blank. now apply ReadFacts.blank_app.
  - intros n. unfold toNum. rewrite E.
    destruct (Js.trim s) as [|c t]; [discriminate|]. simpl NumberOf.
    destruct (PrimFloat.is_nan (numberOfString (c :: t))) eqn:En;
      [discriminate|].
    intros [= <-]. now split.
Qed.

(** The sheet is read by label, not by place: when no label of a column
    stands twice in the header, a sheet whose rows pair the same labels
    with the same cells, in whatever order of the columns, gives the same
    rows. *)
Theorem readRowsFromSheet_by_label (h h' : list (option Cell))
  (rows rows' : list (list (option Cell))) :
  (forall k, In k columnLabels -> (occurrences k (headerOf [h]) <= 1)%nat) ->
  Forall2 (fun r r' => Permutation (labelled h r) (labelled h' r')) rows rows' ->
  readRowsFromSheet (h :: rows) = readRowsFromSheet (h' :: rows').
Proof.
  intros Ho HF. unfold readRowsFromSheet.
  change (headerOf (h :: rows)) with (headerOf [h]).
  change (headerOf (h' :: rows')) with (headerOf [h']).
  induction HF as [|r r' rows rows' Hp HF IH]; [reflexivity|].
  cbn [map]. rewrite IH. f_equal.
  assert (Hc : forall k, In k columnLabels ->
                 cellAt r (JsMore.indexOf k (headerOf [h]))
                 = cellAt r' (JsMore.indexOf k (headerOf [h']))).
  { intros k Hk. apply ReadFacts.cellAt_by_label; [now apply Ho|exact Hp]. }
  rewrite (Hc Label.grade), (Hc Label.class), (Hc Label.number),
    (Hc Label.name), (Hc Label.courseGrade), (Hc Label.courseTerm),
    (Hc Label.group), (Hc Label.course), (Hc Label.credit);
    [reflexivity|unfold columnLabels; simpl; tauto..].
Qed.

(** A column whose label is not in the header is [null] in every row. *)
Theorem readRowsFromSheet_missing_column (aoa : list (list (option Cell)))
  (k : jsstring) :
  ~ In k (headerOf aoa) ->
  forall row f, In row (readRowsFromSheet aoa) -> In (k, f) (sheetFields row) ->
                isNull f = true.
Proof.
  intros Hk row f Hrow Hf. apply ReadFacts.indexOf_None in Hk.
  destruct aoa as [|h rest]; [destruct Hrow|].
  unfold readRowsFromSheet in Hrow. cbv zeta beta in Hrow.
  apply in_map_iff in Hrow as (r & <- & _).
  unfold sheetFields in Hf. cbn [In SheetRow.학년 SheetRow.반 SheetRow.번호
    SheetRow.이름 SheetRow.과목학년 SheetRow.과목학기 SheetRow.교과
    SheetRow.과목명 SheetRow.학점] in Hf.
  repeat (destruct Hf as [Hf|Hf];
          [injection Hf as <- <-; unfold headerOf in *; now rewrite Hk|]).
  destruct Hf.
Qed.

End ReadingTheorems.

Lemma toNum_padding_sample :
  @toNum SampleCoerce.coerce (Some (CStr ([32] ++ [49; 50] ++ [9; 32])%N))
  = @toNum SampleCoerce.coerce (Some (CStr [49; 50]%N)).
Proof.
  exact (proj1 (@toNum_padding SampleCoerce.coerce [32]%N [49; 50]%N [9; 32]%N
                  eq_refl eq_refl)).
Defined.

Lemma readRowsFromSheet_by_label_sample :
  @readRowsFromSheet SampleCoerce.coerce [SampleSheet.header; SampleSheet.row]
  = @readRowsFromSheet SampleCoerce.coerce [SampleSheet.header'; SampleSheet.row'].
Proof.
  apply (@readRowsFromSheet_by_label SampleCoerce.coerce).
  - intros k Hk. unfold columnLabels in Hk. simpl in Hk.
    repeat (destruct Hk as [<-|Hk]; [vm_compute; lia|]). destruct Hk.
  - constructor; [|constructor]. apply perm_swap.
Defined.

Lemma readRowsFromSheet_missing_column_sample :
  Forall (fun row => isNull (FStr (SheetRow.이름 row)) = true)
    (@readRowsFromSheet SampleCoerce.coerce
       [SampleSheet.header; SampleSheet.row]).
Proof.
  apply Forall_forall. intros row Hin.
  refine (@readRowsFromSheet_missing_column SampleCoerce.coerce
            [SampleSheet.header; SampleSheet.row] Label.name _
            row (FStr (SheetRow.이름 row)) Hin _).
  - simpl. intros [H|[H|[]]]; discriminate.
  - unfold sheetFields. do 3 right. now left.
Defined.

(** ** The keys of the students *)

Module KeyInj.

Lemma uintUnits_no_minus (d : Decimal.uint) : ~ In Js.minus (Js.uintUnits d).
Proof.
  intros Hin. pose proof (KeyFacts.uintUnits_digits d) as F.
  rewrite Forall_forall in F. now apply (F _ Hin).
Qed.

Lemma String_pos_value (p : positive) :
  Js.digitsValue 0 (Js.uintUnits (Pos.to_uint p)) = Some (Zpos p).
Proof.
  change (Js.Number_ (Js.String_ (Zpos p)) = Some (Zpos p)).
  apply KeyFacts.Number_String. lia.
Qed.

Lemma String_nonneg (z : Z) :
  (0 <= z)%Z -> exists c s, Js.String_ z = c :: s /\ c <> Js.minus.
Proof.
  intros Hz. pose proof (KeyFacts.String_no_minus Hz) as Hn.
  destruct (Js.String_ z) as [|c s] eqn:E.
  - exfalso. destruct z as [|p|p]; [discriminate| |lia].
    pose proof (String_pos_value p) as Hv. simpl in E. rewrite E in Hv.
    discriminate.
  - exists c, s. split; [reflexivity|]. intros ->. apply Hn. now left.
Qed.

Lemma no_minus_split (x y r r' : jsstring) :
  ~ In Js.minus x -> ~ In Js.minus y ->
  x ++ Js.minus :: r = y ++ Js.minus :: r' -> x = y /\ r = r'.
Proof.
  revert y. induction x as [|c x IH]; intros [|d y] Hx Hy E; simpl in E.
  - injection E as ->. now split.
  - injection E as <- _. exfalso. apply Hy. now left.
  - injection E as -> _. exfalso. apply Hx. now left.
  - injection E as -> E.
    destruct (IH y) as [-> ->]; try assumption; try now split.
    + intros H. apply Hx. now right.
    + intros H. apply Hy. now right.
Qed.

Lemma String_nonneg_inj (a b : Z) :
  (0 <= a)%Z -> (0 <= b)%Z -> Js.String_ a = Js.String_ b -> a = b.
Proof.
  intros Ha Hb E. apply (f_equal Js.Number_) in E.
  rewrite !KeyFacts.Number_String in E by assumption. congruence.
Qed.

(** An integer in decimal digits, followed by a minus sign, is read back
    in one way only. *)
Lemma String_app_inj (a b : Z) (r r' : jsstring) :
  Js.String_ a ++ Js.minus :: r = Js.String_ b ++ Js.minus :: r' ->
  a = b /\ r = r'.
Proof.
  intros E.
  destruct (Z.neg_nonneg_cases a) as [Ha|Ha], (Z.neg_nonneg_cases b) as [Hb|Hb].
  - destruct a as [|p|p]; try lia. destruct b as [|q|q]; try lia.
    simpl in E. injection E as E.
    apply no_minus_split in E as [E ->]; try apply uintUnits_no_minus.
    split; [|reflexivity].
    assert (Zpos p = Zpos q); [|congruence].
    apply String_nonneg_inj; try lia. exact E.
  - exfalso. destruct a as [|p|p]; try lia.
    destruct (String_nonneg Hb) as (c & s & Es & Hc). rewrite Es in E.
    simpl in E. injection E as E _. congruence.
  - exfalso. destruct b as [|q|q]; try lia.
    destruct (String_nonneg Ha) as (c & s & Es & Hc). rewrite Es in E.
    simpl in E. injection E as E _. congruence.
  - apply no_minus_split in E as [E ->];
      try (apply KeyFacts.String_no_minus; assumption).
    split; [|reflexivity]. now apply String_nonneg_inj.
Qed.

Lemma String_inj (a b : Z) : Js.String_ a = Js.String_ b -> a = b.
Proof.
  intros E. apply (f_equal (fun s => s ++ [Js.minus])) in E.
  now apply String_app_inj in E.
Qed.

(** Two students have the same key only when they have the same grade,
    class and number, whatever the signs. *)
Lemma keyOf_inj (g c n g' c' n' : Z) :
  keyOf g c n = keyOf g' c' n' -> (g, c, n) = (g', c', n').
Proof.
  unfold keyOf. simpl app. intros E.
  apply String_app_inj in E as [-> E].
  apply String_app_inj in E as [-> E].
  apply String_inj in E. now subst.
Qed.

Lemma keyOfIdent_inj (t t' : Z * Z * Z) : keyOfIdent t = keyOfIdent t' -> t = t'.
Proof.
  destruct t as [[g c] n], t' as [[g' c'] n']. apply keyOf_inj.
Qed.

Lemma hasIdent_true (t : Z * Z * Z) (r : Row) :
  hasIdent t r = true <-> rowOfStudent r t.
Proof.
  destruct t as [[g c] n]. unfold hasIdent, rowOfStudent.
  destruct (학년 r) as [g'|]; [|split; [discriminate|intros (H & _); discriminate]].
  destruct (반 r) as [c'|];
    [|split; [discriminate|intros (_ & H & _); discriminate]].
  destruct (번호 r) as [n'|];
    [|split; [discriminate|intros (_ & _ & H); discriminate]].
  rewrite !andb_true_iff, !Z.eqb_eq. split.
  - intros [[-> ->] ->]. now repeat split.
  - intros ([= ->] & [= ->] & [= ->]). now repeat split.
Qed.

Lemma noIdent_false (r : Row) :
  noIdent r = false -> exists t, rowOfStudent r t.
Proof.
  unfold noIdent. destruct (학년 r) as [g|] eqn:Eg; [|discriminate].
  destruct (반 r) as [c|] eqn:Ec; [|discriminate].
  destruct (번호 r) as [n|] eqn:En; [|discriminate].
  intros _. exists (g, c, n). unfold rowOfStudent. now rewrite Eg, Ec, En.
Qed.

Lemma noIdent_true (r : Row) (t : Z * Z * Z) :
  noIdent r = true -> hasIdent t r = false.
Proof.
  destruct t as [[g c] n]. unfold noIdent, hasIdent.
  destruct (학년 r), (반 r), (번호 r); try reflexivity. discriminate.
Qed.

End KeyInj.

Module StudentFacts.

Lemma keys_set_add {V} (m : JsMap.t V) (k : jsstring) (v : V) :
  JsMap.keys (JsMap.set k v m) = JsSet.add Js.str_eqb k (JsMap.keys m).
Proof. rewrite JsFacts.keys_set. reflexivity. Qed.

Lemma studentKeys_fold (rows : list Row) :
  studentKeys rows = fold_left studentKeysStep rows [].
Proof. reflexivity. Qed.

Lemma creditsMap_fold (rows : list Row) :
  creditsMap rows = fold_left creditsStep rows [].
Proof. reflexivity. Qed.

Lemma byStudentMap_fold (rows : list Row) :
  byStudentMap rows = fold_left byStudentStep rows [].
Proof. reflexivity. Qed.

Lemma creditsStep_keys (m : JsMap.t float) (r : Row) :
  JsMap.keys (creditsStep m r) = studentKeysStep (JsMap.keys m) r.
Proof.
  unfold creditsStep, studentKeysStep.
  destruct (학년 r), (반 r), (번호 r); try reflexivity. apply keys_set_add.
Qed.

Lemma byStudentStep_keys (m : JsMap.t Entry.t) (r : Row) :
  JsMap.keys (byStudentStep m r) = studentKeysStep (JsMap.keys m) r.
Proof.
  unfold byStudentStep, studentKeysStep.
  destruct (학년 r), (반 r), (번호 r); try reflexivity.
  destruct (JsMap.get _ m); apply keys_set_add.
Qed.

Lemma byStuStep_keys (m : JsMap.t Student.t) (r : Row) :
  JsMap.keys (byStuStep m r) = studentKeysStep (JsMap.keys m) r.
Proof.
  unfold byStuStep, studentKeysStep.
  destruct (학년 r), (반 r), (번호 r); try reflexivity. apply keys_set_add.
Qed.

Lemma fold_keys {V} (step : JsMap.t V -> Row -> JsMap.t V) (rows : list Row) :
  (forall m r, JsMap.keys (step m r) = studentKeysStep (JsMap.keys m) r) ->
  forall m, JsMap.keys (fold_left step rows m)
            = fold_left studentKeysStep rows (JsMap.keys m).
Proof.
  intros H. induction rows as [|r rows IH]; intros m; simpl; [reflexivity|].
  now rewrite IH, H.
Qed.

Lemma creditsMap_keys (rows : list Row) :
  JsMap.keys (creditsMap rows) = studentKeys rows.
Proof. apply (fold_keys creditsStep rows creditsStep_keys []). Qed.

Lemma byStudentMap_keys (rows : list Row) :
  JsMap.keys (byStudentMap rows) = studentKeys rows.
Proof. apply (fold_keys byStudentStep rows byStudentStep_keys []). Qed.

Lemma byStuOf_keys (rows : list Row) :
  JsMap.keys (byStuOf rows) = studentKeys rows.
Proof.
  rewrite ExportFacts.byStuOf_fold.
  apply (fold_keys byStuStep rows byStuStep_keys []).
Qed.

Lemma add_length (k : jsstring) (set : list jsstring) :
  (length (JsSet.add Js.str_eqb k set) <= S (length set))%nat.
Proof.
  unfold JsSet.add. destruct (JsSet.has Js.str_eqb k set); [lia|].
  rewrite length_app. simpl. lia.
Qed.

Lemma studentKeys_length_from (rows : list Row) (set : list jsstring) :
  (length (fold_left studentKeysStep rows set) <= length set + length rows)%nat.
Proof.
  revert set. induction rows as [|r rows IH]; intros set; simpl; [lia|].
  specialize (IH (studentKeysStep set r)).
  assert (length (studentKeysStep set r) <= S (length set))%nat; [|lia].
  unfold studentKeysStep. destruct (학년 r), (반 r), (번호 r); try lia.
  apply add_length.
Qed.

Lemma studentKeys_snoc (rows : list Row) (r : Row) :
  studentKeys (rows ++ [r]) = studentKeysStep (studentKeys rows) r.
Proof. unfold studentKeys. now rewrite fold_left_app. Qed.

Lemma byStudentMap_snoc (rows : list Row) (r : Row) :
  byStudentMap (rows ++ [r]) = byStudentStep (byStudentMap rows) r.
Proof. unfold byStudentMap. now rewrite fold_left_app. Qed.

Lemma NoDup_add (k : jsstring) (set : list jsstring) :
  NoDup set -> NoDup (JsSet.add Js.str_eqb k set).
Proof.
  intros H. unfold JsSet.add. destruct (JsSet.has Js.str_eqb k set) eqn:E;
    [assumption|].
  apply NoDup_app; [assumption|repeat constructor; intros []|].
  intros x Hx [<-|[]].
  apply JsFacts.has_In in Hx. congruence.
Qed.

Lemma studentKeys_NoDup (rows : list Row) : NoDup (studentKeys rows).
Proof.
  induction rows as [|r rows IH] using rev_ind; [constructor|].
  rewrite studentKeys_snoc. unfold studentKeysStep.
  destruct (학년 r), (반 r), (번호 r); try assumption. now apply NoDup_add.
Qed.

Lemma studentKeys_In (rows : list Row) (k : jsstring) :
  In k (studentKeys rows)
  <-> exists r t, In r rows /\ rowOfStudent r t /\ k = keyOfIdent t.
Proof.
  induction rows as [|r rows IH] using rev_ind.
  - split; [intros []|]. intros (r & t & [] & _).
  - rewrite studentKeys_snoc.
    assert (Hold : (exists r0 t, In r0 rows /\ rowOfStudent r0 t /\ k = keyOfIdent t)
                   -> exists r0 t, In r0 (rows ++ [r]) /\ rowOfStudent r0 t
                                   /\ k = keyOfIdent t).
    { intros (r0 & t & Hin & H). exists r0, t. split; [|exact H].
      apply in_or_app. now left. }
    destruct (noIdent r) eqn:En.
    + assert (Es : studentKeysStep (studentKeys rows) r = studentKeys rows).
      { unfold studentKeysStep. unfold noIdent in En.
        destruct (학년 r), (반 r), (번호 r); try reflexivity. discriminate. }
      rewrite Es, IH. split; [exact Hold|].
      intros (r0 & t & Hin & Hr & Hk). apply in_app_or in Hin as [Hin|[<-|[]]].
      * now exists r0, t.
      * apply KeyInj.hasIdent_true in Hr.
        rewrite (@KeyInj.noIdent_true r t En) in Hr. discriminate.
    + destruct (@KeyInj.noIdent_false r En) as ([[g c] n] & Hr).
      assert (Es : studentKeysStep (studentKeys rows) r
                   = JsSet.add Js.str_eqb (keyOf g c n) (studentKeys rows)).
      { unfold studentKeysStep. destruct Hr as (-> & -> & ->). reflexivity. }
      rewrite Es, JsFacts.In_add, IH. split.
      * intros [->|H]; [|now apply Hold].
        exists r, (g, c, n). split; [|now split].
        apply in_or_app. right. now left.
      * intros (r0 & t & Hin & Hr0 & Hk).
        apply in_app_or in Hin as [Hin|[<-|[]]].
        -- right. now exists r0, t.
        -- left. destruct t as [[g' c'] n'].
           destruct Hr as (Hg & Hc & Hn), Hr0 as (Hg' & Hc' & Hn').
           rewrite Hk. simpl. congruence.
Qed.

(** The entry of a student holds the rows of the student, in the order of
    the sheet, and the name of the first of them. *)
Lemma byStudentMap_get (rows : list Row) (t : Z * Z * Z) :
  JsMap.get (keyOfIdent t) (byStudentMap rows)
  = match rowsOf t rows with
    | [] => None
    | r0 :: rs => Some (entryOf t r0 rs)
    end.
Proof.
  induction rows as [|r rows IH] using rev_ind; [reflexivity|].
  rewrite byStudentMap_snoc. unfold rowsOf in *. rewrite filter_app.
  cbn [filter]. destruct (noIdent r) eqn:En.
  - rewrite (@KeyInj.noIdent_true r t En), app_nil_r.
    unfold byStudentStep. unfold noIdent in En.
    destruct (학년 r), (반 r), (번호 r); try exact IH. discriminate.
  - destruct (@KeyInj.noIdent_false r En) as ([[g c] n] & Hr).
    assert (Es : byStudentStep (byStudentMap rows) r
                 = match JsMap.get (keyOf g c n) (byStudentMap rows) with
                   | None =>
                       JsMap.set (keyOf g c n) (entryOf (g, c, n) r [])
                         (byStudentMap rows)
                   | Some prev =>
                       JsMap.set (keyOf g c n)
                         {| Entry.key := Entry.key prev;
                            Entry.학년 := Entry.학년 prev;
                            Entry.반 := Entry.반 prev;
                            Entry.번호 := Entry.번호 prev;
                            Entry.이름 := Entry.이름 prev;
                            Entry.rows := Entry.rows prev ++ [r] |}
                         (byStudentMap rows)
                   end).
    { unfold byStudentStep. destruct Hr as (-> & -> & ->). reflexivity. }
    rewrite Es. clear Es.
    destruct (hasIdent t r) eqn:Et.
    + apply KeyInj.hasIdent_true in Et.
      assert (t = (g, c, n)) as ->.
      { destruct t as [[g' c'] n']. destruct Hr as (Hg & Hc & Hn).
        destruct Et as (Hg' & Hc' & Hn'). congruence. }
      change (keyOfIdent (g, c, n)) with (keyOf g c n) in *.
      rewrite IH. destruct (filter (hasIdent (g, c, n)) rows) as [|r0 rs].
      * now rewrite JsFacts.get_set_eq.
      * now rewrite JsFacts.get_set_eq.
    + rewrite app_nil_r.
      assert (Hne : keyOfIdent t <> keyOf g c n).
      { intros E. change (keyOf g c n) with (keyOfIdent (g, c, n)) in E.
        apply KeyInj.keyOfIdent_inj in E. subst t.
        apply KeyInj.hasIdent_true in Hr. congruence. }
      destruct (JsMap.get (keyOf g c n) (byStudentMap rows));
        now rewrite JsFacts.get_set_ne.
Qed.

Lemma byStudentMap_entries (rows : list Row) (k : jsstring) (e : Entry.t) :
  In (k, e) (byStudentMap rows) ->
  exists t r0 rs, k = keyOfIdent t /\ rowsOf t rows = r0 :: rs
                  /\ e = entryOf t r0 rs.
Proof.
  intros Hin.
  assert (Hk : In k (studentKeys rows)).
  { rewrite <- byStudentMap_keys. unfold JsMap.keys.
    apply in_map_iff. now exists (k, e). }
  apply studentKeys_In in Hk as (r & t & _ & _ & ->).
  apply JsFacts.In_get_Some in Hin;
    [|rewrite byStudentMap_keys; apply studentKeys_NoDup].
  rewrite byStudentMap_get in Hin.
  destruct (rowsOf t rows) as [|r0 rs] eqn:E; [discriminate|].
  injection Hin as <-. now exists t, r0, rs.
Qed.

Lemma rowsOf_nonempty (rows : list Row) (t : Z * Z * Z) :
  rowsOf t rows <> [] <-> exists r, In r rows /\ rowOfStudent r t.
Proof.
  unfold rowsOf. split.
  - destruct (filter (hasIdent t) rows) as [|r0 rs] eqn:E; [congruence|].
    intros _. exists r0.
    assert (Hin : In r0 (filter (hasIdent t) rows)) by (rewrite E; now left).
    apply filter_In in Hin as [Hin Ht]. split; [exact Hin|].
    now apply KeyInj.hasIdent_true.
  - intros (r & Hin & Hr) E.
    assert (Hf : In r (filter (hasIdent t) rows)).
    { apply filter_In. split; [exact Hin|]. now apply KeyInj.hasIdent_true. }
    rewrite E in Hf. destruct Hf.
Qed.

Lemma NoDup_map_inj_on {A B} (f : A -> B) (l : list A) (x y : A) :
  NoDup (map f l) -> In x l -> In y l -> f x = f y -> x = y.
Proof.
  induction l as [|a l IH]; simpl; [tauto|].
  intros Hnd Hx Hy E. inversion Hnd as [|? ? Hni Hnd']; subst.
  destruct Hx as [->|Hx], Hy as [->|Hy].
  - reflexivity.
  - exfalso. apply Hni. rewrite E. now apply in_map.
  - exfalso. apply Hni. rewrite <- E. now apply in_map.
  - now apply IH.
Qed.

Lemma StronglySorted_map {A B} (f : A -> B) (lt : B -> B -> Prop) (l : list A) :
  StronglySorted (fun a b => lt (f a) (f b)) l -> StronglySorted lt (map f l).
Proof.
  induction 1 as [|a l Hs IH Hf]; simpl; constructor; [assumption|].
  rewrite Forall_forall in *. intros y Hy.
  apply in_map_iff in Hy as (x & <- & Hx). now apply Hf.
Qed.

Lemma flat_map_length_one {A B} (f : A -> list B) (l : list A) :
  (forall x, In x l -> length (f x) = 1%nat) ->
  length (flat_map f l) = length l.
Proof.
  induction l as [|a l IH]; intros H; simpl; [reflexivity|].
  rewrite length_app, IH, H; [reflexivity|now left|].
  intros x Hx. apply H. now right.
Qed.

End StudentFacts.

Section StudentTheorems.
Context {host : Host} {coerce : Coerce}.

Lemma compareListed_lexLt (a b : Listed.t) :
  (compareListed a b < 0)%Z <-> lexLt (identOfListed a) (identOfListed b).
Proof.
  unfold compareListed, identOfListed, identOfEntry, lexLt, Num.or, Num.sign.
  destruct (Entry.학년 (Listed.entry a) - Entry.학년 (Listed.entry b) =? 0)%Z
    eqn:Eg.
  - destruct (Entry.반 (Listed.entry a) - Entry.반 (Listed.entry b) =? 0)%Z
      eqn:Ec; lia.
  - rewrite Eg. lia.
Qed.

Lemma identOfEntry_entryOf (t : Z * Z * Z) (r0 : Row) (rs : list Row) :
  identOfEntry (entryOf t r0 rs) = t.
Proof. now destruct t as [[g c] n]. Qed.

Lemma identOfListed_listedOf (e : Entry.t) :
  identOfListed (listedOf e) = identOfEntry e.
Proof. reflexivity. Qed.

Lemma entry_listedOf (e : Entry.t) : Listed.entry (listedOf e) = e.
Proof. reflexivity. Qed.

Lemma listed_entries (rows : list Row) (l : Listed.t) :
  In l (map (fun kv => listedOf (snd kv)) (byStudentMap rows)) ->
  exists r0 rs, rowsOf (identOfListed l) rows = r0 :: rs
                /\ Listed.entry l = entryOf (identOfListed l) r0 rs.
Proof.
  intros Hin. apply in_map_iff in Hin as ([k e] & <- & Hin).
  apply StudentFacts.byStudentMap_entries in Hin as (t & r0 & rs & _ & Hr & ->).
  exists r0, rs. cbn [snd].
  rewrite identOfListed_listedOf, entry_listedOf, identOfEntry_entryOf.
  now split.
Qed.

Lemma listed_NoDup (rows : list Row) :
  NoDup (map identOfListed
           (map (fun kv => listedOf (snd kv)) (byStudentMap rows))).
Proof.
  apply (NoDup_map_inv keyOfIdent). rewrite !map_map.
  assert (E : map (fun x : jsstring * Entry.t =>
                     keyOfIdent (identOfListed (listedOf (snd x))))
                (byStudentMap rows)
              = JsMap.keys (byStudentMap rows)).
  { unfold JsMap.keys. apply map_ext_in. intros [k e] Hin.
    apply StudentFacts.byStudentMap_entries in Hin as (t & r0 & rs & -> & _ & ->).
    cbn [snd fst]. now rewrite identOfListed_listedOf, identOfEntry_entryOf. }
  rewrite E, StudentFacts.byStudentMap_keys. apply StudentFacts.studentKeys_NoDup.
Qed.

(** The list of the students on the screen has one element for each
    student that a row names, in the strict order of grade, class and
    number, whatever the signs of the three; the element holds the rows of
    the student in the order of the sheet, and the name of the first of
    them. *)
Theorem byStudent_list (rows : list Row) :
  StronglySorted lexLt (map identOfListed (byStudentList rows))
  /\ (forall t, In t (map identOfListed (byStudentList rows))
                <-> exists r, In r rows /\ rowOfStudent r t)
  /\ (forall l, In l (byStudentList rows) ->
        exists r0 rs, rowsOf (identOfListed l) rows = r0 :: rs
                      /\ Listed.entry l = entryOf (identOfListed l) r0 rs).
Proof.
  unfold byStudentList.
  set (l0 := map (fun kv => listedOf (snd kv)) (byStudentMap rows)).
  assert (Hperm : Permutation (Js.sort compareListed l0) l0) by apply sort_perm.
  split; [|split].
  - apply StudentFacts.StronglySorted_map.
    apply sort_sorted with (good := fun x => In x l0).
    + intros x y _ _. apply compareListed_lexLt.
    + intros x y z. apply KeyFacts.lexLt_trans.
    + intros x y Hx Hy Hne. apply KeyFacts.lexLt_total. intros E. apply Hne.
      apply (StudentFacts.NoDup_map_inj_on identOfListed l0);
        try assumption. apply listed_NoDup.
    + apply Forall_forall. now intros x Hx.
    + apply (NoDup_map_inv identOfListed). apply listed_NoDup.
  - intros t. rewrite <- StudentFacts.rowsOf_nonempty. split.
    + intros Hin. apply in_map_iff in Hin as (l & <- & Hin).
      apply (Permutation_in _ Hperm) in Hin.
      apply listed_entries in Hin as (r0 & rs & -> & _). discriminate.
    + intros Hne. pose proof (StudentFacts.byStudentMap_get rows t) as Hg.
      destruct (rowsOf t rows) as [|r0 rs]; [congruence|].
      apply JsFacts.get_Some_In in Hg.
      apply in_map_iff. exists (listedOf (entryOf t r0 rs)). split.
      * rewrite identOfListed_listedOf. apply identOfEntry_entryOf.
      * apply (Permutation_in _ (Permutation_sym Hperm)).
        apply in_map_iff. now exists (keyOfIdent t, entryOf t r0 rs).
  - intros l Hin. apply (Permutation_in _ Hperm) in Hin.
    now apply listed_entries.
Qed.

(** The panel of a student lists the rows of the sheet that have the
    grade, class and number of the key, in the order of the sheet; for a
    key that no row has, the list and the sums are empty. *)
Theorem detail_lists_rows (rows : list Row) :
  (forall t, fst (detail rows (keyOfIdent t)) = map detailItem (rowsOf t rows))
  /\ (forall key, ~ In key (studentKeys rows) -> detail rows key = ([], [])).
Proof.
  split.
  - intros t. unfold detail. rewrite StudentFacts.byStudentMap_get.
    destruct (rowsOf t rows) as [|r0 rs]; [reflexivity|].
    destruct t as [[g c] n]. reflexivity.
  - intros key Hk. unfold detail.
    rewrite <- StudentFacts.byStudentMap_keys in Hk.
    apply JsFacts.get_None_keys in Hk. now rewrite Hk.
Qed.

(** The number of students that [Kpis] shows is the number of entries of
    its map of credits, the number of elements of the list of students,
    and the number of rows that the export writes; it is at most the
    number of rows. *)
Theorem kpis_student_count (rows : list Row) :
  Kpi.students (Kpis rows) = Kpi.count (Kpis rows)
  /\ Kpi.students (Kpis rows) = length (byStudentList rows)
  /\ (forall PREREQS cols out,
        exportAll PREREQS rows = Some (cols, out) ->
        length out = Kpi.students (Kpis rows))
  /\ (Kpi.students (Kpis rows) <= Kpi.total (Kpis rows))%nat.
Proof.
  unfold Kpis. cbn [Kpi.students Kpi.count Kpi.total].
  split; [|split; [|split]].
  - rewrite <- StudentFacts.creditsMap_keys. unfold JsMap.keys.
    now rewrite length_map.
  - unfold byStudentList.
    rewrite (Permutation_length (sort_perm compareListed _)), length_map.
    rewrite <- StudentFacts.byStudentMap_keys. unfold JsMap.keys.
    now rewrite length_map.
  - intros PREREQS cols out E. unfold exportAll in E.
    destruct rows as [|r rows]; [discriminate|]. injection E as _ <-.
    set (rs := r :: rows).
    rewrite StudentFacts.flat_map_length_one.
    + rewrite (Permutation_length (sort_perm compareKeys _)).
      now rewrite StudentFacts.byStuOf_keys.
    + intros k Hk.
      apply (Permutation_in _ (sort_perm compareKeys _)) in Hk.
      destruct (JsMap.get k (byStuOf rs)) eqn:Eg; [reflexivity|].
      apply JsFacts.get_None_keys in Eg. contradiction.
  - pose proof (StudentFacts.studentKeys_length_from rows []) as H.
    simpl in H. exact H.
Qed.

(** When no row has grade, class and number, [Kpis] shows no student and
    the mean 0: it does not divide by the number of students. *)
Theorem kpis_no_student (rows : list Row) :
  forallb noIdent rows = true ->
  Kpis rows = {| Kpi.total := length rows; Kpi.students := 0;
                 Kpi.count := 0; Kpi.avg := 0%float |}.
Proof.
  intros H.
  assert (Ek : studentKeys rows = []).
  { unfold studentKeys. induction rows as [|r rows IH]; [reflexivity|].
    simpl in H. apply andb_true_iff in H as [Hr H]. simpl.
    unfold noIdent in Hr.
    destruct (학년 r), (반 r), (번호 r); try discriminate; now apply IH. }
  assert (Em : creditsMap rows = []).
  { pose proof (StudentFacts.creditsMap_keys rows) as E. rewrite Ek in E.
    unfold JsMap.keys in E. now apply map_eq_nil in E. }
  unfold Kpis. rewrite Ek, Em. simpl. f_equal.
Qed.

End StudentTheorems.

Lemma kpis_no_student_sample :
  Kpis SampleClass.unnumbered
  = {| Kpi.total := 1; Kpi.students := 0; Kpi.count := 0; Kpi.avg := 0%float |}.
Proof. exact (@kpis_no_student SampleClass.unnumbered eq_refl). Defined.

(** ** The students of a class and the keyboard *)

Module ClassFacts.

Lemma String_nonEmpty (z : Z) : Js.String_ z <> [].
Proof.
  destruct z as [|p|p]; try discriminate.
  destruct (@KeyInj.String_nonneg (Zpos p)) as (c & s & E & _); [lia|].
  rewrite E. discriminate.
Qed.

Section WithHost.
Context {host : Host}.

Lemma classNumbers_classKey (g c : Z) :
  (0 <= g)%Z -> (0 <= c)%Z -> classNumbers (classKey g c) = (Some g, Some c).
Proof.
  intros Hg Hc. unfold classNumbers, classKey. simpl app.
  rewrite KeyFacts.split_at by now apply KeyFacts.String_no_minus.
  rewrite KeyFacts.split_no_sep by now apply KeyFacts.String_no_minus.
  simpl. now rewrite !KeyFacts.Number_String.
Qed.

Lemma classMap_fold (rows : list Row) (g c : Z) :
  classMap rows g c = fold_left (classMapStep g c) rows [].
Proof. reflexivity. Qed.

Lemma classMap_snoc (rows : list Row) (r : Row) (g c : Z) :
  classMap (rows ++ [r]) g c = classMapStep g c (classMap rows g c) r.
Proof. rewrite !classMap_fold. now rewrite fold_left_app. Qed.

Lemma lastRowOf_snoc (t : Z * Z * Z) (rows : list Row) (r : Row) :
  lastRowOf t (rows ++ [r])
  = if hasIdent t r then Some r else lastRowOf t rows.
Proof.
  unfold lastRowOf, rowsOf. rewrite filter_app. cbn [filter].
  destruct (hasIdent t r).
  - now rewrite rev_app_distr.
  - now rewrite app_nil_r.
Qed.

Lemma classMapStep_cases (g c : Z) (m : JsMap.t jsstring) (r : Row) :
  (exists n, hasIdent (g, c, n) r = true
             /\ classMapStep g c m r
                = JsMap.set (keyOf g c n) (labelOf n (이름 r)) m)
  \/ (classMapStep g c m r = m /\ forall n, hasIdent (g, c, n) r = false).
Proof.
  unfold classMapStep, hasIdent, strictEq.
  destruct (학년 r) as [g'|]; [|now right].
  destruct (반 r) as [c'|]; [|right; split; [now rewrite andb_false_r|easy]].
  destruct (번호 r) as [n'|].
  - destruct (g' =? g)%Z; [|now right].
    destruct (c' =? c)%Z; [|now right].
    left. exists n'. now rewrite Z.eqb_refl.
  - right. split; [now destruct ((g' =? g)%Z && (c' =? c)%Z)|easy].
Qed.

(** The label of a student of the class is made of the last row of the
    student. *)
Lemma classMap_get (rows : list Row) (g c n : Z) :
  JsMap.get (keyOf g c n) (classMap rows g c)
  = option_map (fun r => labelOf n (이름 r)) (lastRowOf (g, c, n) rows).
Proof.
  induction rows as [|r rows IH] using rev_ind; [reflexivity|].
  rewrite classMap_snoc, lastRowOf_snoc.
  destruct (classMapStep_cases g c (classMap rows g c) r)
    as [(n' & Hn' & ->)|[-> Hno]].
  - destruct (Z.eq_dec n' n) as [->|Hne].
    + now rewrite Hn', JsFacts.get_set_eq.
    + rewrite JsFacts.get_set_ne.
      * rewrite IH. destruct (hasIdent (g, c, n) r) eqn:E; [|reflexivity].
        exfalso. apply KeyInj.hasIdent_true in E, Hn'.
        destruct E as (_ & _ & E), Hn' as (_ & _ & E'). congruence.
      * intros E. apply KeyInj.keyOf_inj in E. congruence.
  - now rewrite Hno.
Qed.

Lemma classMap_keys (rows : list Row) (g c : Z) (k : jsstring) :
  In k (JsMap.keys (classMap rows g c)) -> exists n, k = keyOf g c n.
Proof.
  induction rows as [|r rows IH] using rev_ind; [intros []|].
  rewrite classMap_snoc.
  destruct (classMapStep_cases g c (classMap rows g c) r)
    as [(n' & Hn' & ->)|[-> Hno]]; [|exact IH].
  rewrite JsFacts.In_keys_set. intros [->|H]; [now exists n'|now apply IH].
Qed.

Lemma classMap_NoDup (rows : list Row) (g c : Z) :
  NoDup (JsMap.keys (classMap rows g c)).
Proof.
  induction rows as [|r rows IH] using rev_ind; [constructor|].
  rewrite classMap_snoc.
  destruct (classMapStep_cases g c (classMap rows g c) r)
    as [(n' & Hn' & ->)|[-> Hno]]; [|exact IH].
  now apply JsFacts.NoDup_keys_set.
Qed.

Lemma findIndex_Some {A} (p : A -> bool) (l : list A) (i : nat) :
  JsMore.findIndex p l = Some i ->
  exists x, nth_error l i = Some x /\ p x = true.
Proof.
  revert i. induction l as [|a l IH]; intros i; simpl; [discriminate|].
  destruct (p a) eqn:E.
  - intros [= <-]. now exists a.
  - destruct (JsMore.findIndex p l) as [j|]; [|discriminate].
    intros [= <-]. now apply IH.
Qed.

Lemma findIndex_app {A} (p : A -> bool) (pre post : list A) (a : A) :
  forallb (fun x => negb (p x)) pre = true -> p a = true ->
  JsMore.findIndex p (pre ++ a :: post) = Some (length pre).
Proof.
  intros Hpre Ha. induction pre as [|x pre IH]; simpl.
  - now rewrite Ha.
  - simpl in Hpre. apply andb_true_iff in Hpre as [Hx Hpre].
    apply negb_true_iff in Hx. rewrite Hx, IH by assumption. reflexivity.
Qed.

Lemma selectedIndex_range (fs : list Choice.t) (sel : option jsstring) :
  (-1 <= selectedIndex fs sel < Z.of_nat (length fs))%Z.
Proof.
  unfold selectedIndex.
  destruct (JsMore.findIndex (isSelected sel) fs) as [i|] eqn:E; [|lia].
  apply findIndex_Some in E as (x & E & _).
  assert (i < length fs)%nat by (apply nth_error_Some; congruence). lia.
Qed.

Lemma choiceAt_nat (fs : list Choice.t) (i : nat) :
  choiceAt fs (Z.of_nat i) = nth_error fs i.
Proof.
  unfold choiceAt. destruct (Z.ltb_spec (Z.of_nat i) 0); [lia|].
  now rewrite Nat2Z.id.
Qed.

Lemma choiceAt_In (fs : list Choice.t) (z : Z) (x : Choice.t) :
  choiceAt fs z = Some x -> In x fs.
Proof.
  unfold choiceAt. destruct (z <? 0)%Z; [discriminate|]. apply nth_error_In.
Qed.

Lemma choiceAt_range (fs : list Choice.t) (z : Z) :
  (0 <= z < Z.of_nat (length fs))%Z -> choiceAt fs z <> None.
Proof.
  intros H. unfold choiceAt. destruct (Z.ltb_spec z 0); [lia|].
  apply nth_error_Some. lia.
Qed.

Lemma isSelected_key (a x : Choice.t) :
  isSelected (Some (Choice.key a)) x = Js.str_eqb (Choice.key x) (Choice.key a).
Proof. reflexivity. Qed.

Lemma not_selected_before (a : Choice.t) (pre : list Choice.t) :
  ~ In (Choice.key a) (map Choice.key pre) ->
  forallb (fun x => negb (isSelected (Some (Choice.key a)) x)) pre = true.
Proof.
  intros H. apply forallb_forall. intros x Hx. rewrite isSelected_key.
  apply negb_true_iff. apply JsFacts.str_eqb_neq. intros E. apply H.
  rewrite <- E. now apply in_map.
Qed.

Lemma selectedIndex_at (pre post : list Choice.t) (a : Choice.t) :
  ~ In (Choice.key a) (map Choice.key pre) ->
  selectedIndex (pre ++ a :: post) (Some (Choice.key a)) = Z.of_nat (length pre).
Proof.
  intros H. unfold selectedIndex. rewrite findIndex_app; [reflexivity| |].
  - now apply not_selected_before.
  - rewrite isSelected_key. apply JsFacts.str_eqb_refl.
Qed.

Lemma arrow_keys : Js.str_eqb Label.arrowUp Label.arrowDown = false.
Proof. reflexivity. Qed.

Lemma handleListKey_nonempty (fs : list Choice.t) (sel : option jsstring)
  (key : jsstring) :
  fs <> [] ->
  handleListKey fs sel key
  = if Js.str_eqb key Label.arrowDown || Js.str_eqb key Label.arrowUp then
      match
        choiceAt fs
          (if Js.str_eqb key Label.arrowDown
           then (if (selectedIndex fs sel <? 0)%Z then 0
                 else Z.min (selectedIndex fs sel + 1)
                        (Z.of_nat (length fs) - 1))%Z
           else (if (selectedIndex fs sel <? 0)%Z then 0
                 else Z.max (selectedIndex fs sel - 1) 0)%Z)
      with
      | Some next => Some (Choice.key next)
      | None => None
      end
    else None.
Proof. destruct fs; [congruence|reflexivity]. Qed.

End WithHost.

End ClassFacts.

Section SelectionTheorems.
Context {host : Host}.

(** The list of a class has one element for each number that a row of the
    class has.  Its label is made of the last row of the sheet with that
    number, so of the name in that row (the export keeps the name of the
    first row).  Stated for a class whose grade and class number are not
    negative. *)
Theorem studentsInClass_members (rows : list Row) (g c : Z) (s : Choice.t) :
  (0 <= g)%Z -> (0 <= c)%Z ->
  (In s (studentsInClass rows (Some (classKey g c)))
   <-> exists n r, lastRowOf (g, c, n) rows = Some r
                   /\ s = {| Choice.key := keyOf g c n;
                             Choice.label := labelOf n (이름 r) |})
  /\ NoDup (map Choice.key (studentsInClass rows (Some (classKey g c)))).
Proof.
  intros Hg Hc. unfold studentsInClass.
  assert (Hne : Js.nonEmpty (classKey g c) = true).
  { apply JsFacts.nonEmpty_true. unfold classKey.
    pose proof (ClassFacts.String_nonEmpty g).
    destruct (Js.String_ g); [contradiction|discriminate]. }
  rewrite Hne, ClassFacts.classNumbers_classKey by assumption. cbn [negb].
  set (m := classMap rows g c).
  set (l0 := map (fun kv : jsstring * jsstring =>
                    {| Choice.key := fst kv; Choice.label := snd kv |}) m).
  assert (Hperm : Permutation (Js.sort compareChoices l0) l0) by apply sort_perm.
  split.
  - split.
    + intros Hin. apply (Permutation_in _ Hperm) in Hin.
      apply in_map_iff in Hin as ([k lab] & <- & Hin). cbn [fst snd].
      assert (Hk : In k (JsMap.keys m)).
      { unfold JsMap.keys. apply in_map_iff. now exists (k, lab). }
      apply ClassFacts.classMap_keys in Hk as (n & ->).
      apply JsFacts.In_get_Some in Hin; [|apply ClassFacts.classMap_NoDup].
      unfold m in Hin. rewrite ClassFacts.classMap_get in Hin.
      destruct (lastRowOf (g, c, n) rows) as [r|] eqn:El; [|discriminate].
      simpl in Hin. injection Hin as <-. now exists n, r.
    + intros (n & r & Hl & ->).
      apply (Permutation_in _ (Permutation_sym Hperm)).
      apply in_map_iff. exists (keyOf g c n, labelOf n (이름 r)).
      split; [reflexivity|]. apply JsFacts.get_Some_In.
      unfold m. now rewrite ClassFacts.classMap_get, Hl.
  - apply (Permutation_NoDup (Permutation_map Choice.key (Permutation_sym Hperm))).
    unfold l0. rewrite map_map. cbn [Choice.key].
    apply ClassFacts.classMap_NoDup.
Qed.

(** An arrow key selects a student of the list that is shown, and selects
    one whenever the list is not empty; when the selection is not in the
    list it is the first of the list; any other key, and any key on an
    empty list, selects nothing. *)
Theorem handleListKey_selects_listed (fs : list Choice.t)
  (sel : option jsstring) (key : jsstring) :
  (forall k, handleListKey fs sel key = Some k -> In k (map Choice.key fs))
  /\ (fs <> [] -> key = Label.arrowDown \/ key = Label.arrowUp ->
      handleListKey fs sel key <> None)
  /\ (key <> Label.arrowDown -> key <> Label.arrowUp ->
      handleListKey fs sel key = None)
  /\ (selectedIndex fs sel = (-1)%Z ->
      key = Label.arrowDown \/ key = Label.arrowUp ->
      handleListKey fs sel key = option_map Choice.key (hd_error fs)).
Proof.
  pose proof (ClassFacts.selectedIndex_range fs sel) as Hr.
  split; [|split; [|split]].
  - intros k. unfold handleListKey. destruct fs as [|a fs']; [discriminate|].
    set (fs := a :: fs') in *.
    destruct (Js.str_eqb key Label.arrowDown || Js.str_eqb key Label.arrowUp);
      [|discriminate].
    match goal with
    | |- match choiceAt fs ?z with _ => _ end = _ -> _ =>
        destruct (choiceAt fs z) as [x|] eqn:E; [|discriminate]
    end.
    intros [= <-]. apply in_map. now apply ClassFacts.choiceAt_In in E.
  - intros Hne Hkey. unfold handleListKey.
    destruct fs as [|a fs']; [congruence|]. set (fs := a :: fs') in *.
    assert (Hlen : (0 < Z.of_nat (length fs))%Z) by (simpl; lia).
    assert (Harrow : Js.str_eqb key Label.arrowDown
                     || Js.str_eqb key Label.arrowUp = true).
    { destruct Hkey as [->| ->]; [now rewrite JsFacts.str_eqb_refl|].
      rewrite JsFacts.str_eqb_refl. apply orb_true_r. }
    rewrite Harrow.
    match goal with
    | |- match choiceAt fs ?z with _ => _ end <> _ =>
        pose proof (@ClassFacts.choiceAt_range fs z) as Hc;
        destruct (choiceAt fs z) as [x|]; [discriminate|]
    end.
    exfalso. apply Hc; [|reflexivity].
    destruct (Js.str_eqb key Label.arrowDown);
      destruct (Z.ltb_spec (selectedIndex fs sel) 0); lia.
  - intros Hd Hu. unfold handleListKey. destruct fs as [|a fs']; [reflexivity|].
    apply JsFacts.str_eqb_neq in Hd, Hu. now rewrite Hd, Hu.
  - intros Hs Hkey. unfold handleListKey.
    destruct fs as [|a fs']; [reflexivity|]. set (fs := a :: fs') in *.
    rewrite Hs.
    destruct Hkey as [->| ->].
    + rewrite JsFacts.str_eqb_refl. reflexivity.
    + rewrite ClassFacts.arrow_keys, JsFacts.str_eqb_refl. reflexivity.
Qed.

(** In a list without a repeated key, the arrow down moves the selection
    to the student below and the arrow up to the student above; at the
    last student the arrow down, and at the first the arrow up, leave the
    selection where it is. *)
Theorem handleListKey_moves (pre post : list Choice.t) (a b : Choice.t) :
  NoDup (map Choice.key (pre ++ a :: b :: post)) ->
  handleListKey (pre ++ a :: b :: post) (Some (Choice.key a)) Label.arrowDown
  = Some (Choice.key b)
  /\ handleListKey (pre ++ a :: b :: post) (Some (Choice.key b)) Label.arrowUp
     = Some (Choice.key a)
  /\ (post = [] ->
      handleListKey (pre ++ a :: b :: post) (Some (Choice.key b))
        Label.arrowDown = Some (Choice.key b))
  /\ (pre = [] ->
      handleListKey (pre ++ a :: b :: post) (Some (Choice.key a))
        Label.arrowUp = Some (Choice.key a)).
Proof.
  intros Hnd.
  assert (Ha : ~ In (Choice.key a) (map Choice.key pre)).
  { rewrite map_app in Hnd. apply NoDup_remove_2 in Hnd.
    intros H. apply Hnd. apply in_or_app. now left. }
  assert (Hb : ~ In (Choice.key b) (map Choice.key (pre ++ [a]))).
  { replace (pre ++ a :: b :: post) with ((pre ++ [a]) ++ b :: post) in Hnd
      by now rewrite <- app_assoc.
    rewrite map_app in Hnd. apply NoDup_remove_2 in Hnd.
    intros H. apply Hnd. apply in_or_app. now left. }
  assert (Ia : selectedIndex (pre ++ a :: b :: post) (Some (Choice.key a))
               = Z.of_nat (length pre))
    by now apply ClassFacts.selectedIndex_at.
  assert (Ib : selectedIndex (pre ++ a :: b :: post) (Some (Choice.key b))
               = Z.of_nat (S (length pre))).
  { replace (pre ++ a :: b :: post) with ((pre ++ [a]) ++ b :: post)
      by now rewrite <- app_assoc.
    rewrite ClassFacts.selectedIndex_at by assumption.
    rewrite length_app. simpl. f_equal. lia. }
  assert (Na : nth_error (pre ++ a :: b :: post) (length pre) = Some a).
  { rewrite nth_error_app2 by lia. now rewrite Nat.sub_diag. }
  assert (Nb : nth_error (pre ++ a :: b :: post) (S (length pre)) = Some b).
  { rewrite nth_error_app2 by lia.
    replace (S (length pre) - length pre)%nat with 1%nat by lia. reflexivity. }
  assert (Hlen : length (pre ++ a :: b :: post) = (length pre + 2 + length post)%nat).
  { rewrite length_app. simpl. lia. }
  rewrite !ClassFacts.handleListKey_nonempty by (destruct pre; discriminate).
  rewrite !JsFacts.str_eqb_refl, ClassFacts.arrow_keys. cbn [orb].
  rewrite Ia, Ib, Hlen.
  split; [|split; [|split]].
  - replace (if (Z.of_nat (length pre) <? 0)%Z then 0%Z
             else Z.min (Z.of_nat (length pre) + 1)
                    (Z.of_nat (length pre + 2 + length post) - 1))
      with (Z.of_nat (S (length pre)))
      by (destruct (Z.ltb_spec (Z.of_nat (length pre)) 0); lia).
    now rewrite ClassFacts.choiceAt_nat, Nb.
  - replace (if (Z.of_nat (S (length pre)) <? 0)%Z then 0%Z
             else Z.max (Z.of_nat (S (length pre)) - 1) 0)
      with (Z.of_nat (length pre))
      by (destruct (Z.ltb_spec (Z.of_nat (S (length pre))) 0); lia).
    now rewrite ClassFacts.choiceAt_nat, Na.
  - intros ->.
    replace (if (Z.of_nat (S (length pre)) <? 0)%Z then 0%Z
             else Z.min (Z.of_nat (S (length pre)) + 1)
                    (Z.of_nat (length pre + 2 + length (@nil Choice.t)) - 1))
      with (Z.of_nat (S (length pre)))
      by (destruct (Z.ltb_spec (Z.of_nat (S (length pre))) 0); simpl length; lia).
    now rewrite ClassFacts.choiceAt_nat, Nb.
  - intros ->.
    replace (if (Z.of_nat (length (@nil Choice.t)) <? 0)%Z then 0%Z
             else Z.max (Z.of_nat (length (@nil Choice.t)) - 1) 0)
      with (Z.of_nat (length (@nil Choice.t)))
      by (simpl; lia).
    now rewrite ClassFacts.choiceAt_nat, Na.
Qed.

End SelectionTheorems.

Lemma studentsInClass_members_sample :
  In {| Choice.key := keyOf 1 2 3;
        Choice.label := labelOf 3 (Some SampleClass.nameB) |}
    (@studentsInClass SampleHost.host SampleClass.rows (Some (classKey 1 2))).
Proof.
  apply (proj1 (@studentsInClass_members SampleHost.host SampleClass.rows 1 2 _
                  ltac:(lia) ltac:(lia))).
  exists 3%Z. eexists. split; [vm_compute; reflexivity|reflexivity].
Defined.

Lemma handleListKey_moves_sample :
  handleListKey SampleClass.choices (Some [49]%N) Label.arrowDown = Some [50]%N.
Proof.
  refine (proj1 (@handleListKey_moves [] [_] _ _ _)).
  vm_compute. repeat constructor; simpl; intros H;
    repeat (destruct H as [H|H]; try discriminate); assumption.
Defined.

(** ** The summary of the earlier variant *)

Module OverallFacts.
Section WithHost.
Context {host : Host}.

Lemma bySubject_snoc (rows : list Row) (r : Row) :
  Overall.bySubject (rows ++ [r])
  = let g := Earlier.canonGroup (교과 r) in
    let ent := match JsMap.get g (Overall.bySubject rows) with
               | Some ent => ent
               | None => {| Overall.credits := 0%float; Overall.count := 0 |}
               end in
    JsMap.set g
      {| Overall.credits := (Overall.credits ent + Num.optOrZero (학점 r))%float;
         Overall.count := Overall.count ent + 1 |}
      (Overall.bySubject rows).
Proof. unfold Overall.bySubject. now rewrite fold_left_app. Qed.

Lemma bySubject_NoDup (rows : list Row) :
  NoDup (JsMap.keys (Overall.bySubject rows)).
Proof.
  induction rows as [|r rows IH] using rev_ind; [constructor|].
  rewrite bySubject_snoc. now apply JsFacts.NoDup_keys_set.
Qed.

Lemma bySubject_count (rows : list Row) (g : jsstring) :
  option_map Overall.count (JsMap.get g (Overall.bySubject rows))
  = let n := length (filter (fun r => Js.str_eqb (Earlier.canonGroup (교과 r)) g)
                       rows) in
    if (n =? 0)%nat then None else Some n.
Proof.
  induction rows as [|r rows IH] using rev_ind; [reflexivity|].
  rewrite bySubject_snoc, filter_app, length_app. cbv zeta in *. cbn [filter].
  destruct (JsFacts.str_eqb_spec (Earlier.canonGroup (교과 r)) g) as [E|E].
  - rewrite E, JsFacts.get_set_eq. cbn [option_map Overall.count length].
    destruct (JsMap.get g (Overall.bySubject rows)) as [e|];
      simpl in IH;
      destruct (Nat.eqb_spec
                  (length (filter (fun r => Js.str_eqb (Earlier.canonGroup (교과 r)) g)
                             rows)) 0) as [E0|E0];
      try discriminate.
    + injection IH as IH. rewrite IH.
      match goal with |- context [(?n =? 0)%nat] =>
        destruct (Nat.eqb_spec n 0); [lia|reflexivity] end.
    + rewrite E0. reflexivity.
  - rewrite JsFacts.get_set_ne by congruence. rewrite IH. simpl length.
    now rewrite Nat.add_0_r.
Qed.

Lemma count_sum_set (m : JsMap.t Overall.subject) (g : jsstring) (c : float) :
  list_sum
    (map (fun e => Overall.count (snd e))
       (JsMap.set g
          {| Overall.credits := c;
             Overall.count :=
               Overall.count
                 (match JsMap.get g m with
                  | Some ent => ent
                  | None => {| Overall.credits := 0%float; Overall.count := 0 |}
                  end) + 1 |} m))
  = S (list_sum (map (fun e => Overall.count (snd e)) m)).
Proof.
  induction m as [|[k v] m IH]; simpl; [reflexivity|].
  destruct (Js.str_eqb g k); simpl; [lia|]. rewrite IH. lia.
Qed.

End WithHost.
End OverallFacts.

Section OverallTheorems.
Context {host : Host}.

(** The summary has one line for each group, the number of courses of a
    line is the number of rows of the group and is never 0, and the
    numbers of all lines add up to the number of rows. *)
Theorem overall_counts (rows : list Row) :
  NoDup (map Overall.교과 (snd (Overall.overall rows)))
  /\ (forall x, In x (snd (Overall.overall rows)) ->
        Overall.건수 x
        = length (filter (fun r => Js.str_eqb (Earlier.canonGroup (교과 r))
                                     (Overall.교과 x)) rows)
        /\ (0 < Overall.건수 x)%nat)
  /\ list_sum (map Overall.건수 (snd (Overall.overall rows))) = length rows.
Proof.
  unfold Overall.overall. cbn [snd]. split; [|split].
  - rewrite map_map. cbn [Overall.교과].
    apply OverallFacts.bySubject_NoDup.
  - intros x Hx. apply in_map_iff in Hx as ([g e] & <- & Hin).
    cbn [fst snd Overall.교과 Overall.건수].
    apply JsFacts.In_get_Some in Hin; [|apply OverallFacts.bySubject_NoDup].
    pose proof (OverallFacts.bySubject_count rows g) as Hc.
    rewrite Hin in Hc. cbv zeta in Hc. simpl option_map in Hc.
    match type of Hc with context [(?n =? 0)%nat] =>
      destruct (Nat.eqb_spec n 0) as [E0|E0]; [discriminate|] end.
    injection Hc as Hc. rewrite Hc. split; [reflexivity|lia].
  - rewrite map_map. cbn [Overall.건수].
    induction rows as [|r rows IH] using rev_ind; [reflexivity|].
    rewrite OverallFacts.bySubject_snoc. cbv zeta.
    rewrite OverallFacts.count_sum_set, IH, length_app. simpl. lia.
Qed.

End OverallTheorems.

(** ** The check cell and the columns of the export *)

Module CellFacts.

Lemma flat_map_nil {A B} (f : A -> list B) (l : list A) :
  flat_map f l = [] <-> forall x, In x l -> f x = [].
Proof.
  induction l as [|a l IH]; simpl; [tauto|]. split.
  - intros E. apply app_eq_nil in E as [Ea El]. intros x [<-|Hx];
      [assumption|]. now apply IH.
  - intros H. rewrite (H a) by now left. apply IH. intros x Hx. apply H.
    now right.
Qed.

Lemma join_nonempty (sep p : jsstring) (ps : list jsstring) :
  p <> [] -> Js.join sep (p :: ps) <> [].
Proof.
  intros Hp. destruct ps as [|q ps]; simpl; [assumption|].
  destruct p; [contradiction|discriminate].
Qed.

Lemma DropsWs_stripWs (s t : jsstring) :
  DropsWs s t -> Js.stripWs t = Js.stripWs s.
Proof.
  unfold Js.stripWs.
  induction 1 as [|c s t H IH|c s t Hc H IH]; simpl.
  - reflexivity.
  - now rewrite IH.
  - now rewrite Hc, IH.
Qed.

Lemma stripWsInParens_no_paren (s : jsstring) :
  existsb (N.eqb Js.lparen) s = false -> Js.stripWsInParens false s = s.
Proof.
  induction s as [|c s IH]; [reflexivity|].
  cbn [existsb]. intros H. apply orb_false_iff in H as [Hc Hs].
  cbn [Js.stripWsInParens]. rewrite N.eqb_sym, Hc. cbn [andb].
  now rewrite IH.
Qed.

Section WithHost.
Context {host : Host}.

Lemma seqParts_nil (items : list Item.t) :
  seqParts items = [] <-> seqViolations items = [].
Proof.
  unfold seqParts, seqViolations. rewrite !flat_map_nil.
  split; intros H [b set] Hx; specialize (H (b, set) Hx);
    cbv beta iota zeta in *;
    destruct (0 <? length (missingBelow (Math_max set) set))%nat;
    try reflexivity; discriminate H.
Qed.

Lemma buildChecks_empty (PREREQS : JsMap.t (list jsstring))
  (items : list Item.t) :
  buildChecks PREREQS items = []
  <-> seqViolations items = [] /\ explicitFindings PREREQS items = [].
Proof.
  rewrite <- seqParts_nil. unfold buildChecks, explicitParts. cbv zeta. split.
  - intros E. destruct (seqParts items) as [|sp sps].
    + split; [reflexivity|].
      destruct (explicitFindings PREREQS items) as [|f fs]; [reflexivity|].
      exfalso. cbn [map length Nat.ltb Nat.leb app Js.join] in E.
      revert E. apply join_nonempty.
      unfold Lit.prereq_missing. destruct (fst f); discriminate.
    + exfalso. cbn [length Nat.ltb Nat.leb app] in E.
      revert E. apply join_nonempty. unfold Lit.seq_heading. discriminate.
  - intros [-> ->]. reflexivity.
Qed.

Lemma grpOf_groupSum (items : list Item.t) (g : jsstring) :
  match JsMap.get g (grpOf items) with
  | Some v => Num.orZero v
  | None => 0%float
  end = groupSum g items.
Proof.
  induction items as [|r items IH] using rev_ind; [reflexivity|].
  unfold grpOf, groupSum in *. rewrite fold_left_app, filter_app.
  cbn [fold_left filter]. unfold inGroup at 2.
  destruct (JsFacts.str_eqb_spec (Item.교과 r) g) as [Eg'|Eg'].
  - rewrite Eg', JsFacts.get_set_eq, fold_left_app. cbn [fold_left].
    rewrite <- IH. reflexivity.
  - rewrite JsFacts.get_set_ne by congruence. now rewrite app_nil_r.
Qed.

Lemma checkParts_empty (PREREQS : JsMap.t (list jsstring))
  (items : list Item.t) (pct : float) :
  Js.join Lit.bar (checkPartsOf PREREQS items pct) = []
  <-> seqViolations items = [] /\ explicitFindings PREREQS items = []
      /\ (50 <? pct)%float = false.
Proof.
  unfold checkPartsOf. cbv zeta.
  rewrite <- and_assoc, <- buildChecks_empty.
  destruct (buildChecks PREREQS items) as [|c hc] eqn:Eh.
  - cbn [Js.nonEmpty app]. destruct (50 <? pct)%float.
    + split; [|intros [_ H]; discriminate].
      unfold Lit.ratio_exceeded. simpl. discriminate.
    + split; [now split|reflexivity].
  - cbn [Js.nonEmpty app]. split; [|intros [H _]; discriminate].
    intros E. exfalso. revert E. apply join_nonempty. discriminate.
Qed.

End WithHost.

End CellFacts.

Section CellTheorems.
Context {host : Host}.
Variable PREREQS : JsMap.t (list jsstring).

(** The text of the validator is empty exactly when neither check has a
    finding, and the check cell of a row of the export is empty exactly
    when, besides, the ratio is not above 50. *)
Theorem check_cell_empty (groups : list jsstring) (s : Student.t) :
  let items := map itemOf (Student.list s) in
  let row := summaryOf PREREQS groups s in
  (buildChecks PREREQS items = []
   <-> seqViolations items = [] /\ explicitFindings PREREQS items = [])
  /\ (Summary.점검 row = []
      <-> seqViolations items = [] /\ explicitFindings PREREQS items = []
          /\ (50 <? Summary.비율 row)%float = false).
Proof.
  cbv zeta. split; [apply CellFacts.buildChecks_empty|].
  unfold summaryOf. cbn [Summary.점검 Summary.비율].
  apply CellFacts.checkParts_empty.
Qed.

End CellTheorems.

Section NameTheorems.
Context {host : Host}.

(** [normCourseName] changes the trimmed normal form of a name by
    deleting white space only, and leaves a name without an opening
    parenthesis as it is. *)
Theorem normCourseName_only_drops_ws (name r : jsstring) :
  normCourseName (Some name) = Some r ->
  DropsWs (NFKC (Js.trim name)) r
  /\ Js.stripWs r = Js.stripWs (NFKC (Js.trim name))
  /\ (existsb (N.eqb Js.lparen) (NFKC (Js.trim name)) = false ->
      r = NFKC (Js.trim name)).
Proof.
  unfold normCourseName. destruct (Js.nonEmpty name); [|discriminate].
  cbn [negb]. intros [= <-].
  pose proof (NormFacts.stripWsInParens_drops false (NFKC (Js.trim name))) as H.
  split; [exact H|]. split; [now apply CellFacts.DropsWs_stripWs|].
  intros Hp. now apply CellFacts.stripWsInParens_no_paren.
Qed.

(** A name that [parseHierLevel] reads has a level from 1 to 10 and a
    base that is not empty and has no white space at either end. *)
Theorem parseHierLevel_range (name : option jsstring) (h : HierLevel) :
  parseHierLevel name = Some h ->
  (1 <= level h <= 10)%Z /\ trimmed (base h) = true.
Proof.
  unfold parseHierLevel. destruct name as [name|]; [|discriminate].
  destruct (Js.nonEmpty name); [|discriminate]. cbn [negb].
  destruct (matchRe (NFKC (Js.trim name))) as [m1|]; [|discriminate].
  cbv zeta.
  destruct (JsMap.get _ romanMap) as [lv|] eqn:Eg; [|discriminate].
  destruct (lv =? 0)%Z; [discriminate|].
  destruct (Js.nonEmpty (Js.trim m1)) eqn:Eb; [|discriminate]. cbn [negb].
  intros [= <-]. cbn [level base]. split.
  - apply JsFacts.get_Some_In in Eg. unfold romanMap in Eg. simpl in Eg.
    repeat (destruct Eg as [Eg|Eg]; [injection Eg as _ <-; lia|]).
    destruct Eg.
  - destruct (ReadFacts.trim_result m1) as [E|E]; [|exact E].
    rewrite E in Eb. discriminate.
Qed.

End NameTheorems.

Lemma normCourseName_only_drops_ws_sample :
  Js.stripWs (Course.physics ++ [40; 49; 41]%N)
  = Js.stripWs (@NFKC SampleHost.host
                  (Js.trim (Course.physics ++ [40; 32; 49; 41; 32]%N))).
Proof.
  exact (proj1 (proj2 (@normCourseName_only_drops_ws SampleHost.host
                         (Course.physics ++ [40; 32; 49; 41; 32]%N)
                         (Course.physics ++ [40; 49; 41]%N)
                         ltac:(vm_compute; reflexivity)))).
Defined.

Lemma parseHierLevel_range_sample :
  (1 <= 2 <= 10)%Z /\ trimmed Course.chemistry = true.
Proof.
  exact (@parseHierLevel_range SampleHost.host
           (Some (Course.chemistry ++ Course.roman 2))
           {| base := Course.chemistry; level := 2 |}
           ltac:(vm_compute; reflexivity)).
Defined.

(** ** The cards of the panel *)

Section WeakSort.
Variable A : Type.
Variable cmp : A -> A -> Z.
Variable le : A -> A -> Prop.
Hypothesis cmp_le : forall x y, (cmp x y < 0)%Z -> le x y.
Hypothesis cmp_ge : forall x y, ~ (cmp x y < 0)%Z -> le y x.
Hypothesis le_trans : forall x y z, le x y -> le y z -> le x z.

Lemma insertBy_weak (x : A) (l : list A) :
  StronglySorted le l -> StronglySorted le (Js.insertBy cmp x l).
Proof.
  induction l as [|y l IH]; intros Hs; simpl.
  - repeat constructor.
  - inversion Hs as [|? ? Hs' Hf]; subst.
    destruct (Z.ltb_spec (cmp x y) 0) as [Hlt|Hge].
    + constructor; [assumption|]. constructor; [now apply cmp_le|].
      apply Forall_forall. intros z Hz. rewrite Forall_forall in Hf.
      apply le_trans with y; [now apply cmp_le|now apply Hf].
    + constructor; [now apply IH|].
      apply (Permutation_Forall (Permutation_sym (insertBy_perm cmp x l))).
      constructor; [|assumption]. apply cmp_ge. lia.
Qed.

Lemma sort_weak (l : list A) : StronglySorted le (Js.sort cmp l).
Proof.
  unfold Js.sort.
  assert (H : forall acc, StronglySorted le acc ->
                StronglySorted le
                  (fold_left (fun acc x => Js.insertBy cmp x acc) l acc)).
  { induction l as [|x l IH]; intros acc Hs; simpl; [assumption|].
    apply IH. now apply insertBy_weak. }
  apply H. constructor.
Qed.

End WeakSort.

Module CardFacts.

Lemma startsWith_spec (q s : jsstring) :
  JsMore.startsWith q s = true <-> exists post, s = q ++ post.
Proof.
  revert s. induction q as [|x q IH]; intros s; simpl.
  - split; [now exists s|reflexivity].
  - destruct s as [|y s]; [split; [discriminate|intros (p & E); discriminate]|].
    rewrite andb_true_iff, N.eqb_eq, IH. split.
    + intros [-> (p & ->)]. now exists p.
    + intros (p & [= -> ->]). split; [reflexivity|now exists p].
Qed.

Lemma includes_spec (s q : jsstring) :
  JsMore.includes s q = true <-> exists pre post, s = pre ++ q ++ post.
Proof.
  induction s as [|c s IH]; simpl.
  - rewrite orb_false_r, startsWith_spec. split.
    + intros (p & E). now exists [], p.
    + intros (pre & post & E). symmetry in E.
      apply app_eq_nil in E as [-> E]. now exists post.
  - rewrite orb_true_iff, startsWith_spec, IH. split.
    + intros [(p & E)|(pre & post & E)].
      * now exists [], p.
      * exists (c :: pre), post. now rewrite E.
    + intros ([|x pre] & post & E).
      * left. now exists post.
      * right. injection E as _ E. now exists pre, post.
Qed.

Lemma includes_nil (s : jsstring) : JsMore.includes s [] = true.
Proof. apply includes_spec. now exists [], s. Qed.

Section WithHost.
Context {host : Host}.

Lemma groupMapOf_snoc (items : list Item.t) (r : Item.t) :
  groupMapOf (items ++ [r])
  = JsMap.set (Item.교과 r)
      (match JsMap.get (Item.교과 r) (groupMapOf items) with
       | Some arr => arr
       | None => []
       end ++ [r])
      (groupMapOf items).
Proof. unfold groupMapOf. now rewrite fold_left_app. Qed.

Lemma groupMapOf_NoDup (items : list Item.t) :
  NoDup (JsMap.keys (groupMapOf items)).
Proof.
  induction items as [|r items IH] using rev_ind; [constructor|].
  rewrite groupMapOf_snoc. now apply JsFacts.NoDup_keys_set.
Qed.

Lemma groupMapOf_get (items : list Item.t) (g : jsstring) :
  JsMap.get g (groupMapOf items)
  = match filter (inGroup g) items with
    | [] => None
    | r :: l => Some (r :: l)
    end.
Proof.
  induction items as [|r items IH] using rev_ind; [reflexivity|].
  rewrite groupMapOf_snoc, filter_app. cbn [filter]. unfold inGroup at 2.
  destruct (JsFacts.str_eqb_spec (Item.교과 r) g) as [E|E].
  - rewrite E in *. rewrite JsFacts.get_set_eq, IH.
    destruct (filter (inGroup g) items); reflexivity.
  - rewrite JsFacts.get_set_ne by congruence. now rewrite app_nil_r.
Qed.

Lemma flat_set (m : JsMap.t (list Item.t)) (g : jsstring) (r : Item.t) :
  Permutation
    (flat_map snd
       (JsMap.set g
          (match JsMap.get g m with Some arr => arr | None => [] end ++ [r]) m))
    (r :: flat_map snd m).
Proof.
  induction m as [|[k v] m IH]; simpl; [reflexivity|].
  destruct (Js.str_eqb g k); simpl.
  - apply (Permutation_app_tail (flat_map snd m)
             (Permutation_sym (Permutation_cons_append v r))).
  - rewrite IH. apply Permutation_sym, Permutation_middle.
Qed.

Lemma groupMapOf_flat (items : list Item.t) :
  Permutation (flat_map snd (groupMapOf items)) items.
Proof.
  induction items as [|r items IH] using rev_ind; [reflexivity|].
  rewrite groupMapOf_snoc, flat_set, IH. apply Permutation_cons_append.
Qed.

Lemma compareCourses_le (a b : Item.t) :
  (compareCourses a b < 0)%Z -> yearTermLe a b.
Proof.
  unfold compareCourses, yearTermLe, yearOf, termOf. cbv zeta.
  destruct (Z.eqb_spec (match Item.과목학년 a with Some y => y | None => 9999 end)
              (match Item.과목학년 b with Some y => y | None => 9999 end));
    cbn [negb]; [|lia].
  destruct (Z.eqb_spec (match Item.과목학기 a with Some t => t | None => 9999 end)
              (match Item.과목학기 b with Some t => t | None => 9999 end));
    cbn [negb]; lia.
Qed.

Lemma compareCourses_ge (a b : Item.t) :
  ~ (compareCourses a b < 0)%Z -> yearTermLe b a.
Proof.
  unfold compareCourses, yearTermLe, yearOf, termOf. cbv zeta.
  destruct (Z.eqb_spec (match Item.과목학년 a with Some y => y | None => 9999 end)
              (match Item.과목학년 b with Some y => y | None => 9999 end));
    cbn [negb]; [|lia].
  destruct (Z.eqb_spec (match Item.과목학기 a with Some t => t | None => 9999 end)
              (match Item.과목학기 b with Some t => t | None => 9999 end));
    cbn [negb]; lia.
Qed.

Lemma yearTermLe_trans (a b c : Item.t) :
  yearTermLe a b -> yearTermLe b c -> yearTermLe a c.
Proof. unfold yearTermLe. lia. Qed.

Lemma sorted_cards_flat (L : list (jsstring * list Item.t)) :
  Permutation
    (flat_map snd
       (map (fun e : jsstring * list Item.t =>
               (fst e, Js.sort compareCourses (snd e))) L))
    (flat_map snd L).
Proof.
  induction L as [|[g v] L IH]; simpl; [reflexivity|].
  apply Permutation_app; [apply sort_perm|exact IH].
Qed.

End WithHost.

End CardFacts.

Section PanelTheorems.
Context {host : Host}.

(** The cards of the panel hold every course of the student once; there
    is one card for each group that the student has a course of, with
    the courses of that group and no other, in the order of year and then
    term, a course without a year or term after the others. *)
Theorem groupCards_spec (items : list Item.t) :
  Permutation (flat_map snd (groupCards items)) items
  /\ NoDup (map fst (groupCards items))
  /\ (forall g l, In (g, l) (groupCards items) ->
        l <> [] /\ Permutation l (filter (inGroup g) items)
        /\ StronglySorted yearTermLe l).
Proof.
  unfold groupCards.
  set (cmpG := fun a b : jsstring * list Item.t => localeCompare_ko (fst a) (fst b)).
  assert (Hperm : Permutation (Js.sort cmpG (groupMapOf items)) (groupMapOf items))
    by apply sort_perm.
  split; [|split].
  - rewrite CardFacts.sorted_cards_flat.
    rewrite (Permutation_flat_map snd Hperm). apply CardFacts.groupMapOf_flat.
  - rewrite map_map. cbn [fst].
    apply (Permutation_NoDup (Permutation_map fst (Permutation_sym Hperm))).
    apply CardFacts.groupMapOf_NoDup.
  - intros g l Hin. apply in_map_iff in Hin as ([g' v] & [= <- <-] & Hin).
    apply (Permutation_in _ Hperm) in Hin.
    apply JsFacts.In_get_Some in Hin; [|apply CardFacts.groupMapOf_NoDup].
    rewrite CardFacts.groupMapOf_get in Hin.
    destruct (filter (inGroup g') items) as [|r0 rs]; [discriminate|].
    injection Hin as <-.
    pose proof (sort_perm compareCourses (r0 :: rs)) as Hp.
    split; [|split].
    + intros E. rewrite E in Hp. now apply Permutation_nil in Hp.
    + exact Hp.
    + apply sort_weak.
      * apply CardFacts.compareCourses_le.
      * apply CardFacts.compareCourses_ge.
      * apply CardFacts.yearTermLe_trans.
Qed.

(** The filter of the list keeps the students whose label contains the
    query, in their order; the empty query keeps them all. *)
Theorem filteredStudents_spec (l : list Choice.t) (query : jsstring) :
  filteredStudents l [] = l
  /\ (forall s, In s (filteredStudents l query)
                <-> In s l /\ exists pre post,
                                Choice.label s = pre ++ query ++ post)
  /\ (exists keep, filteredStudents l query = filter keep l).
Proof.
  unfold filteredStudents. split; [|split].
  - induction l as [|a l IH]; simpl; [reflexivity|].
    now rewrite CardFacts.includes_nil, IH.
  - intros s. now rewrite filter_In, CardFacts.includes_spec.
  - now eexists.
Qed.

End PanelTheorems.

(** ** The list of classes *)

Module ClassesFacts.
Section WithHost.
Context {host : Host}.

Lemma classes_fold (rows : list Row) :
  classes rows = Js.sort compareClasses (fold_left classesStep rows []).
Proof. reflexivity. Qed.

Lemma classesStep_cases (set : list jsstring) (r : Row) :
  (exists t, rowOfClass r t
             /\ classesStep set r = JsSet.add Js.str_eqb (classKeyOf t) set)
  \/ (classesStep set r = set /\ forall t, ~ rowOfClass r t).
Proof.
  unfold classesStep, rowOfClass.
  destruct (학년 r) as [g|]; [|right; split; [reflexivity|]; intros t [H _];
                                 discriminate].
  destruct (반 r) as [c|]; [|right; split; [reflexivity|]; intros t [_ H];
                               discriminate].
  left. now exists (g, c).
Qed.

Lemma classSet_In (rows : list Row) (k : jsstring) :
  In k (fold_left classesStep rows [])
  <-> exists r t, In r rows /\ rowOfClass r t /\ k = classKeyOf t.
Proof.
  induction rows as [|r rows IH] using rev_ind.
  - split; [intros []|]. intros (r & t & [] & _).
  - rewrite fold_left_app. cbn [fold_left].
    assert (Hold : (exists r0 t, In r0 rows /\ rowOfClass r0 t /\ k = classKeyOf t)
                   -> exists r0 t, In r0 (rows ++ [r]) /\ rowOfClass r0 t
                                   /\ k = classKeyOf t).
    { intros (r0 & t & Hin & H). exists r0, t. split; [|exact H].
      apply in_or_app. now left. }
    destruct (classesStep_cases (fold_left classesStep rows []) r)
      as [(t & Ht & ->)|[-> Hno]].
    + rewrite JsFacts.In_add, IH. split.
      * intros [->|H]; [|now apply Hold].
        exists r, t. split; [|now split]. apply in_or_app. right. now left.
      * intros (r0 & t0 & Hin & Hr0 & Hk).
        apply in_app_or in Hin as [Hin|[<-|[]]].
        -- right. now exists r0, t0.
        -- left. rewrite Hk. destruct t as [g c], t0 as [g0 c0].
           destruct Ht as [Hg Hc], Hr0 as [Hg0 Hc0]. simpl in *. congruence.
    + rewrite IH. split; [exact Hold|].
      intros (r0 & t0 & Hin & Hr0 & Hk).
      apply in_app_or in Hin as [Hin|[<-|[]]].
      * now exists r0, t0.
      * now apply Hno in Hr0.
Qed.

Lemma classSet_NoDup (rows : list Row) : NoDup (fold_left classesStep rows []).
Proof.
  induction rows as [|r rows IH] using rev_ind; [constructor|].
  rewrite fold_left_app. cbn [fold_left].
  destruct (classesStep_cases (fold_left classesStep rows []) r)
    as [(t & Ht & ->)|[-> Hno]]; [|exact IH].
  now apply StudentFacts.NoDup_add.
Qed.

Lemma pairOf_classKeyOf (t : Z * Z) :
  (0 <= fst t)%Z -> (0 <= snd t)%Z -> pairOf (classKeyOf t) = t.
Proof.
  intros Hg Hc. unfold pairOf, classKeyOf.
  rewrite ClassFacts.classNumbers_classKey by assumption. now destruct t.
Qed.

Lemma compareClasses_good (a b : jsstring) :
  goodClass a -> goodClass b ->
  ((compareClasses a b < 0)%Z <-> pairLt (pairOf a) (pairOf b)).
Proof.
  intros (ta & Hga & Hca & ->) (tb & Hgb & Hcb & ->).
  rewrite !pairOf_classKeyOf by assumption.
  unfold compareClasses, classKeyOf.
  rewrite !ClassFacts.classNumbers_classKey by assumption.
  unfold pairLt, Num.sub, Num.or, Num.sign.
  destruct (Z.eqb_spec (fst ta - fst tb) 0); lia.
Qed.

Lemma pairLt_trans (a b c : Z * Z) : pairLt a b -> pairLt b c -> pairLt a c.
Proof. unfold pairLt. lia. Qed.

Lemma pairLt_total (a b : Z * Z) : a <> b -> pairLt a b \/ pairLt b a.
Proof.
  destruct a as [g1 c1], b as [g2 c2]. unfold pairLt. simpl. intros H.
  destruct (Z.eq_dec g1 g2) as [->|]; [|lia].
  destruct (Z.eq_dec c1 c2) as [->|]; [congruence|lia].
Qed.

End WithHost.
End ClassesFacts.

Section ClassesTheorems.
Context {host : Host}.

(** When the grade and the class number of the rows are not negative, the
    list of classes has each class of a row once, in the strict order of
    grade and then class number, both as numbers: the class 1-10 stands
    after the class 1-2. *)
Theorem classes_order (rows : list Row) :
  (forall r t, In r rows -> rowOfClass r t -> (0 <= fst t)%Z /\ (0 <= snd t)%Z) ->
  exists l : list (Z * Z),
    classes rows = map classKeyOf l
    /\ StronglySorted pairLt l
    /\ (forall t, In t l <-> exists r, In r rows /\ rowOfClass r t).
Proof.
  intros Hnn. rewrite ClassesFacts.classes_fold.
  set (set := fold_left classesStep rows []).
  assert (Hgood : forall k, In k set -> goodClass k).
  { intros k Hk. apply ClassesFacts.classSet_In in Hk as (r & t & Hin & Hr & ->).
    destruct (Hnn r t Hin Hr). now exists t. }
  assert (Hperm : Permutation (Js.sort compareClasses set) set)
    by apply sort_perm.
  assert (Hsorted :
            StronglySorted (fun a b => pairLt (pairOf a) (pairOf b))
              (Js.sort compareClasses set)).
  { apply sort_sorted with (good := goodClass).
    - apply ClassesFacts.compareClasses_good.
    - intros x y z. apply ClassesFacts.pairLt_trans.
    - intros x y (tx & Hgx & Hcx & ->) (ty & Hgy & Hcy & ->) Hne.
      rewrite !ClassesFacts.pairOf_classKeyOf by assumption.
      apply ClassesFacts.pairLt_total. congruence.
    - apply Forall_forall. exact Hgood.
    - apply ClassesFacts.classSet_NoDup. }
  exists (map pairOf (Js.sort compareClasses set)). split; [|split].
  - rewrite map_map. symmetry. rewrite <- (map_id (Js.sort compareClasses set)) at 2.
    apply map_ext_in. intros k Hk. apply (Permutation_in _ Hperm) in Hk.
    destruct (Hgood k Hk) as (t & Hg & Hc & ->).
    now rewrite ClassesFacts.pairOf_classKeyOf.
  - now apply StudentFacts.StronglySorted_map.
  - intros t. split.
    + intros Hin. apply in_map_iff in Hin as (k & <- & Hk).
      apply (Permutation_in _ Hperm) in Hk.
      apply ClassesFacts.classSet_In in Hk as (r & t & Hin & Hr & ->).
      destruct (Hnn r t Hin Hr).
      rewrite ClassesFacts.pairOf_classKeyOf by assumption. now exists r.
    + intros (r & Hin & Hr). destruct (Hnn r t Hin Hr).
      apply in_map_iff. exists (classKeyOf t). split.
      * now apply ClassesFacts.pairOf_classKeyOf.
      * apply (Permutation_in _ (Permutation_sym Hperm)).
        apply ClassesFacts.classSet_In. now exists r, t.
Qed.

End ClassesTheorems.

Lemma classes_order_sample :
  exists l : list (Z * Z),
    classes SampleClasses.rows = map classKeyOf l
    /\ StronglySorted pairLt l
    /\ (forall t, In t l <-> exists r, In r SampleClasses.rows /\ rowOfClass r t).
Proof.
  apply (@classes_order SampleClasses.rows).
  intros r t Hin [Hg Hc]. simpl in Hin.
  repeat (destruct Hin as [<-|Hin];
          [simpl in Hg, Hc; injection Hg as <-; injection Hc as <-; lia|]).
  destruct Hin.
Defined.

(** ** The panel and the export *)

Module PanelFacts.
Section WithHost.
Context {host : Host}.

Lemma byStuOf_get (rows : list Row) (t : Z * Z * Z) :
  JsMap.get (keyOfIdent t) (byStuOf rows)
  = match rowsOf t rows with
    | [] => None
    | r0 :: rs => Some (studentOf t r0 rs)
    end.
Proof.
  induction rows as [|r rows IH] using rev_ind; [reflexivity|].
  rewrite ExportFacts.byStuOf_snoc. unfold rowsOf in *. rewrite filter_app.
  cbn [filter]. destruct (noIdent r) eqn:En.
  - rewrite (@KeyInj.noIdent_true r t En), app_nil_r.
    unfold byStuStep. unfold noIdent in En.
    destruct (학년 r), (반 r), (번호 r); try exact IH. discriminate.
  - destruct (@KeyInj.noIdent_false r En) as ([[g c] n] & Hr).
    assert (Es : byStuStep (byStuOf rows) r
                 = JsMap.set (keyOf g c n)
                     (let ent :=
                        match JsMap.get (keyOf g c n) (byStuOf rows) with
                        | Some ent => ent
                        | None =>
                            {| Student.학년 := g; Student.반 := c;
                               Student.번호 := n; Student.이름 := 이름 r;
                               Student.list := [] |}
                        end in
                      {| Student.학년 := Student.학년 ent;
                         Student.반 := Student.반 ent;
                         Student.번호 := Student.번호 ent;
                         Student.이름 := Student.이름 ent;
                         Student.list := Student.list ent ++ [r] |})
                     (byStuOf rows)).
    { unfold byStuStep. destruct Hr as (-> & -> & ->). reflexivity. }
    rewrite Es. clear Es.
    destruct (hasIdent t r) eqn:Et.
    + apply KeyInj.hasIdent_true in Et.
      assert (t = (g, c, n)) as ->.
      { destruct t as [[g' c'] n']. destruct Hr as (Hg & Hc & Hn).
        destruct Et as (Hg' & Hc' & Hn'). congruence. }
      change (keyOfIdent (g, c, n)) with (keyOf g c n) in *.
      rewrite JsFacts.get_set_eq, IH.
      destruct (filter (hasIdent (g, c, n)) rows) as [|r0 rs]; reflexivity.
    + rewrite app_nil_r.
      assert (Hne : keyOfIdent t <> keyOf g c n).
      { intros E. change (keyOf g c n) with (keyOfIdent (g, c, n)) in E.
        apply KeyInj.keyOfIdent_inj in E. subst t.
        apply KeyInj.hasIdent_true in Hr. congruence. }
      now rewrite JsFacts.get_set_ne.
Qed.

Lemma fold_items {B} (step : B -> Item.t -> B) (l : list Row) (acc : B) :
  (forall b r, step b (itemOf r) = step b (detailItem r)) ->
  fold_left step (map itemOf l) acc = fold_left step (map detailItem l) acc.
Proof.
  intros H. revert acc. induction l as [|r l IH]; intros acc; simpl;
    [reflexivity|]. now rewrite H, IH.
Qed.

Lemma totalOf_detail (l : list Row) :
  totalOf (map detailItem l) = totalOf (map itemOf l).
Proof. unfold totalOf. symmetry. now apply fold_items. Qed.

Lemma baseOnlyOf_detail (l : list Row) :
  baseOnlyOf (map detailItem l) = baseOnlyOf (map itemOf l).
Proof. unfold baseOnlyOf. symmetry. now apply fold_items. Qed.

Lemma khOnlyOf_detail (l : list Row) :
  khOnlyOf (map detailItem l) = khOnlyOf (map itemOf l).
Proof. unfold khOnlyOf. symmetry. now apply fold_items. Qed.

Lemma byBaseOf_detail (l : list Row) :
  byBaseOf (map detailItem l) = byBaseOf (map itemOf l).
Proof. unfold byBaseOf. symmetry. now apply fold_items. Qed.

Lemma haveOf_detail (l : list Row) :
  haveOf (map detailItem l) = haveOf (map itemOf l).
Proof. unfold haveOf. symmetry. now apply fold_items. Qed.

Lemma seqViolations_detail (l : list Row) :
  seqViolations (map detailItem l) = seqViolations (map itemOf l).
Proof. unfold seqViolations. now rewrite byBaseOf_detail. Qed.

Lemma explicitFindings_detail (PREREQS : JsMap.t (list jsstring)) (l : list Row) :
  explicitFindings PREREQS (map detailItem l)
  = explicitFindings PREREQS (map itemOf l).
Proof. unfold explicitFindings. now rewrite haveOf_detail. Qed.

Lemma buildChecks_detail (PREREQS : JsMap.t (list jsstring)) (l : list Row) :
  buildChecks PREREQS (map detailItem l) = buildChecks PREREQS (map itemOf l).
Proof.
  unfold buildChecks, seqParts, explicitParts.
  now rewrite byBaseOf_detail, explicitFindings_detail.
Qed.

Lemma panelFigures_export (items : list Item.t) :
  panelFigures items
  = (totalOf items, baseOnlyOf items, khOnlyOf items,
     pctOf (totalOf items) (baseOnlyOf items) (khOnlyOf items)).
Proof. reflexivity. Qed.

End WithHost.
End PanelFacts.

Section PanelExportTheorems.
Context {host : Host}.
Variable PREREQS : JsMap.t (list jsstring).

(** The panel of a student and the row of the student in the export
    agree: the total, the credits of the foundation groups, those of
    Korean history and the ratio of the panel are the figures of the row,
    and the check cell of the row is built from the courses that the
    panel lists; it is empty exactly when the two checks of the panel
    have no finding and the ratio is not above 50. *)
Theorem panel_agrees_with_export (rows : list Row) (cols : list jsstring)
  (out : list Summary.t) :
  exportAll PREREQS rows = Some (cols, out) ->
  forall s, In s out ->
    let items := fst (detail rows (keyOfIdent (ident s))) in
    panelFigures items
    = (Summary.전체이수학점 s, Summary.기초교과학점 s, Summary.한국사학점 s,
       Summary.비율 s)
    /\ Summary.점검 s
       = Js.join Lit.bar (checkPartsOf PREREQS items (Summary.비율 s))
    /\ (Summary.점검 s = []
        <-> seqViolations items = [] /\ explicitFindings PREREQS items = []
            /\ (50 <? Summary.비율 s)%float = false).
Proof.
  intros E s Hin. unfold exportAll in E.
  destruct rows as [|r0 rows0]; [discriminate|].
  set (rows := r0 :: rows0) in *. injection E as _ <-.
  apply in_flat_map in Hin as (k & Hk & Hin).
  apply (Permutation_in _ (sort_perm compareKeys _)) in Hk.
  rewrite StudentFacts.byStuOf_keys in Hk.
  apply StudentFacts.studentKeys_In in Hk as (r & t & _ & _ & ->).
  rewrite PanelFacts.byStuOf_get in Hin.
  destruct (rowsOf t rows) as [|r1 rs] eqn:Er; [destruct Hin|].
  destruct Hin as [<-|[]].
  assert (Hid : ident (summaryOf PREREQS (groupsOf rows) (studentOf t r1 rs)) = t).
  { now destruct t as [[g c] n]. }
  rewrite Hid. unfold detail. rewrite StudentFacts.byStudentMap_get, Er.
  assert (Hl : Entry.rows (entryOf t r1 rs) = r1 :: rs)
    by now destruct t as [[g c] n].
  assert (Hs : Student.list (studentOf t r1 rs) = r1 :: rs)
    by now destruct t as [[g c] n].
  cbn [fst]. rewrite Hl. cbv zeta.
  unfold summaryOf.
  cbn [Summary.전체이수학점 Summary.기초교과학점 Summary.한국사학점
       Summary.비율 Summary.점검].
  rewrite Hs.
  set (l := r1 :: rs).
  assert (Hc : checkPartsOf PREREQS (map detailItem l)
                 (pctOf (totalOf (map itemOf l)) (baseOnlyOf (map itemOf l))
                    (khOnlyOf (map itemOf l)))
               = checkPartsOf PREREQS (map itemOf l)
                   (pctOf (totalOf (map itemOf l)) (baseOnlyOf (map itemOf l))
                      (khOnlyOf (map itemOf l)))).
  { unfold checkPartsOf. now rewrite PanelFacts.buildChecks_detail. }
  split; [|split].
  - rewrite PanelFacts.panelFigures_export.
    now rewrite PanelFacts.totalOf_detail, PanelFacts.baseOnlyOf_detail,
      PanelFacts.khOnlyOf_detail.
  - now rewrite Hc.
  - rewrite <- Hc. apply CellFacts.checkParts_empty.
Qed.

(** The columns of the groups are the groups of the rows, each once; a
    row of the export has one cell for each column, and the cell of a
    group holds the credits of the courses of that group in the rows of
    the sheet that have the grade, class and number of the row, and of no
    other row, added in the order of the sheet: 0 where the student has
    no course of the group. *)
Theorem export_columns (rows : list Row) (cols : list jsstring)
  (out : list Summary.t) :
  exportAll PREREQS rows = Some (cols, out) ->
  NoDup cols
  /\ (forall g, In g cols <-> exists r, In r rows /\ canonGroup (교과 r) = g)
  /\ (forall s, In s out ->
        rowsOf (ident s) rows <> []
        /\ Summary.groups s
           = map (fun g => groupSum g (map itemOf (rowsOf (ident s) rows)))
               cols).
Proof.
  intros E. unfold exportAll in E. destruct rows as [|r0 rows0]; [discriminate|].
  set (rows := r0 :: rows0) in *. injection E as <- <-.
  assert (Hset : forall acc g,
             In g (fold_left
                     (fun groupSet r =>
                        JsSet.add Js.str_eqb (canonGroup (교과 r)) groupSet)
                     rows acc)
             <-> In g acc \/ exists r, In r rows /\ canonGroup (교과 r) = g).
  { clearbody rows. clear. induction rows as [|r rows IH]; intros acc g; simpl.
    - split; [now left|]. intros [H|(r & [] & _)]. exact H.
    - rewrite IH, JsFacts.In_add. split.
      + intros [[->|H]|(r' & Hr' & E)].
        * right. exists r. now split; [left|].
        * now left.
        * right. exists r'. now split; [right|].
      + intros [H|(r' & [<-|Hr'] & E)].
        * left. now right.
        * left. now left.
        * right. now exists r'. }
  assert (Hnd : forall acc,
             NoDup acc ->
             NoDup (fold_left
                      (fun groupSet r =>
                         JsSet.add Js.str_eqb (canonGroup (교과 r)) groupSet)
                      rows acc)).
  { clearbody rows. clear. induction rows as [|r rows IH]; intros acc H; simpl;
      [assumption|]. apply IH. now apply StudentFacts.NoDup_add. }
  unfold groupsOf.
  set (gs := fold_left _ rows []) in *.
  assert (Hperm : Permutation (Js.sort localeCompare_ko gs) gs)
    by apply sort_perm.
  split; [|split].
  - apply (Permutation_NoDup (Permutation_sym Hperm)). apply Hnd. constructor.
  - intros g. split.
    + intros Hin. apply (Permutation_in _ Hperm) in Hin.
      apply Hset in Hin as [[]|H]. exact H.
    + intros H. apply (Permutation_in _ (Permutation_sym Hperm)).
      apply Hset. now right.
  - intros s Hin. apply in_flat_map in Hin as (k & Hk & Hin).
    apply (Permutation_in _ (sort_perm compareKeys _)) in Hk.
    rewrite StudentFacts.byStuOf_keys in Hk.
    apply StudentFacts.studentKeys_In in Hk as (r & t & _ & _ & ->).
    rewrite PanelFacts.byStuOf_get in Hin.
    destruct (rowsOf t rows) as [|r1 rs] eqn:Er; [destruct Hin|].
    destruct Hin as [<-|[]].
    assert (Hid : ident (summaryOf PREREQS (Js.sort localeCompare_ko gs)
                           (studentOf t r1 rs)) = t)
      by now destruct t as [[g c] n].
    assert (Hs : Student.list (studentOf t r1 rs) = r1 :: rs)
      by now destruct t as [[g c] n].
    rewrite Hid, Er. split; [discriminate|].
    unfold summaryOf. cbn [Summary.groups]. rewrite Hs.
    apply map_ext. intros g. apply CellFacts.grpOf_groupSum.
Qed.

End PanelExportTheorems.

Lemma panel_agrees_with_export_sample :
  exists cols s,
    @exportAll SampleHost.host [] SampleClass.rows = Some (cols, [s])
    /\ @panelFigures SampleHost.host
         (fst (@detail SampleHost.host SampleClass.rows (keyOfIdent (ident s))))
       = (Summary.전체이수학점 s, Summary.기초교과학점 s, Summary.한국사학점 s,
          Summary.비율 s).
Proof.
  eexists. eexists. split; [vm_compute; reflexivity|].
  refine (proj1 (@panel_agrees_with_export SampleHost.host [] SampleClass.rows
                   _ _ ltac:(vm_compute; reflexivity) _ _)).
  now left.
Defined.

Section KeyTheorems.
Context {host : Host}.

(** The key of a student determines grade, class and number, whatever
    their signs: two students share a key only when they share all three.
    The numbers that the comparator of the export reads back from a key
    are the three numbers when none of them is negative. *)
Theorem keyOf_round_trip :
  (forall t t', keyOfIdent t = keyOfIdent t' <-> t = t')
  /\ (forall g c n, (0 <= g)%Z -> (0 <= c)%Z -> (0 <= n)%Z ->
        keyNumbers (keyOf g c n) = (Some g, Some c, Some n)).
Proof.
  split.
  - intros t t'. split; [apply KeyInj.keyOfIdent_inj|now intros ->].
  - intros g c n. apply KeyFacts.keyNumbers_keyOf.
Qed.

End KeyTheorems.

Lemma export_columns_sample :
  exists cols out,
    @exportAll SampleHost.host [] SampleColumns.rows = Some (cols, out)
    /\ cols = [Lit.korean; Lit.maths]
    /\ map ident out = [(1, 1, 1); (1, 1, 2)]%Z
    /\ map Summary.groups out = [[3; 2]; [4; 0]]%float
    /\ NoDup cols
    /\ Forall
         (fun s =>
            Summary.groups s
            = map (fun g =>
                     groupSum g
                       (map (@itemOf SampleHost.host)
                          (rowsOf (ident s) SampleColumns.rows))) cols)
         out.
Proof.
  eexists. eexists. split; [vm_compute; reflexivity|].
  split; [reflexivity|]. split; [reflexivity|]. split; [reflexivity|].
  match goal with
  | |- NoDup ?c /\ Forall _ ?o =>
      destruct (@export_columns SampleHost.host [] SampleColumns.rows c o
                  ltac:(vm_compute; reflexivity)) as (Hnd & _ & Hcells)
  end.
  split; [exact Hnd|]. apply Forall_forall. intros s Hs.
  exact (proj2 (Hcells s Hs)).
Defined.

(** ** The order of the export below 0 *)

(** C6.  The export does not keep the order of grade, class and number
    when a number is negative: of the students (-2, 0, 0) and (-1, 5, 5)
    it writes the second first, because the minus sign of the key is read
    as a separator; the list of students of the screen, whose comparator
    takes the numbers themselves, has them in their order. *)
Theorem export_misorders_below_zero :
  let rows := [studentRow (-2) 0 0; studentRow (-1) 5 5] in
  (exists out,
     @exportAll SampleHost.host [] rows = Some ([Lit.other], out)
     /\ map ident out = [(-1, 5, 5); (-2, 0, 0)]%Z)
  /\ map identOfListed
       (@byStudentList SampleHost.host SampleCoerce.coerce rows)
     = [(-2, 0, 0); (-1, 5, 5)]%Z
  /\ lexLt (-2, 0, 0)%Z (-1, 5, 5)%Z
  /\ numsOf (keyOf (-1) 5 5) = Some (0, 1, 5)%Z
  /\ numsOf (keyOf (-2) 0 0) = Some (0, 2, 0)%Z.
Proof.
  cbv zeta. split; [eexists; split; vm_compute; reflexivity|].
  split; [vm_compute; reflexivity|]. split; [simpl; lia|].
  split; vm_compute; reflexivity.
Qed.
